(** * Pastebin-lite: the paste lifecycle, verified

    The repository holds two versions of one Express server backed by
    Redis: [src/server.js] and [src/unnamed/part_000].  Both expose

      POST /api/pastes        create a paste
      GET  /api/pastes/:id    fetch it as JSON
      GET  /p/:id             view it as HTML

    The embedding is shallow.  A handler is a program in a small free
    monad whose only effect is [await redis.<command>]; running such a
    program against a Redis state gives its response and the new state
    (sequential semantics), and a pool of programs can be interleaved
    command by command (concurrent semantics).

    Conventions of the model:
    - a JavaScript string is a [string]; each character stands for one
      code unit below U+0100;
    - the JavaScript numbers of the handlers are integers, modelled as
      [Z] (exact in the safe-integer range of a double), plus [NaN];
      the counter kept by Redis is an unbounded integer as well;
    - [Date.now()], [uuidv4()] and [process.env.TEST_MODE] are read from
      an environment record that accompanies each request;
    - Redis is reachable: a command fails only with an error reply of
      Redis itself (HINCRBY on a value that is not an integer).

    Part I is the embedding: the JavaScript values the handlers compute
    with, Redis, the handlers of the two files, the lifecycle policy as
    the specification words it, and the vocabulary of the statements.
    Part II holds the lemmas and the theorems. *)

From Stdlib Require Import ZArith QArith.QArith_base Ascii String List Bool Lia Sorted.
From Stdlib Require Import Decimal DecimalString DecimalPos DecimalZ.
From stdpp Require Import base option gmap strings list fin_maps.

Local Open Scope string_scope.
Local Open Scope Z_scope.

(* ================================================================== *)
(** * Part I: the embedding                                             *)
(* ================================================================== *)

(* ================================================================== *)
(** ** JavaScript strings                                               *)
(* ================================================================== *)

Module JsString.

(** WhiteSpace and LineTerminator code units below U+0100 (ECMAScript
    [String.prototype.trim] and [StringToNumber] strip these): TAB, LF,
    VT, FF, CR, SP, NBSP. *)
Definition is_white_space (c : ascii) : bool :=
  let n := nat_of_ascii c in
  ((9 <=? n)%nat && (n <=? 13)%nat) || (n =? 32)%nat || (n =? 160)%nat.

Fixpoint trimStart (s : string) : string :=
  match s with
  | EmptyString => EmptyString
  | String c s' => if is_white_space c then trimStart s' else s
  end.

Fixpoint trimEnd (s : string) : string :=
  match s with
  | EmptyString => EmptyString
  | String c s' =>
      match trimEnd s' with
      | EmptyString => if is_white_space c then EmptyString else String c EmptyString
      | t => String c t
      end
  end.

(** [str.trim()] *)
Definition trim (s : string) : string := trimEnd (trimStart s).

(** [str.slice(0, n)] *)
Fixpoint slice0 (n : nat) (s : string) : string :=
  match n, s with
  | S n', String c s' => String c (slice0 n' s')
  | _, _ => EmptyString
  end.

(** [str.includes(needle)] *)
Fixpoint includes (needle s : string) : bool :=
  String.prefix needle s ||
  match s with
  | EmptyString => false
  | String _ s' => includes needle s'
  end.

(** [str.replace(/[class]/g, f)]: every character of the class is
    replaced by what the callback returns for it. *)
Fixpoint replace_class (class : ascii -> bool) (f : ascii -> string) (s : string) : string :=
  match s with
  | EmptyString => EmptyString
  | String c s' =>
      (if class c then f c else String c EmptyString) ++ replace_class class f s'
  end.

(** Truthiness of a string value that may be [undefined]. *)
Definition truthy (v : option string) : bool :=
  match v with
  | None | Some EmptyString => false
  | Some _ => true
  end.

Definition all_chars (P : ascii -> bool) (s : string) : bool :=
  forallb P (list_ascii_of_string s).

End JsString.

(* ================================================================== *)
(** ** JavaScript numbers                                               *)
(* ================================================================== *)

Module JsNumber.

(** The numbers of the handlers, as far as they are integers, and
    [NaN].  A double that holds an integer of magnitude at most 2^53 is
    that integer, and on such values the sums, products, differences
    and comparisons below are those of the doubles.  Beyond 2^53 a
    double rounds and the integers here do not: what depends on a value
    out there is stated with the bound [MAX_SAFE_INTEGER] as a
    hypothesis. *)
Inductive number : Type :=
| Num (z : Z)
| NaN.

(** [n.toString()] of an integer: its canonical decimal numeral. *)
Definition toString (z : Z) : string := NilZero.string_of_int (Z.to_int z).

(** Optional sign followed by one or more decimal digits. *)
Definition parse_integer (s : string) : option Z :=
  match s with
  | String "+" s' => Z.of_uint <$> NilZero.uint_of_string s'
  | _ => Z.of_int <$> NilZero.int_of_string s
  end.

(** [Number(v)] for a string or [undefined].  Surrounding white space
    is dropped and the empty string is 0, as in ECMAScript.  The
    numerals covered are the signed decimal integers; fractions,
    exponents, radix prefixes and [Infinity] lie outside the model and
    are read as [NaN], so that a [NaN] here stands for the [NaN] of
    the code only on a text that is no numeric literal at all.  The
    numbers the server writes to Redis are canonical decimal integers
    as long as they are below 1e21. *)
Definition Number (v : option string) : number :=
  match v with
  | None => NaN
  | Some s =>
      match JsString.trim s with
      | EmptyString => Num 0
      | t => match parse_integer t with
             | Some z => Num z
             | None => NaN
             end
      end
  end.

(** A number or [null], as in [x ? Number(x) : null]. *)
Definition nullable : Type := option number.

(** Truthiness: [null], [0] and [NaN] are falsy. *)
Definition truthy (n : nullable) : bool :=
  match n with
  | Some (Num z) => negb (z =? 0)
  | Some NaN | None => false
  end.

(** ToNumber on a nullable operand: [null] counts as 0. *)
Definition of_nullable (n : nullable) : number :=
  match n with
  | Some x => x
  | None => Num 0
  end.

Definition lift2 (f : Z -> Z -> Z) (a b : number) : number :=
  match a, b with
  | Num x, Num y => Num (f x y)
  | _, _ => NaN
  end.

Definition add : number -> number -> number := lift2 Z.add.
Definition sub : number -> number -> number := lift2 Z.sub.
Definition mul : number -> number -> number := lift2 Z.mul.
(** [Math.max(a, b)] *)
Definition Math_max : number -> number -> number := lift2 Z.max.

(** [a >= b]; false as soon as one side is [NaN]. *)
Definition ge (a b : number) : bool :=
  match a, b with
  | Num x, Num y => y <=? x
  | _, _ => false
  end.

End JsNumber.

(* ================================================================== *)
(** ** JavaScript dates                                                 *)
(* ================================================================== *)

Module JsDate.
Import JsNumber.

(** The time value of [new Date(v)]: TimeClip keeps a finite [v] of
    magnitude at most 8.64e15 ms and makes anything else an invalid
    date ([None]). *)
Definition max_time : Z := 8640000000000000.

Inductive date : Type :=
| time_value (ms : Z)
| invalid_date.

(** [new Date(v)] *)
Definition Date (v : number) : date :=
  match v with
  | Num z => if Z.abs z <=? max_time then time_value z else invalid_date
  | NaN => invalid_date
  end.

(** [d.toISOString()]: the instant rendered (kept as its epoch
    milliseconds; the ISO text is not modelled), or a RangeError
    ([None]) on an invalid date. *)
Definition toISOString (d : date) : option Z :=
  match d with
  | time_value ms => Some ms
  | invalid_date => None
  end.

(** [d.toLocaleString()] never throws: a valid date gives the locale
    text of its instant, an invalid one the text Invalid Date. *)
Inductive locale_text : Type :=
| text_of_instant (ms : Z)
| text_Invalid_Date.

Definition toLocaleString (d : date) : locale_text :=
  match d with
  | time_value ms => text_of_instant ms
  | invalid_date => text_Invalid_Date
  end.

End JsDate.

(* ================================================================== *)
(** ** Request bodies: the values [express.json()] produces             *)
(* ================================================================== *)

Module JsValue.

Inductive value : Type :=
| undefined
| null
| boolean (b : bool)
| numeric (q : Q)           (* a finite number *)
| infinity                  (* a numeral beyond the double range *)
| text (s : string)
| object.                   (* an array or an object *)

(** [!v] *)
Definition falsy (v : value) : bool :=
  match v with
  | undefined | null => true
  | boolean b => negb b
  | numeric q => Z.eqb (Qnum q) 0
  | infinity => false
  | text s => match s with EmptyString => true | _ => false end
  | object => false
  end.

(** [typeof v === 'string'] *)
Definition is_string (v : value) : bool :=
  match v with text _ => true | _ => false end.

(** [v !== undefined] *)
Definition defined (v : value) : bool :=
  match v with undefined => false | _ => true end.

(** [Number.isInteger(v)] *)
Definition isInteger (v : value) : bool :=
  match v with
  | numeric q => Z.eqb (Qnum q mod Zpos (Qden q)) 0
  | _ => false
  end.

(** [v < 1] for a number [v]; other operands never reach it. *)
Definition lt_1 (v : value) : bool :=
  match v with
  | numeric q => Qnum q <? Zpos (Qden q)
  | _ => false
  end.

(** [v ?? d] *)
Definition nullish_or (v d : value) : value :=
  match v with
  | undefined | null => d
  | _ => v
  end.

(** The value of an integral number. *)
Definition to_Z (q : Q) : Z := Qnum q / Zpos (Qden q).

End JsValue.

(* ================================================================== *)
(** ** Redis: hashes under string keys                                  *)
(* ================================================================== *)

Module Redis.
Import JsNumber.

Abbreviation hash := (gmap string string).

(** The keyspace: the hash stored under each key, and the time to
    live (seconds) registered for a key by EXPIRE.  Eviction by Redis
    when that time has passed is an action of the server's clock and
    is not a transition of this model. *)
Record state : Type := {
  hashes : gmap string hash;
  expires : gmap string Z
}.

Definition empty : state := {| hashes := ∅; expires := ∅ |}.

(** The commands the server issues, indexed by the type of the reply
    the client library hands back. *)
Inductive command : Type -> Type :=
| hGetAll (key : string) : command hash
| hSet (key : string) (fields : list (string * string)) : command unit
| expire (key : string) (seconds : Z) : command unit
| del (key : string) : command unit
| hIncrBy (key field : string) (increment : Z) : command Z.

(** Redis reads a hash value as an integer only when it is a
    canonical decimal numeral: no sign [+], no leading zero, no
    surrounding space. *)
Definition integer_value (s : string) : option Z :=
  match NilZero.int_of_string s with
  | Some d => let z := Z.of_int d in
              if String.eqb (toString z) s then Some z else None
  | None => None
  end.

(** One command against the keyspace: the reply ([None] for an error
    reply, which leaves the keyspace as it was) and the new keyspace.
    - HGETALL of a missing key replies the empty hash;
    - HSET writes the given fields over those of the hash, keeping the
      others, and creates the hash when missing;
    - EXPIRE registers the time to live of an existing key; Redis
      refuses a count that is no 64-bit integer or overflows its
      clock, the embedding accepts every count;
    - DEL removes the key with its time to live, and is not an error
      on a missing key;
    - HINCRBY creates key and field when missing (counting from 0) and
      replies the new value; Redis counts in 64 bits, the embedding
      without bound. *)
Definition exec {A : Type} (c : command A) (s : state) : option A * state :=
  match c in command T return option T * state with
  | hGetAll key => (Some (default ∅ (hashes s !! key)), s)
  | hSet key fields =>
      let h := default ∅ (hashes s !! key) in
      (Some tt, {| hashes := <[key := list_to_map fields ∪ h]> (hashes s);
                   expires := expires s |})
  | expire key seconds =>
      (Some tt,
       match hashes s !! key with
       | Some _ => {| hashes := hashes s; expires := <[key := seconds]> (expires s) |}
       | None => s
       end)
  | del key =>
      (Some tt, {| hashes := delete key (hashes s); expires := delete key (expires s) |})
  | hIncrBy key field n =>
      let h := default ∅ (hashes s !! key) in
      let old := match h !! field with
                 | Some v => integer_value v
                 | None => Some 0
                 end in
      match old with
      | Some v =>
          (Some (v + n),
           {| hashes := <[key := <[field := toString (v + n)]> h]> (hashes s);
              expires := expires s |})
      | None => (None, s)
      end
  end.

(** What a served command does to the view counter of a key, as far
    as an onlooker of the keyspace can tell: HINCRBY of [views] by 1
    grants the next position; DEL, HSET and any other HINCRBY set the
    hash to something else. *)
Inductive event : Type :=
| Granted (key : string) (position : Z)
| Rewritten (key : string).

Definition event_of {A : Type} (c : command A) : option A -> option event :=
  match c in command T return option T -> option event with
  | hGetAll _ => fun _ => None
  | expire _ _ => fun _ => None
  | hSet key _ => fun _ => Some (Rewritten key)
  | del key => fun _ => Some (Rewritten key)
  | hIncrBy key field n => fun r =>
      match r with
      | Some v =>
          if String.eqb field "views" && (n =? 1)
          then Some (Granted key v) else Some (Rewritten key)
      | None => None
      end
  end.

End Redis.

(* ================================================================== *)
(** ** Handlers as programs over Redis                                  *)
(* ================================================================== *)

Module Async.

(** An async function body: it returns, throws, or awaits a Redis
    command and goes on with the reply ([None]: the promise was
    rejected). *)
Inductive prog (R : Type) : Type :=
| Ret (r : R)
| Throw
| Await {A : Type} (c : Redis.command A) (k : option A -> prog R).

Arguments Ret {R} r.
Arguments Throw {R}.
Arguments Await {R A} c k.

(** [const x = await c; k]: a rejected promise throws at the await. *)
Definition await {R A : Type} (c : Redis.command A) (k : A -> prog R) : prog R :=
  Await c (fun r => match r with Some a => k a | None => Throw end).

(** [try { p } catch { h }] *)
Fixpoint try_catch {R : Type} (p h : prog R) : prog R :=
  match p with
  | Ret r => Ret r
  | Throw => h
  | Await c k => Await c (fun r => try_catch (k r) h)
  end.

(** Sequential semantics: the handler runs to its end with no other
    client of Redis in between.  [None]: the exception escaped. *)
Fixpoint run {R : Type} (p : prog R) (s : Redis.state) : option R * Redis.state :=
  match p with
  | Ret r => (Some r, s)
  | Throw => (None, s)
  | Await c k => let '(r, s') := Redis.exec c s in run (k r) s'
  end.

(** Concurrent semantics: Redis serves one command at a time; the
    handlers in flight form a pool, and a schedule names, command by
    command, the handler whose next command is served.  A handler
    that has finished, or a name outside the pool, lets the turn pass. *)
Definition step {R : Type} (p : prog R) (s : Redis.state)
    : prog R * Redis.state * option Redis.event :=
  match p with
  | Await c k => let '(r, s') := Redis.exec c s in (k r, s', Redis.event_of c r)
  | _ => (p, s, None)
  end.

Record config (R : Type) : Type := {
  pool : list (prog R);
  store : Redis.state;
  log : list (nat * Redis.event)     (* who caused what, oldest first *)
}.
Arguments pool {R} _.
Arguments store {R} _.
Arguments log {R} _.

Definition turn {R : Type} (i : nat) (cf : config R) : config R :=
  match pool cf !! i with
  | Some p =>
      let '(p', s', ev) := step p (store cf) in
      {| pool := <[i := p']> (pool cf);
         store := s';
         log := log cf ++ match ev with Some ev => [(i, ev)] | None => [] end |}
  | None => cf
  end.

Definition interleave {R : Type} (schedule : list nat) (cf : config R) : config R :=
  foldl (fun cf i => turn i cf) cf schedule.

Definition start {R : Type} (threads : list (prog R)) (s : Redis.state) : config R :=
  {| pool := threads; store := s; log := [] |}.

End Async.

Notation "'let!' x ':=' 'await' c 'in' k" :=
  (Async.await c (fun x => k))
  (at level 10, x name, c at level 100, k at level 200,
   format "'[v' 'let!'  x  ':='  'await'  c  'in' '/' k ']'").
Notation "'do!' 'await' c 'in' k" :=
  (Async.await c (fun _ => k))
  (at level 10, c at level 100, k at level 200,
   format "'[v' 'do!'  'await'  c  'in' '/' k ']'").

(* ================================================================== *)
(** ** Requests and responses                                           *)
(* ================================================================== *)

Module Http.
Import JsNumber JsValue.

(** What a handler reads from outside the request: the process
    environment, the wall clock and the random UUID generator. *)
Record env : Type := {
  TEST_MODE : option string;     (* process.env.TEST_MODE *)
  Date_now : Z;                  (* Date.now() *)
  uuidv4 : string                (* uuidv4() *)
}.

Record request : Type := {
  params_id : string;                (* req.params.id *)
  x_test_now_ms : option string;     (* req.headers['x-test-now-ms'] *)
  host : option string;              (* req.get('host') *)
  content : value;                   (* req.body.content *)
  ttl_seconds : value;               (* req.body.ttl_seconds *)
  max_views : value                  (* req.body.max_views *)
}.

(** The page sent by GET /p/:id on success: the template is fixed, the
    page is given by what is interpolated into it. *)
Record page : Type := {
  title_id : option string;                  (* Paste ${req.params.id} *)
  pre : string;                              (* <pre>${...}</pre> *)
  views_shown : number;                      (* Views: ${newViews} *)
  of_max_views : nullable;                   (* / ${maxViews} *)
  expires_shown : option (option JsDate.locale_text)
    (* Expires: a date text or Never ([Some None]); no such line in
       part_000 ([None]) *)
}.

Inductive body : Type :=
| json_error (error : string)                           (* { error } *)
| json_created (id url : string)                        (* { id, url } *)
| json_paste (content : string) (remaining_views : nullable)
             (expires_at : option Z)  (* { content, remaining_views, expires_at } *)
| html (text : string)
| html_page (p : page).

Record response : Type := {
  status : Z;
  sent : body
}.

Definition handler : Type := env -> request -> Async.prog response.

(** The requests of the examples: a retrieval of an id, with or without
    the test clock header, and a creation with the three body fields. *)
Definition GET (id : string) (test_now : option string) : request :=
  {| params_id := id; x_test_now_ms := test_now; host := None;
     content := undefined; ttl_seconds := undefined; max_views := undefined |}.

Definition POST (c ttl mv : value) : request :=
  {| params_id := ""; x_test_now_ms := None; host := None;
     content := c; ttl_seconds := ttl; max_views := mv |}.

End Http.

(* ================================================================== *)
(** ** Helpers, the same in both files                                  *)
(* ================================================================== *)

Module Helpers.
Import JsNumber JsValue Http.

(** [now(req)] (server.js 47-52, part_000 35-40) *)
Definition now (e : env) (req : request) : number :=
  if bool_decide (TEST_MODE e = Some "1") && JsString.truthy (x_test_now_ms req)
  then Number (x_test_now_ms req)
  else Num (Date_now e).

Definition quot : ascii := "034"%char.
Definition apos : ascii := "039"%char.

(** The character class of the regular expression: ampersand,
    less-than, greater-than, double quote, apostrophe. *)
Definition special (c : ascii) : bool :=
  Ascii.eqb c "&" || Ascii.eqb c "<" || Ascii.eqb c ">" ||
  Ascii.eqb c quot || Ascii.eqb c apos.

(** The object literal that maps a character to its entity. *)
Definition entity (c : ascii) : option string :=
  if Ascii.eqb c "&" then Some "&amp;"
  else if Ascii.eqb c "<" then Some "&lt;"
  else if Ascii.eqb c ">" then Some "&gt;"
  else if Ascii.eqb c quot then Some "&quot;"
  else if Ascii.eqb c apos then Some "&#39;"
  else None.

(** [escapeHtml(str)] (server.js 54-62, part_000 42-50); a replacement
    that is [undefined] would be inserted as that word. *)
Definition escapeHtml (str : string) : string :=
  JsString.replace_class special (fun c => default "undefined" (entity c)) str.

(** How the Redis client sends an argument: a string as it is, a
    number by [toString()] (integers are the only numbers the handlers
    pass), which is the decimal numeral for an integer below 1e21 and
    takes an exponent from there on, where the embedding still writes
    the numeral; anything else is refused with a TypeError ([None]). *)
Definition redis_arg (v : value) : option string :=
  match v with
  | text s => Some s
  | numeric q => Some (toString (to_Z q))
  | _ => None
  end.

Definition redis_fields (obj : list (string * value)) : option (list (string * string)) :=
  mapM (fun '(f, v) => pair f <$> redis_arg v) obj.

(** [await redis.hSet(key, obj)] *)
Definition await_hSet {R : Type} (key : string) (obj : list (string * value))
    (k : Async.prog R) : Async.prog R :=
  match redis_fields obj with
  | Some fields => do! await Redis.hSet key fields in k
  | None => Async.Throw
  end.

(** The number held by a value known to be an integer. *)
Definition integer (v : value) : Z :=
  match v with
  | numeric q => to_Z q
  | _ => 0
  end.

(** The string held by a value known to be a string. *)
Definition string_of (v : value) : string :=
  match v with
  | text s => s
  | _ => EmptyString
  end.

Definition respond (st : Z) (b : body) : Async.prog response :=
  Async.Ret {| status := st; sent := b |}.

End Helpers.

(* ================================================================== *)
(** ** src/server.js                                                    *)
(* ================================================================== *)

Module Server.
Import JsNumber JsValue JsDate Http Helpers.

(** POST /api/pastes (lines 75-118) *)
Definition post_pastes : handler := fun e req =>
  Async.try_catch
    (let content := content req in
     let ttl_seconds := ttl_seconds req in
     let max_views := max_views req in
     if falsy content || negb (is_string content)
        || negb (JsString.truthy (Some (JsString.trim (string_of content))))
     then respond 400 (json_error "content must be a non-empty string")
     else if defined ttl_seconds && (negb (isInteger ttl_seconds) || lt_1 ttl_seconds)
     then respond 400 (json_error "ttl_seconds must be integer >= 1")
     else if defined max_views && (negb (isInteger max_views) || lt_1 max_views)
     then respond 400 (json_error "max_views must be integer >= 1")
     else
       let id := JsString.slice0 8 (uuidv4 e) in
       let key := "paste:" ++ id in
       let createdAt := Date_now e in
       await_hSet key
         [("content", text (JsString.trim (string_of content)));
          ("created_at", numeric (inject_Z createdAt));
          ("ttl_seconds", nullish_or ttl_seconds (text ""));
          ("max_views", nullish_or max_views (text ""));
          ("views", numeric (inject_Z 0))]
         (let rest :=
            let baseUrl :=
              if match host req with
                 | Some h => JsString.includes "localhost" h
                 | None => false
                 end
              then "http://localhost:3000"
              else "https://" ++ default "undefined" (host req) in
            respond 201 (json_created id (baseUrl ++ "/p/" ++ id)) in
          if negb (falsy ttl_seconds)
          then do! await Redis.expire key (integer ttl_seconds) in rest
          else rest))
    (respond 500 (json_error "Internal server error")).

(** GET /api/pastes/:id (lines 121-156) *)
Definition get_api_paste : handler := fun e req =>
  Async.try_catch
    (let key := "paste:" ++ params_id req in
     let! paste := await Redis.hGetAll key in
     match paste !! "content" with
     | None | Some EmptyString =>
         respond 404 (json_error "Paste not found")
     | Some paste_content =>
         let createdAt := Number (paste !! "created_at") in
         let ttl : nullable :=
           if JsString.truthy (paste !! "ttl_seconds")
           then Some (Number (paste !! "ttl_seconds")) else None in
         let maxViews : nullable :=
           if JsString.truthy (paste !! "max_views")
           then Some (Number (paste !! "max_views")) else None in
         let views := Number (paste !! "views") in
         let currentTime := now e req in
         if truthy ttl
            && ge currentTime (add createdAt (mul (of_nullable ttl) (Num 1000)))
         then
           do! await Redis.del key in
           respond 404 (json_error "Paste expired")
         else if truthy maxViews && ge views (of_nullable maxViews)
         then
           do! await Redis.del key in
           respond 404 (json_error "View limit exceeded")
         else
           let! newViews := await Redis.hIncrBy key "views" 1 in
           let remaining_views : nullable :=
             if truthy maxViews
             then Some (Math_max (sub (of_nullable maxViews) (Num newViews)) (Num 0))
             else None in
           if truthy ttl
           then
             match toISOString (Date (add createdAt (mul (of_nullable ttl) (Num 1000)))) with
             | Some iso => respond 200 (json_paste paste_content remaining_views (Some iso))
             | None => Async.Throw
             end
           else respond 200 (json_paste paste_content remaining_views None)
     end)
    (respond 500 (json_error "Internal server error")).

(** GET /p/:id (lines 159-209) *)
Definition get_p : handler := fun e req =>
  Async.try_catch
    (let key := "paste:" ++ params_id req in
     let! paste := await Redis.hGetAll key in
     match paste !! "content" with
     | None | Some EmptyString =>
         respond 404 (html "<h1>404 - Paste not found</h1>")
     | Some paste_content =>
         let createdAt := Number (paste !! "created_at") in
         let ttl : nullable :=
           if JsString.truthy (paste !! "ttl_seconds")
           then Some (Number (paste !! "ttl_seconds")) else None in
         let maxViews : nullable :=
           if JsString.truthy (paste !! "max_views")
           then Some (Number (paste !! "max_views")) else None in
         let views := Number (paste !! "views") in
         let currentTime := now e req in
         if truthy ttl
            && ge currentTime (add createdAt (mul (of_nullable ttl) (Num 1000)))
         then
           do! await Redis.del key in
           respond 404 (html "<h1>404 - Paste expired</h1>")
         else if truthy maxViews && ge views (of_nullable maxViews)
         then
           do! await Redis.del key in
           respond 404 (html "<h1>404 - View limit exceeded</h1>")
         else
           let! newViews := await Redis.hIncrBy key "views" 1 in
           respond 200 (html_page
             {| title_id := Some (params_id req);
                pre := escapeHtml paste_content;
                views_shown := Num newViews;
                of_max_views := if truthy maxViews then maxViews else None;
                expires_shown :=
                  Some (if truthy ttl
                        then Some (toLocaleString
                               (Date (add createdAt (mul (of_nullable ttl) (Num 1000)))))
                        else None) |})
     end)
    (respond 500 (html "<h1>Server error</h1>")).

End Server.

(* ================================================================== *)
(** ** src/unnamed/part_000                                             *)
(* ================================================================== *)

Module Part000.
Import JsNumber JsValue JsDate Http Helpers.

(** POST /api/pastes (lines 63-93): no try/catch, no EXPIRE. *)
Definition post_pastes : handler := fun e req =>
  let content := content req in
  let ttl_seconds := ttl_seconds req in
  let max_views := max_views req in
  if falsy content || negb (is_string content)
     || negb (JsString.truthy (Some (JsString.trim (string_of content))))
  then respond 400 (json_error "content required")
  else if defined ttl_seconds && (negb (isInteger ttl_seconds) || lt_1 ttl_seconds)
  then respond 400 (json_error "invalid ttl_seconds")
  else if defined max_views && (negb (isInteger max_views) || lt_1 max_views)
  then respond 400 (json_error "invalid max_views")
  else
    let id := JsString.slice0 8 (uuidv4 e) in
    let key := "paste:" ++ id in
    await_hSet key
      [("content", text (JsString.trim (string_of content)));
       ("created_at", numeric (inject_Z (Date_now e)));
       ("ttl_seconds", nullish_or ttl_seconds (text ""));
       ("max_views", nullish_or max_views (text ""));
       ("views", numeric (inject_Z 0))]
      (respond 201 (json_created id ("http://localhost:3000/p/" ++ id))).

(** GET /api/pastes/:id (lines 96-125): no try/catch, no DEL. *)
Definition get_api_paste : handler := fun e req =>
  let key := "paste:" ++ params_id req in
  let! p := await Redis.hGetAll key in
  match p !! "content" with
  | None | Some EmptyString =>
      respond 404 (json_error "Not found")
  | Some p_content =>
      let nowMs := now e req in
      let created := Number (p !! "created_at") in
      let ttl : nullable :=
        if JsString.truthy (p !! "ttl_seconds")
        then Some (Number (p !! "ttl_seconds")) else None in
      let maxViews : nullable :=
        if JsString.truthy (p !! "max_views")
        then Some (Number (p !! "max_views")) else None in
      let views := Number (p !! "views") in
      if truthy ttl
         && ge nowMs (add created (mul (of_nullable ttl) (Num 1000)))
      then respond 404 (json_error "Expired")
      else if truthy maxViews && ge views (of_nullable maxViews)
      then respond 404 (json_error "View limit exceeded")
      else
        let! newViews := await Redis.hIncrBy key "views" 1 in
        let remaining_views : nullable :=
          if truthy maxViews
          then Some (Math_max (sub (of_nullable maxViews) (Num newViews)) (Num 0))
          else None in
        if truthy ttl
        then
          match toISOString (Date (add created (mul (of_nullable ttl) (Num 1000)))) with
          | Some iso => respond 200 (json_paste p_content remaining_views (Some iso))
          | None => Async.Throw
          end
        else respond 200 (json_paste p_content remaining_views None)
  end.

(** GET /p/:id (lines 128-160) *)
Definition get_p : handler := fun e req =>
  let key := "paste:" ++ params_id req in
  let! p := await Redis.hGetAll key in
  match p !! "content" with
  | None | Some EmptyString =>
      respond 404 (html "<h1>404 - Paste not found</h1>")
  | Some p_content =>
      let nowMs := now e req in
      let created := Number (p !! "created_at") in
      let ttl : nullable :=
        if JsString.truthy (p !! "ttl_seconds")
        then Some (Number (p !! "ttl_seconds")) else None in
      let maxViews : nullable :=
        if JsString.truthy (p !! "max_views")
        then Some (Number (p !! "max_views")) else None in
      let views := Number (p !! "views") in
      if truthy ttl
         && ge nowMs (add created (mul (of_nullable ttl) (Num 1000)))
      then respond 404 (html "<h1>Expired</h1>")
      else if truthy maxViews && ge views (of_nullable maxViews)
      then respond 404 (html "<h1>View limit exceeded</h1>")
      else
        let! newViews := await Redis.hIncrBy key "views" 1 in
        respond 200 (html_page
          {| title_id := None;
             pre := escapeHtml p_content;
             views_shown := Num newViews;
             of_max_views := if truthy maxViews then maxViews else None;
             expires_shown := None |})
  end.

End Part000.

(* ================================================================== *)
(** ** The two files side by side                                       *)
(* ================================================================== *)

Inductive source : Type :=
| server_js
| part_000.

Definition post_pastes (src : source) : Http.handler :=
  match src with
  | server_js => Server.post_pastes
  | part_000 => Part000.post_pastes
  end.

Definition get_api_paste (src : source) : Http.handler :=
  match src with
  | server_js => Server.get_api_paste
  | part_000 => Part000.get_api_paste
  end.

Definition get_p (src : source) : Http.handler :=
  match src with
  | server_js => Server.get_p
  | part_000 => Part000.get_p
  end.

(** A request served with no other client of Redis in between. *)
Definition serve (h : Http.handler) (e : Http.env) (req : Http.request)
    (s : Redis.state) : option Http.response * Redis.state :=
  Async.run (h e req) s.

(** Requests served one after the other. *)
Fixpoint serve_all (h : Http.handler) (clients : list (Http.env * Http.request))
    (s : Redis.state) : list (option Http.response) * Redis.state :=
  match clients with
  | [] => ([], s)
  | (e, req) :: rest =>
      let '(r, s1) := serve h e req s in
      let '(rs, s2) := serve_all h rest s1 in
      (r :: rs, s2)
  end.

(* ================================================================== *)
(** ** What a retrieval decides                                         *)
(* ================================================================== *)

Module Reading.
Import JsNumber Http Helpers.

Inductive endpoint : Type :=
| api          (* GET /api/pastes/:id *)
| view.        (* GET /p/:id *)

Definition get (src : source) (ep : endpoint) : handler :=
  match ep with
  | api => get_api_paste src
  | view => get_p src
  end.

Definition key_of (id : string) : string := "paste:" ++ id.

(** The object [hGetAll] hands to the handler. *)
Definition record (s : Redis.state) (id : string) : Redis.hash :=
  default ∅ (Redis.hashes s !! key_of id).

(** The constants the handlers compute from that object. *)
Definition createdAt (h : Redis.hash) : number := Number (h !! "created_at").
Definition ttl (h : Redis.hash) : nullable :=
  if JsString.truthy (h !! "ttl_seconds") then Some (Number (h !! "ttl_seconds")) else None.
Definition maxViews (h : Redis.hash) : nullable :=
  if JsString.truthy (h !! "max_views") then Some (Number (h !! "max_views")) else None.
Definition views (h : Redis.hash) : number := Number (h !! "views").
Definition expiry (h : Redis.hash) : number :=
  add (createdAt h) (mul (of_nullable (ttl h)) (Num 1000)).

(** The two tests, and the verdict in the order the handlers test. *)
Definition expired (now : number) (h : Redis.hash) : bool :=
  truthy (ttl h) && ge now (expiry h).
Definition exhausted (h : Redis.hash) : bool :=
  truthy (maxViews h) && ge (views h) (of_nullable (maxViews h)).

Inductive verdict : Type :=
| Absent
| Expired
| Exhausted
| Available.

Definition judge (now : number) (h : Redis.hash) : verdict :=
  match h !! "content" with
  | None | Some EmptyString => Absent
  | Some _ =>
      if expired now h then Expired
      else if exhausted h then Exhausted
      else Available
  end.

(** Whether the file cleans up a paste it finds expired or exhausted. *)
Definition cleanup (src : source) (key : string) (s : Redis.state) : Redis.state :=
  match src with
  | server_js => snd (Redis.exec (Redis.del key) s)
  | part_000 => s
  end.

(** The 404 bodies, by file, endpoint and verdict. *)
Definition refusal (src : source) (ep : endpoint) (v : verdict) : body :=
  match ep, src, v with
  | api, server_js, Expired => json_error "Paste expired"
  | api, server_js, Exhausted => json_error "View limit exceeded"
  | api, server_js, _ => json_error "Paste not found"
  | api, part_000, Expired => json_error "Expired"
  | api, part_000, Exhausted => json_error "View limit exceeded"
  | api, part_000, _ => json_error "Not found"
  | view, server_js, Expired => html "<h1>404 - Paste expired</h1>"
  | view, server_js, Exhausted => html "<h1>404 - View limit exceeded</h1>"
  | view, part_000, Expired => html "<h1>Expired</h1>"
  | view, part_000, Exhausted => html "<h1>View limit exceeded</h1>"
  | view, _, _ => html "<h1>404 - Paste not found</h1>"
  end.

(** What becomes of an exception: the catch block of server.js
    answers 500, part_000 has none and the rejection escapes. *)
Definition thrown (src : source) (ep : endpoint) : option response :=
  match src, ep with
  | server_js, api => Some {| status := 500; sent := json_error "Internal server error" |}
  | server_js, view => Some {| status := 500; sent := html "<h1>Server error</h1>" |}
  | part_000, _ => None
  end.

Definition remaining (h : Redis.hash) (newViews : Z) : nullable :=
  if truthy (maxViews h)
  then Some (Math_max (sub (of_nullable (maxViews h)) (Num newViews)) (Num 0))
  else None.

(** The answer to an available paste once HINCRBY has replied. *)
Definition success (src : source) (ep : endpoint) (id : string)
    (h : Redis.hash) (newViews : Z) : option response :=
  match ep with
  | api =>
      if truthy (ttl h)
      then match JsDate.toISOString (JsDate.Date (expiry h)) with
           | Some iso =>
               Some {| status := 200;
                       sent := json_paste (default "" (h !! "content"))
                                 (remaining h newViews) (Some iso) |}
           | None => thrown src api
           end
      else Some {| status := 200;
                   sent := json_paste (default "" (h !! "content"))
                             (remaining h newViews) None |}
  | view =>
      Some {| status := 200;
              sent := html_page
                {| title_id := match src with
                               | server_js => Some id
                               | part_000 => None
                               end;
                   pre := escapeHtml (default "" (h !! "content"));
                   views_shown := Num newViews;
                   of_max_views := if truthy (maxViews h) then maxViews h else None;
                   expires_shown :=
                     match src with
                     | server_js =>
                         Some (if truthy (ttl h)
                               then Some (JsDate.toLocaleString (JsDate.Date (expiry h)))
                               else None)
                     | part_000 => None
                     end |} |}
  end.

(** A retrieval, as one function of the keyspace. *)
Definition retrieval (src : source) (ep : endpoint) (e : env) (req : request)
    (s : Redis.state) : option response * Redis.state :=
  let id := params_id req in
  let h := record s id in
  match judge (now e req) h with
  | Available =>
      match Redis.exec (Redis.hIncrBy (key_of id) "views" 1) s with
      | (Some newViews, s') => (success src ep id h newViews, s')
      | (None, s') => (thrown src ep, s')
      end
  | Absent => (Some {| status := 404; sent := refusal src ep Absent |}, s)
  | v => (Some {| status := 404; sent := refusal src ep v |}, cleanup src (key_of id) s)
  end.

End Reading.

(* ================================================================== *)
(** ** The lifecycle policy, in the words of the specification          *)
(* ================================================================== *)

Module Policy.
Import JsNumber.

(** The paste record of the data model. *)
Record paste : Type := {
  content : string;
  created_at : Z;              (* epoch milliseconds *)
  ttl_seconds : option Z;      (* absent: never expires by time *)
  max_views : option Z;        (* absent: unlimited views *)
  views : Z
}.

Definition well_formed (p : paste) : Prop :=
  content p <> EmptyString /\
  (forall T, ttl_seconds p = Some T -> 1 <= T) /\
  (forall M, max_views p = Some M -> 1 <= M).

Inductive status : Type :=
| Available
| Expired
| Exhausted.

(** Expired: [ttl_seconds] present and [now >= created_at + ttl_seconds*1000]. *)
Definition expired (p : paste) (now : Z) : bool :=
  match ttl_seconds p with
  | Some T => created_at p + T * 1000 <=? now
  | None => false
  end.

(** Exhausted: [max_views] present and [views >= max_views]. *)
Definition exhausted (p : paste) : bool :=
  match max_views p with
  | Some M => M <=? views p
  | None => false
  end.

(** Time check first, then view check. *)
Definition state (p : paste) (now : Z) : status :=
  if expired p now then Expired
  else if exhausted p then Exhausted
  else Available.

(** [remaining = max(max_views - newViews, 0)], when [max_views] is set. *)
Definition remaining (p : paste) (newViews : Z) : option Z :=
  (fun M => Z.max (M - newViews) 0) <$> max_views p.

(** The expiry timestamp reported to callers. *)
Definition expires_at (p : paste) : option Z :=
  (fun T => created_at p + T * 1000) <$> ttl_seconds p.

(** The record after one more successful read. *)
Definition viewed (p : paste) : paste :=
  {| content := content p; created_at := created_at p;
     ttl_seconds := ttl_seconds p; max_views := max_views p;
     views := views p + 1 |}.

(** The persisted layout: an integer as its decimal numeral, an absent
    limit as the empty string. *)
Definition limit_field (o : option Z) : string :=
  match o with
  | Some z => toString z
  | None => EmptyString
  end.

(** The hash [h] is the record [p] in that layout. *)
Definition stores (h : Redis.hash) (p : paste) : Prop :=
  h !! "content" = Some (content p) /\
  h !! "created_at" = Some (toString (created_at p)) /\
  h !! "ttl_seconds" = Some (limit_field (ttl_seconds p)) /\
  h !! "max_views" = Some (limit_field (max_views p)) /\
  h !! "views" = Some (toString (views p)).

End Policy.

(* ================================================================== *)
(** ** Vocabulary of the statements                                   *)
(* ================================================================== *)

Section Vocabulary.
Import JsString JsNumber JsValue Http Helpers Reading.

(** *** Numerals *)

(** The characters of a decimal numeral: the sign and the ten digits. *)
Definition numeral_char (c : ascii) : bool :=
  Ascii.eqb c "-" ||
  ((48 <=? nat_of_ascii c)%nat && (nat_of_ascii c <=? 57)%nat).

(** *** Policy and handlers *)

(** The verdict of the handlers that stands for a state of the policy. *)
Definition of_status (st : Policy.status) : verdict :=
  match st with
  | Policy.Available => Available
  | Policy.Expired => Expired
  | Policy.Exhausted => Exhausted
  end.

(** *** Creation requests *)

(** A limit of the request body: absent, or an integer at least 1. *)
Inductive limit : value -> option Z -> Prop :=
| limit_absent : limit undefined None
| limit_integer q z : Qeq q (inject_Z z) -> 1 <= z -> limit (numeric q) (Some z).

(** Present, but not an integer at least 1. *)
Definition bad_limit (v : value) : Prop :=
  v <> undefined /\
  forall q, v = numeric q -> forall z, Qeq q (inject_Z z) -> z < 1.

(** Missing, not a string, empty, or only white space. *)
Definition bad_content (v : value) : Prop :=
  forall c, v = text c -> trim c = EmptyString.

(** The test the handlers apply to a limit. *)
Definition rejects_limit (v : value) : bool :=
  defined v && (negb (isInteger v) || lt_1 v).

(** The test the handlers apply to the content. *)
Definition rejects_content (v : value) : bool :=
  falsy v || negb (is_string v) || negb (JsString.truthy (Some (trim (string_of v)))).

(** The record a valid request creates. *)
Definition created (e : env) (c : string) (T M : option Z) : Policy.paste :=
  {| Policy.content := trim c; Policy.created_at := Date_now e;
     Policy.ttl_seconds := T; Policy.max_views := M; Policy.views := 0 |}.

(** The id it is created under. *)
Definition new_id (e : env) : string := slice0 8 (uuidv4 e).

(** *** Retrievals *)

(** The keyspace after one more view of the paste under [id]. *)
Definition bump (s : Redis.state) (id : string) (newViews : Z) : Redis.state :=
  {| Redis.hashes :=
       <[key_of id := <["views" := toString newViews]> (record s id)]> (Redis.hashes s);
     Redis.expires := Redis.expires s |}.

(** What a retrieval of the stored paste [p] comes to, by its state. *)
Definition outcome (src : source) (req : request) (s : Redis.state) (p : Policy.paste)
    (ep : endpoint) (st : Policy.status) : option response * Redis.state :=
  match st with
  | Policy.Available =>
      (success src ep (params_id req) (record s (params_id req)) (Policy.views p + 1),
       bump s (params_id req) (Policy.views p + 1))
  | Policy.Expired =>
      (Some {| status := 404; sent := refusal src ep Expired |},
       cleanup src (key_of (params_id req)) s)
  | Policy.Exhausted =>
      (Some {| status := 404; sent := refusal src ep Exhausted |},
       cleanup src (key_of (params_id req)) s)
  end.

(** *** Sample environments and requests *)

(** The clock of a deployment on 2 November 2026, and a UUID the
    generator may return. *)
Definition production : env :=
  {| TEST_MODE := None; Date_now := 1793592000000;
     uuidv4 := "3f2504e0-4f89-41d3-9a0c-0305e82c3301" |}.

(** The same process started with TEST_MODE=1. *)
Definition testing : env :=
  {| TEST_MODE := Some "1"; Date_now := 1793592000000;
     uuidv4 := "3f2504e0-4f89-41d3-9a0c-0305e82c3301" |}.

(** A paste with a hundred million days to live. *)
Definition long_lived : request :=
  POST (text "hello") (numeric (inject_Z 8640000000000)) undefined.

(** The keyspace once it is created. *)
Definition after_long_lived (src : source) : Redis.state :=
  snd (serve (post_pastes src) testing long_lived Redis.empty).

(** The JSON answer to a view that leaves [left] views. *)
Definition counted (c : string) (left : Z) (expires : option Z) : option response :=
  Some {| status := 200; sent := json_paste c (Some (Num left)) expires |}.

(** A client whose clock reads a time before the expiry of a paste
    created in [e] with the time to live [T]; without a time to live
    any client will do, whatever its clock. *)
Definition in_time (e : env) (T : option Z) (cl : env * request) : Prop :=
  match T with
  | Some Tz => exists t, now cl.1 cl.2 = Num t /\ t < Date_now e + Tz * 1000
  | None => True
  end.

(** A paste with two seconds to live. *)
Definition short_lived : request :=
  POST (text "hello") (numeric (inject_Z 2)) undefined.

(** *** The view counter *)

(** The counter as Redis reads it: a missing field counts from 0. *)
Definition counter (h : Redis.hash) : option Z :=
  match h !! "views" with
  | Some v => Redis.integer_value v
  | None => Some 0
  end.

(** Every field but the counter is as it was. *)
Definition others_kept (h h' : Redis.hash) : Prop :=
  forall f, f <> "views" -> h' !! f = h !! f.

(** *** Escaping *)

(** The entity of a character, in the words of the specification:
    the five characters have one, any other character is left alone. *)
Definition escaped (c : ascii) : string :=
  if Ascii.eqb c "&" then "&amp;"
  else if Ascii.eqb c "<" then "&lt;"
  else if Ascii.eqb c ">" then "&gt;"
  else if Ascii.eqb c quot then "&quot;"
  else if Ascii.eqb c apos then "&#39;"
  else String c EmptyString.

(** A string escaped character by character. *)
Fixpoint escape_each (str : string) : string :=
  match str with
  | EmptyString => EmptyString
  | String c rest => escaped c ++ escape_each rest
  end.

(** Not one of the characters that open or close a tag or an
    attribute value. *)
Definition harmless (c : ascii) : bool :=
  negb (Ascii.eqb c "<" || Ascii.eqb c ">" || Ascii.eqb c quot || Ascii.eqb c apos).

(** *** Identifiers *)

(** A lower-case hexadecimal digit. *)
Definition hex_digit (c : ascii) : bool :=
  let n := nat_of_ascii c in
  ((48 <=? n)%nat && (n <=? 57)%nat) || ((97 <=? n)%nat && (n <=? 102)%nat).

(** A string that has one character for each test of the pattern, in
    order, and passes them all. *)
Fixpoint matches (pattern : list (ascii -> bool)) (str : string) : bool :=
  match pattern, str with
  | [], EmptyString => true
  | P :: pattern', String c str' => P c && matches pattern' str'
  | _, _ => false
  end.

Definition is_char (a : ascii) : ascii -> bool := Ascii.eqb a.

(** The canonical text of a version 4 UUID, which [uuidv4()] returns:
    8-4-4-4-12 lower-case hexadecimal digits, the third group starting
    with 4 and the fourth with 8, 9, a or b. *)
Definition uuid_v4_text : string -> bool :=
  matches (repeat hex_digit 8 ++ [is_char "-"]
           ++ repeat hex_digit 4 ++ [is_char "-"]
           ++ [is_char "4"] ++ repeat hex_digit 3 ++ [is_char "-"]
           ++ [fun c => is_char "8" c || is_char "9" c || is_char "a" c || is_char "b" c]
           ++ repeat hex_digit 3 ++ [is_char "-"]
           ++ repeat hex_digit 12).

(** *** Handlers in flight *)

(** The positions granted on a key, in the order Redis granted them. *)
Definition granted (key : string) (log : list (nat * Redis.event)) : list Z :=
  omap (fun entry =>
          match entry.2 with
          | Redis.Granted k v => if String.eqb k key then Some v else None
          | Redis.Rewritten _ => None
          end) log.

(** The positions granted on a key since its hash was last rewritten. *)
Definition since_rewrite (key : string) (log : list (nat * Redis.event)) : list Z :=
  foldl (fun acc entry =>
           match entry.2 with
           | Redis.Granted k v => if String.eqb k key then (acc ++ [v])%list else acc
           | Redis.Rewritten k => if String.eqb k key then [] else acc
           end) [] log.

(** The counter Redis holds for a key. *)
Definition counter_at (s : Redis.state) (key : string) : option Z :=
  match default ∅ (Redis.hashes s !! key) !! "views" with
  | Some v => Redis.integer_value v
  | None => Some 0
  end.

(** Commands that write. *)
Definition writes {A : Type} (c : Redis.command A) : bool :=
  match c with
  | Redis.hGetAll _ | Redis.expire _ _ => false
  | _ => true
  end.

(** Commands that rewrite a hash other than by granting a position. *)
Definition rewrites {A : Type} (c : Redis.command A) : bool :=
  match c with
  | Redis.hSet _ _ | Redis.del _ => true
  | Redis.hIncrBy _ field n => negb (String.eqb field "views" && (n =? 1))
  | _ => false
  end.

(** A program that issues at most [n] writing commands. *)
Fixpoint within {R : Type} (n : nat) (p : Async.prog R) : Prop :=
  match p with
  | Async.Await c k =>
      if writes c
      then match n with
           | O => False
           | S n' => forall r, within n' (k r)
           end
      else forall r, within n (k r)
  | _ => True
  end.

(** A program that never rewrites a hash. *)
Fixpoint quiet {R : Type} (p : Async.prog R) : Prop :=
  match p with
  | Async.Await c k => rewrites c = false /\ forall r, quiet (k r)
  | _ => True
  end.

(** An entry of the log that grants a position. *)
Definition is_grant (entry : nat * Redis.event) : Prop :=
  match entry.2 with
  | Redis.Granted _ _ => True
  | Redis.Rewritten _ => False
  end.

(** The positions granted since the last rewrite climb, and the last of
    them is the counter Redis holds. *)
Definition climbing {R : Type} (key : string) (cf : Async.config R) : Prop :=
  StronglySorted Z.lt (since_rewrite key (Async.log cf)) /\
  (since_rewrite key (Async.log cf) <> [] ->
   exists n, counter_at (Async.store cf) key = Some n /\
             Forall (fun x => x <= n) (since_rewrite key (Async.log cf))).

(** The sum of the budgets. *)
Fixpoint total (bs : list nat) : nat :=
  match bs with
  | [] => O
  | b :: bs' => (b + total bs')%nat
  end.

(** A budget of writing commands for each handler in flight, of which
    every entry of the log has used one. *)
Definition budgeted {R : Type} (N : nat) (cf : Async.config R) : Prop :=
  exists bs : list nat,
    Forall2 within bs (Async.pool cf) /\
    (length (Async.log cf) + total bs <= N)%nat.

(** No handler in flight rewrites a hash, and none has. *)
Definition hushed {R : Type} (cf : Async.config R) : Prop :=
  Forall quiet (Async.pool cf) /\ Forall is_grant (Async.log cf).

End Vocabulary.

(* ================================================================== *)
(** ** src/server.js: the reconnect strategy of the Redis client        *)
(* ================================================================== *)

Module ServerSetup.

(** [reconnectStrategy: retries => Math.min(retries * 100, 3000)]
    (line 27): the milliseconds to wait before the client reconnects,
    given the number of retries made so far. *)
Definition reconnectStrategy (retries : Z) : Z := Z.min (retries * 100) 3000.

End ServerSetup.

(* ================================================================== *)
(** ** Vocabulary of the further properties                             *)
(* ================================================================== *)

Section MoreVocabulary.
Import JsString JsNumber JsValue Http Helpers Reading.

(** *** Reconnecting *)

(** The time spent waiting by a client that has reconnected
    [attempts] times in a row, the retries counted from 0. *)
Fixpoint waited (attempts : nat) : Z :=
  match attempts with
  | O => 0
  | S n => waited n + ServerSetup.reconnectStrategy (Z.of_nat n)
  end.

(** *** The range of exact numbers *)

(** [Number.MAX_SAFE_INTEGER], 2^53 - 1.  The numbers of the handlers
    are doubles; the numbers of the embedding are integers.  Up to
    this bound every integer is a double, the sums, products and
    differences the handlers compute are exact, [toString] is the
    decimal numeral, and Redis accepts the numeral as a count of
    seconds.  The properties below that depend on the value of a sum or
    on a stored numeral are stated within this range. *)
Definition MAX_SAFE_INTEGER : Z := 9007199254740991.

(** A creation within that range: the wall clock reads a time after
    the epoch, the expiry and the view limit are safe integers. *)
Definition modest (e : env) (T M : option Z) : Prop :=
  0 <= Date_now e <= MAX_SAFE_INTEGER /\
  (forall Tz, T = Some Tz -> Date_now e + Tz * 1000 <= MAX_SAFE_INTEGER) /\
  (forall Mz, M = Some Mz -> Mz <= MAX_SAFE_INTEGER).

(** A stored paste within that range. *)
Definition modest_paste (p : Policy.paste) : Prop :=
  0 <= Policy.created_at p <= MAX_SAFE_INTEGER /\
  0 <= Policy.views p <= MAX_SAFE_INTEGER /\
  (forall T, Policy.ttl_seconds p = Some T ->
             Policy.created_at p + T * 1000 <= MAX_SAFE_INTEGER) /\
  (forall M, Policy.max_views p = Some M -> M <= MAX_SAFE_INTEGER).

(** A letter that occurs in no numeric literal of JavaScript: no
    hexadecimal digit, not the x, o or b of a radix prefix, not the e of
    an exponent, no letter of Infinity. *)
Definition foreign_letter (c : ascii) : bool :=
  (((65 <=? nat_of_ascii c)%nat && (nat_of_ascii c <=? 90)%nat)
   || ((97 <=? nat_of_ascii c)%nat && (nat_of_ascii c <=? 122)%nat))
  && negb (existsb (Ascii.eqb c) (list_ascii_of_string "abcdefABCDEFxXoObBInity")).

(** A text that holds such a letter, which [Number] reads as [NaN]. *)
Definition not_numeric (str : string) : bool :=
  existsb foreign_letter (list_ascii_of_string str).

(** *** Requests *)

(** The request with another x-test-now-ms header, or with none. *)
Definition with_header (req : request) (hdr : option string) : request :=
  {| params_id := params_id req; x_test_now_ms := hdr; host := host req;
     content := content req; ttl_seconds := ttl_seconds req;
     max_views := max_views req |}.

(** A creation request with the Host header [h]. *)
Definition from_host (req : request) (h : option string) : request :=
  {| params_id := params_id req; x_test_now_ms := x_test_now_ms req; host := h;
     content := content req; ttl_seconds := ttl_seconds req;
     max_views := max_views req |}.

(** *** Unescaping *)

(** The character an entity stands for, read after its ampersand, with
    the number of characters the entity takes after the ampersand. *)
Definition entity_at (rest : string) : option (ascii * nat) :=
  if String.prefix "amp;" rest then Some ("&"%char, 4%nat)
  else if String.prefix "lt;" rest then Some ("<"%char, 3%nat)
  else if String.prefix "gt;" rest then Some (">"%char, 3%nat)
  else if String.prefix "quot;" rest then Some (quot, 5%nat)
  else if String.prefix "#39;" rest then Some (apos, 4%nat)
  else None.

(** The reader of escaped text: an entity gives its character, any
    other character itself; [skip] characters of an entity already read
    are passed over. *)
Fixpoint unescape_from (skip : nat) (str : string) : string :=
  match str with
  | EmptyString => EmptyString
  | String c rest =>
      match skip with
      | S k => unescape_from k rest
      | O =>
          if Ascii.eqb c "&"
          then match entity_at rest with
               | Some (ch, n) => String ch (unescape_from n rest)
               | None => String c (unescape_from O rest)
               end
          else String c (unescape_from O rest)
      end
  end.

Definition unescapeHtml (str : string) : string := unescape_from O str.

(** Free of the five characters [escapeHtml] replaces. *)
Definition plain (str : string) : bool :=
  all_chars (fun c => negb (special c)) str.

(** *** Histories *)

(** A request to the server: a creation or a retrieval by one of the
    two endpoints. *)
Inductive call : Type :=
| Create (e : env) (req : request)
| Retrieve (ep : endpoint) (e : env) (req : request).

Definition perform (src : source) (c : call) (s : Redis.state)
    : option response * Redis.state :=
  match c with
  | Create e req => serve (post_pastes src) e req s
  | Retrieve ep e req => serve (get src ep) e req s
  end.

(** The keyspace after the calls, served one after the other. *)
Definition history (src : source) (calls : list call) (s : Redis.state) : Redis.state :=
  foldl (fun s c => snd (perform src c s)) s calls.

(** The answers to the calls, in order. *)
Fixpoint answers (src : source) (calls : list call) (s : Redis.state)
    : list (option response) :=
  match calls with
  | [] => []
  | c :: rest => fst (perform src c s) :: answers src rest (snd (perform src c s))
  end.

(** A call whose creation, if it is one and is valid, lies within the
    range of exact numbers. *)
Definition modest_call (c : call) : Prop :=
  match c with
  | Create e req =>
      forall T M, limit (ttl_seconds req) T -> limit (max_views req) M -> modest e T M
  | Retrieve _ _ _ => True
  end.

(** Every hash of the keyspace is a well-formed paste record whose
    counter lies between 0 and its limit. *)
Definition sound (s : Redis.state) : Prop :=
  forall k h,
    Redis.hashes s !! k = Some h ->
    exists p,
      Policy.stores h p /\ Policy.well_formed p /\ 0 <= Policy.views p /\
      (forall M, Policy.max_views p = Some M -> Policy.views p <= M).

(** The number of retrievals of [id] among the calls that are
    answered 200. *)
Fixpoint served (src : source) (id : string) (calls : list call) (s : Redis.state) : Z :=
  match calls with
  | [] => 0
  | c :: rest =>
      match c, fst (perform src c s) with
      | Retrieve _ _ req, Some r =>
          if String.eqb (params_id req) id && (status r =? 200) then 1 else 0
      | _, _ => 0
      end + served src id rest (snd (perform src c s))
  end.

(** A call that does not create a paste under [id]. *)
Definition spares (id : string) (c : call) : Prop :=
  match c with
  | Create e _ => new_id e <> id
  | Retrieve _ _ _ => True
  end.

(** *** Round trips *)

(** The number of Redis commands a handler issues when it runs. *)
Fixpoint commands {R : Type} (p : Async.prog R) (s : Redis.state) : nat :=
  match p with
  | Async.Await c k => let '(r, s') := Redis.exec c s in S (commands (k r) s')
  | _ => O
  end.

(** *** A handler between two commands *)

(** What is left of a handler after its next command was served in [s]. *)
Definition residual {R : Type} (p : Async.prog R) (s : Redis.state) : Async.prog R :=
  (Async.step p s).1.1.

(** The record [h] under [key] as it stands in [cf]: every field but
    the counter is as in [h], and the counter has moved on by one for
    each position granted on the key; a counter that is no number has
    not moved at all. *)
Definition kept_and_counted {R : Type} (key : string) (h : Redis.hash)
    (cf : Async.config R) : Prop :=
  exists h',
    Redis.hashes (Async.store cf) !! key = Some h' /\ others_kept h h' /\
    match counter h with
    | Some n => counter h' = Some (n + Z.of_nat (length (granted key (Async.log cf))))
    | None => h' = h /\ granted key (Async.log cf) = []
    end.

(** A handler that has answered, or thrown. *)
Definition finished (o : option response) : Async.prog response :=
  match o with
  | Some r => Async.Ret r
  | None => Async.Throw
  end.

End MoreVocabulary.

(* ================================================================== *)
(** * Part II: properties                                               *)
(* ================================================================== *)

(** ** Decimal numerals survive the trip through Redis *)

Section Numerals.
Import JsString JsNumber.

Lemma numeral_char_not_space c : numeral_char c = true -> is_white_space c = false.
Proof.
  unfold numeral_char, is_white_space.
  destruct (Ascii.eqb_spec c "-") as [-> | _]; [reflexivity |].
  cbn [orb]. intros H. apply andb_true_iff in H as [H1 H2].
  apply Nat.leb_le in H1, H2.
  repeat match goal with
         | |- context [(?a <=? ?b)%nat] => destruct (Nat.leb_spec a b)
         | |- context [(?a =? ?b)%nat] => destruct (Nat.eqb_spec a b)
         end; cbn; try reflexivity; lia.
Qed.

Lemma numeral_char_not_plus c : numeral_char c = true -> c <> "+"%char.
Proof. intros H ->. discriminate H. Qed.

Lemma string_of_uint_chars d :
  all_chars numeral_char (NilEmpty.string_of_uint d) = true.
Proof. induction d; cbn; auto. Qed.

Lemma toString_chars z : all_chars numeral_char (toString z) = true.
Proof.
  assert (forall d, all_chars numeral_char (NilZero.string_of_uint d) = true) as H.
  { intros d. destruct d; try apply (string_of_uint_chars (_ _)). reflexivity. }
  unfold toString, NilZero.string_of_int.
  destruct (Z.to_int z) as [d | d]; [apply H |].
  change (numeral_char "-" && all_chars numeral_char (NilZero.string_of_uint d) = true).
  now rewrite H.
Qed.

Lemma toString_nonempty z : toString z <> EmptyString.
Proof.
  unfold toString, NilZero.string_of_int, NilZero.string_of_uint.
  destruct (Z.to_int z) as [d | d]; destruct d; discriminate.
Qed.

Lemma trimEnd_no_space s :
  all_chars (fun c => negb (is_white_space c)) s = true -> trimEnd s = s.
Proof.
  induction s as [| c s IH]; [reflexivity |].
  cbn. intros H. apply andb_true_iff in H as [Hc Hs].
  rewrite (IH Hs). destruct s; [| reflexivity].
  apply negb_true_iff in Hc. now rewrite Hc.
Qed.

Lemma trim_no_space s :
  all_chars (fun c => negb (is_white_space c)) s = true -> trim s = s.
Proof.
  intros H. unfold trim.
  assert (trimStart s = s) as ->; [| now apply trimEnd_no_space].
  destruct s as [| c s]; [reflexivity |].
  cbn in *. apply andb_true_iff in H as [Hc _].
  apply negb_true_iff in Hc. now rewrite Hc.
Qed.

Lemma all_chars_impl (P Q : ascii -> bool) s :
  (forall c, P c = true -> Q c = true) ->
  all_chars P s = true -> all_chars Q s = true.
Proof.
  intros HPQ. induction s as [| c s IH]; [reflexivity |].
  cbn. intros H. apply andb_true_iff in H as [Hc Hs].
  rewrite (HPQ _ Hc). now apply IH.
Qed.

Lemma trim_toString z : trim (toString z) = toString z.
Proof.
  apply trim_no_space, (all_chars_impl numeral_char); [| apply toString_chars].
  intros c Hc. now rewrite (numeral_char_not_space c Hc).
Qed.

Lemma int_of_string_toString z :
  NilZero.int_of_string (toString z) = Some (Z.to_int z).
Proof.
  unfold toString. apply NilZero.isi.
  - destruct z; cbn; try discriminate.
    intros [= H]. now apply DecimalPos.Unsigned.to_uint_nonnil in H.
  - destruct z; cbn; try discriminate.
    intros [= H]. now apply DecimalPos.Unsigned.to_uint_nonnil in H.
Qed.

Lemma parse_integer_toString z : parse_integer (toString z) = Some z.
Proof.
  unfold parse_integer.
  assert (Z.of_int <$> NilZero.int_of_string (toString z) = Some z) as Hz.
  { rewrite int_of_string_toString. cbn. f_equal. apply DecimalZ.of_to. }
  pose proof (toString_chars z) as Hc.
  destruct (toString z) as [| c t]; [exact Hz |].
  cbn in Hc. apply andb_true_iff in Hc as [Hc _].
  apply numeral_char_not_plus in Hc.
  destruct c as [[] [] [] [] [] [] [] []]; try exact Hz. now destruct Hc.
Qed.

(** Reading back a number that was written: [Number(String(z)) = z]. *)
Lemma Number_toString z : Number (Some (toString z)) = Num z.
Proof.
  unfold Number. rewrite trim_toString.
  pose proof (toString_nonempty z) as Hne.
  pose proof (parse_integer_toString z) as Hp.
  destruct (toString z); [now destruct Hne | now rewrite Hp].
Qed.

Lemma truthy_toString z : JsString.truthy (Some (toString z)) = true.
Proof. pose proof (toString_nonempty z). now destruct (toString z). Qed.

(** Redis reads every number the server wrote. *)
Lemma integer_value_toString z : Redis.integer_value (toString z) = Some z.
Proof.
  unfold Redis.integer_value.
  rewrite int_of_string_toString, DecimalZ.of_to.
  now rewrite (proj2 (String.eqb_eq _ _) eq_refl).
Qed.

Lemma integer_value_canonical s z :
  Redis.integer_value s = Some z -> s = toString z.
Proof.
  unfold Redis.integer_value.
  destruct (NilZero.int_of_string s) as [d |]; [| discriminate].
  destruct (String.eqb_spec (toString (Z.of_int d)) s) as [H | _]; [| discriminate].
  now intros [= <-].
Qed.

End Numerals.

(** ** Running a handler *)

Section Running.
Import JsNumber Http Helpers Reading.

Lemma run_await {R A : Type} (c : Redis.command A) (k : A -> Async.prog R) s :
  Async.run (Async.await c k) s =
  match Redis.exec c s with
  | (Some a, s') => Async.run (k a) s'
  | (None, s') => (None, s')
  end.
Proof. cbn. now destruct (Redis.exec c s) as [[a |] s']. Qed.

Lemma run_try_catch {R : Type} (p h : Async.prog R) s :
  Async.run (Async.try_catch p h) s =
  match Async.run p s with
  | (Some r, s') => (Some r, s')
  | (None, s') => Async.run h s'
  end.
Proof.
  revert s. induction p as [r | | A c k IH]; intros s; cbn; try reflexivity.
  destruct (Redis.exec c s) as [a s']. apply IH.
Qed.

Lemma exec_hGetAll key s :
  Redis.exec (Redis.hGetAll key) s = (Some (default ∅ (Redis.hashes s !! key)), s).
Proof. reflexivity. Qed.

Lemma exec_del key s :
  Redis.exec (Redis.del key) s =
  (Some tt, {| Redis.hashes := delete key (Redis.hashes s);
               Redis.expires := delete key (Redis.expires s) |}).
Proof. reflexivity. Qed.

End Running.

Ltac step_handler :=
  repeat first
    [ rewrite run_try_catch
    | rewrite run_await
    | rewrite exec_hGetAll
    | rewrite exec_del ].

Section Serving.
Import JsNumber Http Helpers Reading.

(** Each of the four handlers computes [retrieval]. *)
Lemma serve_get src ep e req s :
  serve (get src ep) e req s = retrieval src ep e req s.
Proof.
  unfold retrieval, judge, serve.
  change (record s (params_id req))
    with (default ∅ (Redis.hashes s !! ("paste:" ++ params_id req))).
  destruct src, ep;
    unfold get, get_api_paste, get_p, Server.get_api_paste, Server.get_p,
      Part000.get_api_paste, Part000.get_p;
    step_handler;
    set (h := default ∅ (Redis.hashes s !! ("paste:" ++ params_id req)));
    (destruct (h !! "content") as [[| c0 c] |] eqn:Hc; [reflexivity | | reflexivity]);
    fold (ttl h); fold (maxViews h); fold (createdAt h); fold (views h);
    fold (expiry h); fold (expired (now e req) h); fold (exhausted h);
    (destruct (expired (now e req) h); [step_handler; reflexivity |]);
    (destruct (exhausted h); [step_handler; reflexivity |]);
    step_handler; fold (key_of (params_id req));
    (destruct (Redis.exec (Redis.hIncrBy (key_of (params_id req)) "views" 1) s)
       as [[newViews |] s']; [| reflexivity]);
    unfold success, remaining; rewrite Hc; cbn [default];
    destruct (truthy (ttl h)); try reflexivity;
    destruct (JsDate.toISOString (JsDate.Date (expiry h))); reflexivity.
Qed.

End Serving.


(** ** The handlers implement the policy *)

Section Refinement.
Import JsNumber Http Helpers Reading.

Variables (h : Redis.hash) (p : Policy.paste).
Hypothesis Hst : Policy.stores h p.
Hypothesis Hwf : Policy.well_formed p.

Lemma stored_createdAt : createdAt h = Num (Policy.created_at p).
Proof.
  destruct Hst as (_ & Hc & _). unfold createdAt. rewrite Hc.
  apply Number_toString.
Qed.

Lemma stored_views : views h = Num (Policy.views p).
Proof.
  destruct Hst as (_ & _ & _ & _ & Hv). unfold views. rewrite Hv.
  apply Number_toString.
Qed.

Lemma stored_ttl : ttl h = Num <$> Policy.ttl_seconds p.
Proof.
  destruct Hst as (_ & _ & Ht & _). unfold ttl. rewrite Ht.
  destruct (Policy.ttl_seconds p) as [T |]; cbn [Policy.limit_field]; [| reflexivity].
  now rewrite truthy_toString, Number_toString.
Qed.

Lemma stored_maxViews : maxViews h = Num <$> Policy.max_views p.
Proof.
  destruct Hst as (_ & _ & _ & Hm & _). unfold maxViews. rewrite Hm.
  destruct (Policy.max_views p) as [M |]; cbn [Policy.limit_field]; [| reflexivity].
  now rewrite truthy_toString, Number_toString.
Qed.

Lemma truthy_limit (o : option Z) :
  (forall z, o = Some z -> 1 <= z) -> truthy (Num <$> o) = bool_decide (is_Some o).
Proof.
  intros Hz. destruct o as [z |]; cbn; [| reflexivity].
  specialize (Hz z eq_refl). destruct (Z.eqb_spec z 0); [lia | reflexivity].
Qed.

Lemma stored_expired now : expired (Num now) h = Policy.expired p now.
Proof.
  destruct Hwf as (_ & HT & _).
  unfold expired, expiry, Policy.expired.
  rewrite stored_ttl, stored_createdAt, truthy_limit by assumption.
  now destruct (Policy.ttl_seconds p).
Qed.

Lemma stored_exhausted : exhausted h = Policy.exhausted p.
Proof.
  destruct Hwf as (_ & _ & HM).
  unfold exhausted, Policy.exhausted.
  rewrite stored_maxViews, stored_views, truthy_limit by assumption.
  now destruct (Policy.max_views p).
Qed.

(** The verdict of the handlers is the state of the policy. *)
Lemma judge_policy now :
  judge (Num now) h = of_status (Policy.state p now).
Proof.
  unfold judge, Policy.state.
  destruct Hst as (Hc & _), Hwf as (Hne & _). rewrite Hc.
  rewrite stored_expired, stored_exhausted.
  destruct (Policy.content p); [now destruct Hne |].
  now destruct (Policy.expired p now), (Policy.exhausted p).
Qed.

(** Without a time to live the clock plays no part, whatever it reads. *)
Lemma judge_no_ttl now :
  Policy.ttl_seconds p = None ->
  judge now h = of_status (Policy.state p 0).
Proof.
  intros HT. unfold judge, Policy.state, expired, Policy.expired.
  destruct Hst as (Hc & _), Hwf as (Hne & _). rewrite Hc.
  rewrite stored_ttl, stored_exhausted, HT. cbn [fmap option_fmap option_map truthy andb].
  destruct (Policy.content p); [now destruct Hne |].
  now destruct (Policy.exhausted p).
Qed.

(** Once the views have reached the limit no clock makes the paste
    available again. *)
Lemma judge_used_up now M :
  Policy.max_views p = Some M -> M <= Policy.views p ->
  judge now h = Expired \/ judge now h = Exhausted.
Proof.
  intros HM Hv. unfold judge.
  destruct Hst as (Hc & _), Hwf as (Hne & _). rewrite Hc.
  rewrite stored_exhausted. unfold Policy.exhausted. rewrite HM.
  rewrite (proj2 (Z.leb_le _ _) Hv).
  destruct (Policy.content p); [now destruct Hne |].
  destruct (expired now h); auto.
Qed.

Lemma stored_remaining n :
  remaining h n = Num <$> Policy.remaining p n.
Proof.
  destruct Hwf as (_ & _ & HM).
  unfold remaining, Policy.remaining.
  rewrite stored_maxViews, truthy_limit by assumption.
  now destruct (Policy.max_views p).
Qed.

Lemma stored_expiry T :
  Policy.ttl_seconds p = Some T -> expiry h = Num (Policy.created_at p + T * 1000).
Proof.
  intros HT. unfold expiry. now rewrite stored_ttl, stored_createdAt, HT.
Qed.

End Refinement.

(** ** Creation *)

Section Creation.
Import JsString JsNumber JsValue Http Helpers Reading.

Lemma Qeq_inject_Z q z : Qeq q (inject_Z z) <-> Qnum q = z * Zpos (Qden q).
Proof. unfold Qeq. cbn. lia. Qed.

Lemma isInteger_spec q :
  isInteger (numeric q) = true <-> exists z, Qeq q (inject_Z z).
Proof.
  cbn. rewrite Z.eqb_eq. split.
  - intros H. exists (Qnum q / Zpos (Qden q)). apply Qeq_inject_Z.
    pose proof (Z.div_mod (Qnum q) (Zpos (Qden q))). lia.
  - intros [z Hz%Qeq_inject_Z]. rewrite Hz. apply Z_mod_mult.
Qed.

Lemma to_Z_integer q z : Qeq q (inject_Z z) -> to_Z q = z.
Proof.
  intros Hz%Qeq_inject_Z. unfold to_Z. rewrite Hz. now apply Z.div_mul.
Qed.

Lemma lt_1_integer q z : Qeq q (inject_Z z) -> lt_1 (numeric q) = (z <? 1).
Proof.
  intros Hz%Qeq_inject_Z. cbn. rewrite Hz.
  destruct (Z.ltb_spec z 1), (Z.ltb_spec (z * Z.pos (Qden q)) (Z.pos (Qden q)));
    try reflexivity; nia.
Qed.

Lemma rejects_limit_bad v : bad_limit v -> rejects_limit v = true.
Proof.
  intros [Hdef Hint]. unfold rejects_limit.
  destruct v as [| | b | q | | c |]; try reflexivity; [now destruct Hdef |].
  cbn [defined andb].
  destruct (isInteger (numeric q)) eqn:Hi; [| reflexivity].
  apply isInteger_spec in Hi as [z Hz].
  rewrite (lt_1_integer q z Hz). cbn.
  apply Z.ltb_lt. now apply (Hint q eq_refl).
Qed.

Lemma rejects_limit_good v o : limit v o -> rejects_limit v = false.
Proof.
  intros [| q z Hz Hge]; [reflexivity |].
  unfold rejects_limit. cbn [defined andb].
  rewrite (proj2 (isInteger_spec q)) by eauto.
  rewrite (lt_1_integer q z Hz). cbn. apply Z.ltb_ge. lia.
Qed.

Lemma rejects_content_bad v : bad_content v -> rejects_content v = true.
Proof.
  intros Hbad. unfold rejects_content.
  destruct v as [| | b | q | | c |];
    cbn [falsy is_string negb orb]; rewrite ?orb_true_r; try reflexivity.
  cbn [string_of]. rewrite (Hbad c eq_refl). apply orb_true_r.
Qed.

Lemma rejects_content_good c :
  trim c <> EmptyString -> rejects_content (text c) = false.
Proof.
  intros Hne. unfold rejects_content. cbn [falsy is_string string_of negb orb].
  destruct c as [| a c]; [now destruct Hne |].
  now destruct (trim (String a c)).
Qed.

(** The fields a limit is stored as. *)
Lemma redis_arg_limit v o :
  limit v o -> redis_arg (nullish_or v (text "")) = Some (Policy.limit_field o).
Proof.
  intros [| q z Hz Hge]; [reflexivity |].
  cbn. now rewrite (to_Z_integer q z Hz).
Qed.

Lemma falsy_limit v o : limit v o -> negb (falsy v) = bool_decide (is_Some o).
Proof.
  intros [| q z Hz%Qeq_inject_Z Hge]; [reflexivity |].
  cbn. rewrite Hz. destruct (Z.eqb_spec (z * Z.pos (Qden q)) 0); [nia | reflexivity].
Qed.

(** A rejected request is answered before any command is issued: the
    handler is a bare [return]. *)
Lemma post_rejected src e req :
  rejects_content (content req) || rejects_limit (ttl_seconds req)
    || rejects_limit (max_views req) = true ->
  exists msg,
    post_pastes src e req = Async.Ret {| status := 400; sent := json_error msg |}.
Proof.
  intros H.
  destruct src; unfold post_pastes, Server.post_pastes, Part000.post_pastes;
    fold (rejects_content (content req));
    fold (rejects_limit (ttl_seconds req));
    fold (rejects_limit (max_views req));
    destruct (rejects_content (content req)); cbn; eauto;
    destruct (rejects_limit (ttl_seconds req)); cbn; eauto;
    destruct (rejects_limit (max_views req)); cbn; eauto; discriminate.
Qed.

Lemma created_well_formed e c T M v1 v2 :
  trim c <> EmptyString -> limit v1 T -> limit v2 M ->
  Policy.well_formed (created e c T M).
Proof.
  intros Hc H1 H2. repeat split; cbn; [assumption | |].
  - intros z ->. now inversion H1.
  - intros z ->. now inversion H2.
Qed.

Lemma post_accepted src e req s c T M :
  content req = text c -> trim c <> EmptyString ->
  limit (ttl_seconds req) T -> limit (max_views req) M ->
  exists url s',
    serve (post_pastes src) e req s
    = (Some {| status := 201; sent := json_created (new_id e) url |}, s') /\
    Policy.stores (record s' (new_id e)) (created e c T M) /\
    (forall k, k <> key_of (new_id e) -> Redis.hashes s' !! k = Redis.hashes s !! k).
Proof.
  intros Hc Hne HT HM. unfold serve.
  assert (Hfields :
    redis_fields
      [("content", text (trim (string_of (content req))));
       ("created_at", numeric (inject_Z (Date_now e)));
       ("ttl_seconds", nullish_or (ttl_seconds req) (text ""));
       ("max_views", nullish_or (max_views req) (text ""));
       ("views", numeric (inject_Z 0))]
    = Some [("content", trim c);
            ("created_at", toString (Date_now e));
            ("ttl_seconds", Policy.limit_field T);
            ("max_views", Policy.limit_field M);
            ("views", toString 0)]).
  { unfold redis_fields. cbn [mapM].
    rewrite (redis_arg_limit _ _ HT), (redis_arg_limit _ _ HM), Hc.
    cbn [redis_arg string_of].
    now rewrite !(to_Z_integer _ _ (Qeq_refl _)). }
  assert (Hstored : forall old : Redis.hash,
    Policy.stores
      (list_to_map [("content", trim c);
                    ("created_at", toString (Date_now e));
                    ("ttl_seconds", Policy.limit_field T);
                    ("max_views", Policy.limit_field M);
                    ("views", toString 0)] ∪ old)
      (created e c T M)).
  { intros old. repeat split; cbn [created Policy.content Policy.created_at
      Policy.ttl_seconds Policy.max_views Policy.views list_to_map foldr];
      apply lookup_union_Some_l; by simplify_map_eq. }
  destruct src; unfold post_pastes, Server.post_pastes, Part000.post_pastes;
    fold (rejects_content (content req));
    fold (rejects_limit (ttl_seconds req));
    fold (rejects_limit (max_views req));
    rewrite (rejects_limit_good _ _ HT), (rejects_limit_good _ _ HM), Hc,
      (rejects_content_good c Hne);
    cbn [orb]; rewrite <- Hc; fold (new_id e); fold (key_of (new_id e));
    unfold await_hSet; rewrite Hfields; step_handler.
  - rewrite (falsy_limit _ _ HT).
    destruct T as [T |]; cbn [bool_decide decide_rel is_Some_dec]; cbn.
    + rewrite lookup_insert_eq.
      eexists _, _. split; [reflexivity |]. unfold record. cbn.
      rewrite lookup_insert_eq. split; [apply Hstored |].
      intros k Hk. now rewrite lookup_insert_ne.
    + eexists _, _. split; [reflexivity |]. unfold record. cbn.
      rewrite lookup_insert_eq. split; [apply Hstored |].
      intros k Hk. now rewrite lookup_insert_ne.
  - cbn. eexists _, _. split; [reflexivity |]. unfold record. cbn.
    rewrite lookup_insert_eq. split; [apply Hstored |].
    intros k Hk. now rewrite lookup_insert_ne.
Qed.

(** A paste just created is available until its time is up. *)
Lemma created_available e c T M v t :
  limit v M ->
  (forall Tz, T = Some Tz -> t < Date_now e + Tz * 1000) ->
  Policy.state (created e c T M) t = Policy.Available.
Proof.
  intros HM Ht. unfold Policy.state, Policy.expired, Policy.exhausted. cbn.
  assert (match T with Some T0 => Date_now e + T0 * 1000 <=? t | None => false end = false)
    as ->.
  { destruct T as [Tz |]; [| reflexivity]. apply Z.leb_gt. now apply Ht. }
  destruct M as [Mz |]; [| reflexivity].
  inversion HM; subst. destruct (Z.leb_spec Mz 0); [lia | reflexivity].
Qed.

Lemma created_expired e c Tz M t :
  Date_now e + Tz * 1000 <= t ->
  Policy.state (created e c (Some Tz) M) t = Policy.Expired.
Proof.
  intros Ht. unfold Policy.state, Policy.expired. cbn.
  now rewrite (proj2 (Z.leb_le _ _) Ht).
Qed.

End Creation.

(** ** Retrieval of a stored paste *)

Section Retrieval.
Import JsNumber Http Helpers Reading.

Lemma stores_viewed h p :
  Policy.stores h p ->
  Policy.stores (<["views" := toString (Policy.views p + 1)]> h) (Policy.viewed p).
Proof.
  intros (Hc & Ht & Hl & Hm & Hv).
  repeat split; cbn; by simplify_map_eq.
Qed.

Lemma record_bump s id n :
  record (bump s id n) id = <["views" := toString n]> (record s id).
Proof. unfold record at 1, bump. cbn. now rewrite lookup_insert_eq. Qed.

Lemma exec_hIncrBy_stored s id p :
  Policy.stores (record s id) p ->
  Redis.exec (Redis.hIncrBy (key_of id) "views" 1) s
  = (Some (Policy.views p + 1), bump s id (Policy.views p + 1)).
Proof.
  intros (_ & _ & _ & _ & Hv). cbn. fold (record s id).
  now rewrite Hv, integer_value_toString.
Qed.

(** A retrieval that judges the paste unavailable answers 404. *)
Lemma retrieval_unavailable src ep e req s :
  let v := judge (now e req) (record s (params_id req)) in
  v = Expired \/ v = Exhausted ->
  retrieval src ep e req s
  = (Some {| status := 404; sent := refusal src ep v |},
     cleanup src (key_of (params_id req)) s).
Proof. unfold retrieval. cbn zeta. now intros [-> | ->]. Qed.

Variables (src : source) (e : env) (req : request) (s : Redis.state).
Variables (p : Policy.paste) (t : Z).
Hypothesis Hst : Policy.stores (record s (params_id req)) p.
Hypothesis Hwf : Policy.well_formed p.

Lemma retrieval_judged ep st :
  judge (now e req) (record s (params_id req)) = of_status st ->
  retrieval src ep e req s = outcome src req s p ep st.
Proof.
  intros Hj. unfold retrieval. rewrite Hj.
  destruct st; try reflexivity. cbn [of_status outcome].
  now rewrite (exec_hIncrBy_stored _ _ _ Hst).
Qed.

(** A retrieval of a stored paste follows the policy. *)
Lemma retrieval_stored ep :
  now e req = Num t ->
  retrieval src ep e req s = outcome src req s p ep (Policy.state p t).
Proof.
  intros Hnow. apply retrieval_judged. rewrite Hnow. now apply judge_policy.
Qed.

Lemma retrieval_no_ttl ep :
  Policy.ttl_seconds p = None ->
  retrieval src ep e req s = outcome src req s p ep (Policy.state p 0).
Proof. intros HT. apply retrieval_judged. now apply judge_no_ttl. Qed.

(** The JSON answer to an available paste: the trimmed content, the
    remaining views and the expiry, unless the expiry is no date. *)
Lemma success_api_stored n :
  success src api (params_id req) (record s (params_id req)) n =
  match Policy.expires_at p with
  | None =>
      Some {| status := 200;
              sent := json_paste (Policy.content p) (Num <$> Policy.remaining p n) None |}
  | Some x =>
      if Z.abs x <=? JsDate.max_time
      then Some {| status := 200;
                   sent := json_paste (Policy.content p)
                             (Num <$> Policy.remaining p n) (Some x) |}
      else thrown src api
  end.
Proof.
  unfold success, Policy.expires_at.
  rewrite (stored_remaining _ _ Hst Hwf), (stored_ttl _ _ Hst).
  destruct Hst as (Hc & _), Hwf as (_ & HT & _). rewrite Hc. cbn [default].
  rewrite truthy_limit by assumption.
  destruct (Policy.ttl_seconds p) as [T |] eqn:HTp; cbn; [| reflexivity].
  rewrite (stored_expiry _ _ Hst T HTp). cbn.
  now destruct (Z.abs (Policy.created_at p + T * 1000) <=? JsDate.max_time).
Qed.

End Retrieval.

(* ================================================================== *)
(** ** The claims                                                       *)
(* ================================================================== *)

Section Claims.
Import JsString JsNumber JsValue Http Helpers Reading.

(** *** Time to live *)

(** X19: the boundary of the time to live, for every paste created
    within the range of exact numbers whose expiry is an instant a Date
    can hold: one millisecond before
    [created_at + T*1000] the JSON endpoint answers 200 with the
    content, from that instant on it answers 404. *)
Lemma ttl_boundary_in_date_range src e req s c T M :
  content req = text c -> trim c <> EmptyString ->
  limit (ttl_seconds req) (Some T) -> limit (max_views req) M ->
  modest e (Some T) M ->
  Z.abs (Date_now e + T * 1000) <= JsDate.max_time ->
  exists url s',
    serve (post_pastes src) e req s
    = (Some {| status := 201; sent := json_created (new_id e) url |}, s') /\
    (forall e' req',
        params_id req' = new_id e ->
        now e' req' = Num (Date_now e + T * 1000 - 1) ->
        fst (serve (get_api_paste src) e' req' s')
        = Some {| status := 200;
                  sent := json_paste (trim c)
                            (Num <$> Policy.remaining (created e c (Some T) M) 1)
                            (Some (Date_now e + T * 1000)) |}) /\
    (forall e' req' t,
        params_id req' = new_id e ->
        now e' req' = Num t ->
        Date_now e + T * 1000 <= t ->
        exists r, fst (serve (get_api_paste src) e' req' s') = Some r /\ status r = 404).
Proof.
  intros Hc Hne HT HM _ Hrange.
  destruct (post_accepted src e req s c (Some T) M Hc Hne HT HM)
    as (url & s' & Hpost & Hst & _).
  pose proof (created_well_formed e c (Some T) M _ _ Hne HT HM) as Hwf.
  exists url, s'. split; [exact Hpost |]. split.
  - intros e' req' Hid Hnow. rewrite <- Hid in Hst.
    rewrite (serve_get src api), (retrieval_stored src e' req' s' _ _ Hst Hwf _ Hnow).
    rewrite (created_available e c (Some T) M _ _ HM) by (intros ? [= <-]; lia).
    cbn [fst outcome]. rewrite (success_api_stored src req' s' _ Hst Hwf).
    cbn [Policy.expires_at created Policy.ttl_seconds Policy.created_at
           Policy.content fmap option_fmap option_map].
    now rewrite (proj2 (Z.leb_le _ _) Hrange).
  - intros e' req' t Hid Hnow Ht. rewrite <- Hid in Hst.
    rewrite (serve_get src api), (retrieval_stored src e' req' s' _ _ Hst Hwf _ Hnow).
    rewrite (created_expired e c T M t Ht). cbn [fst outcome]. eauto.
Qed.

(** X20: beyond that range, and up to the largest safe integer, the
    expiry is an invalid Date, [toISOString] throws after the view was
    counted, and the retrieval is answered
    by the catch block (server.js) or not at all (part_000). *)
Lemma ttl_beyond_date_range src e req s c T M :
  content req = text c -> trim c <> EmptyString ->
  limit (ttl_seconds req) (Some T) -> limit (max_views req) M ->
  modest e (Some T) M ->
  JsDate.max_time < Date_now e + T * 1000 ->
  exists url s',
    serve (post_pastes src) e req s
    = (Some {| status := 201; sent := json_created (new_id e) url |}, s') /\
    (forall e' req' t,
        params_id req' = new_id e ->
        now e' req' = Num t ->
        t < Date_now e + T * 1000 ->
        fst (serve (get_api_paste src) e' req' s') = thrown src api).
Proof.
  intros Hc Hne HT HM _ Hrange.
  destruct (post_accepted src e req s c (Some T) M Hc Hne HT HM)
    as (url & s' & Hpost & Hst & _).
  pose proof (created_well_formed e c (Some T) M _ _ Hne HT HM) as Hwf.
  exists url, s'. split; [exact Hpost |].
  intros e' req' t Hid Hnow Ht. rewrite <- Hid in Hst.
  rewrite (serve_get src api), (retrieval_stored src e' req' s' _ _ Hst Hwf _ Hnow).
  rewrite (created_available e c (Some T) M _ _ HM) by (intros ? [= <-]; lia).
  cbn [fst outcome]. rewrite (success_api_stored src req' s' _ Hst Hwf).
  cbn [Policy.expires_at created Policy.ttl_seconds Policy.created_at
         Policy.content fmap option_fmap option_map].
  destruct (Z.leb_spec (Z.abs (Date_now e + T * 1000)) JsDate.max_time); [lia | reflexivity].
Qed.

(** C1 (fails on the code): [ttl_seconds = 8640000000000] is accepted
    as valid, the paste is created, and the retrieval one millisecond
    before [created_at + T*1000] is not answered 200: server.js
    answers 500, in part_000 the exception escapes the handler. *)
Theorem ttl_8640000000000_not_served :
  rejects_limit (ttl_seconds long_lived) = false /\
  (forall src,
      exists url,
        fst (serve (post_pastes src) testing long_lived Redis.empty)
        = Some {| status := 201; sent := json_created "3f2504e0" url |}) /\
  now testing (GET "3f2504e0" (Some "8641793591999999"))
  = Num (Date_now testing + 8640000000000 * 1000 - 1) /\
  fst (serve (get_api_paste server_js) testing
         (GET "3f2504e0" (Some "8641793591999999")) (after_long_lived server_js))
  = Some {| status := 500; sent := json_error "Internal server error" |} /\
  fst (serve (get_api_paste part_000) testing
         (GET "3f2504e0" (Some "8641793591999999")) (after_long_lived part_000))
  = None.
Proof.
  split; [reflexivity |]. split.
  - intros []; eexists; vm_compute; reflexivity.
  - repeat split; vm_compute; reflexivity.
Qed.

(** *** View limit *)

Lemma countdown src e id T M clients :
  forall s1 p,
    Policy.stores (record s1 id) p -> Policy.well_formed p ->
    Policy.created_at p = Date_now e ->
    Policy.ttl_seconds p = T -> Policy.max_views p = Some M ->
    (forall Tz, T = Some Tz -> Z.abs (Date_now e + Tz * 1000) <= JsDate.max_time) ->
    Policy.views p + Z.of_nat (length clients) <= M ->
    Forall (fun cl => params_id cl.2 = id /\ in_time e T cl) clients ->
    exists s2,
      serve_all (get_api_paste src) clients s1
      = (map (fun k => counted (Policy.content p) (M - k) (Policy.expires_at p))
             (seqZ (Policy.views p + 1) (Z.of_nat (length clients))), s2) /\
      Policy.stores (record s2 id)
        {| Policy.content := Policy.content p;
           Policy.created_at := Policy.created_at p;
           Policy.ttl_seconds := T; Policy.max_views := Some M;
           Policy.views := Policy.views p + Z.of_nat (length clients) |}.
Proof.
  induction clients as [| [e' req'] clients IH];
    intros s1 p Hst Hwf Hcr HT HM Hdate Hlen Hids.
  - exists s1. split; [reflexivity |].
    cbn [length Z.of_nat]. rewrite Z.add_0_r, <- HT, <- HM. now destruct p.
  - apply Forall_cons in Hids as [[Hid Htime] Hids]. cbn [snd] in Hid. subst id.
    cbn [length] in *. rewrite Nat2Z.inj_succ in *.
    rewrite seqZ_cons by lia. cbn [serve_all map].
    assert (judge (now e' req') (record s1 (params_id req'))
            = of_status Policy.Available) as Hj.
    { assert (Policy.exhausted p = false) as Hex.
      { unfold Policy.exhausted. rewrite HM. apply Z.leb_gt. lia. }
      destruct T as [Tz |].
      - destruct Htime as (t & Hnow & Ht). cbn [fst snd] in Hnow.
        rewrite Hnow, (judge_policy _ _ Hst Hwf). f_equal.
        unfold Policy.state, Policy.expired. rewrite HT, Hex, Hcr.
        destruct (Z.leb_spec (Date_now e + Tz * 1000) t); [lia | reflexivity].
      - rewrite (judge_no_ttl _ _ Hst Hwf _ HT). f_equal.
        unfold Policy.state, Policy.expired. now rewrite HT, Hex. }
    rewrite (serve_get src api), (retrieval_judged src e' req' s1 p Hst api _ Hj).
    cbn [outcome]. rewrite (success_api_stored src req' s1 p Hst Hwf).
    assert (Policy.remaining p (Policy.views p + 1) = Some (M - (Policy.views p + 1)))
      as ->.
    { unfold Policy.remaining. rewrite HM. cbn. f_equal. lia. }
    assert (match Policy.expires_at p with
            | Some x =>
                if Z.abs x <=? JsDate.max_time
                then Some {| status := 200;
                             sent := json_paste (Policy.content p)
                                       (Num <$> Some (M - (Policy.views p + 1))) (Some x) |}
                else thrown src api
            | None =>
                Some {| status := 200;
                        sent := json_paste (Policy.content p)
                                  (Num <$> Some (M - (Policy.views p + 1))) None |}
            end
            = counted (Policy.content p) (M - (Policy.views p + 1)) (Policy.expires_at p))
      as ->.
    { unfold Policy.expires_at. rewrite HT, Hcr.
      destruct T as [Tz |]; cbn [fmap option_fmap option_map]; [| reflexivity].
      now rewrite (proj2 (Z.leb_le _ _) (Hdate Tz eq_refl)). }
    destruct (IH (bump s1 (params_id req') (Policy.views p + 1)) (Policy.viewed p))
      as (s2 & Hrun & Hst2).
    + rewrite record_bump. now apply stores_viewed.
    + exact Hwf.
    + exact Hcr.
    + exact HT.
    + exact HM.
    + exact Hdate.
    + cbn. lia.
    + exact Hids.
    + exists s2. rewrite Hrun. cbn [Policy.viewed Policy.content Policy.views
        Policy.created_at] in *.
      rewrite Z.pred_succ.
      replace (Z.succ (Policy.views p + 1)) with (Policy.views p + 1 + 1) by lia.
      split; [reflexivity |].
      replace (Policy.views p + Z.succ (Z.of_nat (length clients)))
        with (Policy.views p + 1 + Z.of_nat (length clients)) by lia.
      exact Hst2.
Qed.

(** X26: a paste created within the range of exact numbers with
    [max_views = M], with no time to live or with one that is still
    running for the clients and whose expiry is an instant a Date can
    hold, is served M times by the JSON endpoint, with
    [remaining_views] counting M-1, M-2, ..., 0, and the next retrieval
    is answered 404, whoever asks and whatever the clock. *)
Theorem max_views_countdown src e req s c T M clients :
  content req = text c -> trim c <> EmptyString ->
  limit (ttl_seconds req) T -> limit (max_views req) (Some M) ->
  modest e T (Some M) ->
  (forall Tz, T = Some Tz -> Z.abs (Date_now e + Tz * 1000) <= JsDate.max_time) ->
  Forall (fun cl => params_id cl.2 = new_id e /\ in_time e T cl) clients ->
  Z.of_nat (length clients) = M ->
  exists url s1 s2,
    serve (post_pastes src) e req s
    = (Some {| status := 201; sent := json_created (new_id e) url |}, s1) /\
    serve_all (get_api_paste src) clients s1
    = (map (fun k => counted (trim c) (M - k) (Policy.expires_at (created e c T (Some M))))
           (seqZ 1 M), s2) /\
    (forall e' req',
        params_id req' = new_id e ->
        exists r, fst (serve (get_api_paste src) e' req' s2) = Some r /\ status r = 404).
Proof.
  intros Hc Hne HT HM _ Hdate Hids Hlen.
  destruct (post_accepted src e req s c T (Some M) Hc Hne HT HM)
    as (url & s1 & Hpost & Hst & _).
  pose proof (created_well_formed e c T (Some M) _ _ Hne HT HM) as Hwf.
  destruct (countdown src e (new_id e) T M clients s1 _ Hst Hwf eq_refl eq_refl eq_refl Hdate)
    as (s2 & Hrun & Hst2); [cbn; lia | exact Hids |].
  exists url, s1, s2. split; [exact Hpost |]. split.
  - rewrite Hrun. cbn [created Policy.content Policy.views]. now rewrite Hlen.
  - intros e' req' Hid. rewrite <- Hid in Hst2.
    rewrite (serve_get src api), retrieval_unavailable; [cbn [fst]; eauto |].
    cbn zeta. eapply judge_used_up; [exact Hst2 | | reflexivity | cbn; lia].
    repeat split; cbn; [exact Hne | |].
    + intros Tz ->. now inversion HT.
    + intros ? [= <-]. now inversion HM.
Qed.

(** C2 (fails on the code): the request is valid and the paste is
    created; its time to live is running, so no constraint of time is
    in effect, and the clock of the retrievals reads the time of the
    creation.  The first two sequential retrievals by the JSON endpoint
    do not succeed with [remaining_views] 1 and 0: each counts its view
    and then fails at [toISOString], answered 500 by server.js and not
    at all by part_000; the third is refused 404, the limit being used
    up by two retrievals that returned nothing.  The HTML endpoint of
    the same file serves the same paste twice and refuses the third
    request. *)
Theorem two_views_of_long_lived_not_served :
  let two_views := POST (text "x") (numeric (inject_Z 8640000000000))
                     (numeric (inject_Z 2)) in
  let read := (production, GET "3f2504e0" None) in
  (rejects_content (content two_views) || rejects_limit (ttl_seconds two_views)
   || rejects_limit (max_views two_views)) = false /\
  in_time production (Some 8640000000000) read /\
  (forall src,
      exists url,
        fst (serve (post_pastes src) production two_views Redis.empty)
        = Some {| status := 201; sent := json_created "3f2504e0" url |}) /\
  fst (serve_all (get_api_paste server_js) [read; read; read]
         (snd (serve (post_pastes server_js) production two_views Redis.empty)))
  = [Some {| status := 500; sent := json_error "Internal server error" |};
     Some {| status := 500; sent := json_error "Internal server error" |};
     Some {| status := 404; sent := json_error "View limit exceeded" |}] /\
  fst (serve_all (get_api_paste part_000) [read; read; read]
         (snd (serve (post_pastes part_000) production two_views Redis.empty)))
  = [None; None;
     Some {| status := 404; sent := json_error "View limit exceeded" |}] /\
  map (fmap status)
    (fst (serve_all (get_p server_js) [read; read; read]
            (snd (serve (post_pastes server_js) production two_views Redis.empty))))
  = [Some 200; Some 200; Some 404] /\
  (map_to_list <$>
     Redis.hashes
       (snd (serve_all (get_api_paste server_js) [read; read]
               (snd (serve (post_pastes server_js) production two_views Redis.empty))))
       !! "paste:3f2504e0")
  = Some [("content", "x"); ("created_at", "1793592000000");
          ("max_views", "2"); ("views", "2"); ("ttl_seconds", "8640000000000")].
Proof.
  cbn zeta. split; [reflexivity |]. split.
  - exists 1793592000000. split; [reflexivity | reflexivity].
  - split; [intros []; eexists; vm_compute; reflexivity |].
    repeat split; vm_compute; reflexivity.
Qed.

(** *** Validation *)

(** The rejected bodies the specification lists. *)
Lemma listed_bad_inputs :
  bad_content undefined /\ bad_content (text "") /\
  bad_content (text "   ") /\
  bad_limit (numeric (inject_Z 0)) /\ bad_limit (numeric (inject_Z (-1))) /\
  bad_limit (numeric (3 # 2)).
Proof.
  repeat split; try discriminate.
  - intros c [= <-]. reflexivity.
  - intros c [= <-]. reflexivity.
  - intros q [= <-] z Hz%Qeq_inject_Z. cbn in Hz. lia.
  - intros q [= <-] z Hz%Qeq_inject_Z. cbn in Hz. lia.
  - intros q [= <-] z Hz%Qeq_inject_Z. cbn in Hz. lia.
Qed.

(** C4: a creation request whose content is missing, not a string,
    empty or only white space, or one of whose limits is present but
    not an integer at least 1, is answered 400 with an error body by a
    handler that returns before it awaits any Redis command; served
    against any keyspace, it leaves that keyspace as it was. *)
Theorem invalid_create_rejected src e req s :
  bad_content (content req) \/ bad_limit (ttl_seconds req)
    \/ bad_limit (max_views req) ->
  exists msg,
    post_pastes src e req = Async.Ret {| status := 400; sent := json_error msg |} /\
    serve (post_pastes src) e req s
    = (Some {| status := 400; sent := json_error msg |}, s).
Proof.
  intros Hbad.
  destruct (post_rejected src e req) as [msg Hmsg].
  - destruct Hbad as [H | [H | H]].
    + now rewrite (rejects_content_bad _ H).
    + rewrite (rejects_limit_bad _ H). apply orb_true_iff. left. apply orb_true_r.
    + rewrite (rejects_limit_bad _ H). apply orb_true_r.
  - exists msg. split; [exact Hmsg |]. unfold serve. now rewrite Hmsg.
Qed.

(** *** Refusals *)

(** C3 (as stated, fails): a caller tells an expired paste from an id
    that was never created: both answers are 404, but the first body
    reads Paste expired and the second Paste not found. *)
Lemma expired_told_from_absent :
  let s1 := snd (serve (post_pastes server_js) testing short_lived Redis.empty) in
  let expired_answer :=
    fst (serve (get_api_paste server_js) testing
           (GET "3f2504e0" (Some "1793592002000")) s1) in
  let absent_answer :=
    fst (serve (get_api_paste server_js) testing
           (GET "00000000" (Some "1793592002000")) s1) in
  expired_answer = Some {| status := 404; sent := json_error "Paste expired" |} /\
  absent_answer = Some {| status := 404; sent := json_error "Paste not found" |} /\
  expired_answer <> absent_answer.
Proof. repeat split; try (vm_compute; reflexivity). vm_compute. discriminate. Qed.

(** C3 (amended): a retrieval of an id that is absent, expired or
    exhausted is answered with status 404 by either endpoint of either
    file; the body is the one of the table [refusal], which differs
    from verdict to verdict and so names the reason. *)
Theorem unavailable_answers_404 src ep e req s :
  judge (now e req) (record s (params_id req)) <> Available ->
  exists r,
    fst (serve (get src ep) e req s) = Some r /\
    status r = 404 /\
    sent r = refusal src ep (judge (now e req) (record s (params_id req))) /\
    (forall v', v' <> Available -> refusal src ep v' = sent r ->
                v' = judge (now e req) (record s (params_id req))).
Proof.
  intros Hv. rewrite serve_get. unfold retrieval.
  destruct (judge (now e req) (record s (params_id req))) eqn:Hj;
    try (now destruct Hv);
    (eexists; split; [reflexivity |]; split; [reflexivity |]; split; [reflexivity |]);
    intros v' Hv'; destruct src, ep, v'; cbn; try discriminate; try reflexivity;
    now destruct Hv'.
Qed.

(** *** Cleanup *)

(** X22: server.js removes the paste it finds expired or exhausted, and
    the next retrieval of the id finds no record. *)
Lemma server_js_deletes_unavailable ep e req s :
  let v := judge (now e req) (record s (params_id req)) in
  v = Expired \/ v = Exhausted ->
  let s' := snd (serve (get server_js ep) e req s) in
  Redis.hashes s' !! key_of (params_id req) = None /\
  record s' (params_id req) = ∅ /\
  forall ep' e' req',
    params_id req' = params_id req ->
    serve (get server_js ep') e' req' s'
    = (Some {| status := 404; sent := refusal server_js ep' Absent |}, s').
Proof.
  cbn zeta. intros Hv. rewrite serve_get, retrieval_unavailable by exact Hv.
  cbn [snd cleanup Redis.exec Redis.hashes].
  assert (Hgone : record
    {| Redis.hashes := delete (key_of (params_id req)) (Redis.hashes s);
       Redis.expires := delete (key_of (params_id req)) (Redis.expires s) |}
    (params_id req) = ∅).
  { unfold record. cbn. now rewrite lookup_delete_eq. }
  split; [apply lookup_delete_eq |]. split; [exact Hgone |].
  intros ep' e' req' Hid. rewrite serve_get. unfold retrieval, judge.
  now rewrite Hid, Hgone, lookup_empty.
Qed.

(** X23: part_000 never removes anything: a retrieval keeps every
    record. *)
Lemma part_000_never_deletes ep e req s k :
  is_Some (Redis.hashes s !! k) ->
  is_Some (Redis.hashes (snd (serve (get part_000 ep) e req s)) !! k).
Proof.
  intros Hk. rewrite serve_get. unfold retrieval.
  destruct (judge (now e req) (record s (params_id req))); try exact Hk.
  cbn -[decide]. 
  destruct (match record s (params_id req) !! "views" with
            | Some v => Redis.integer_value v
            | None => Some 0
            end) eqn:Hv; fold (record s (params_id req)); rewrite Hv; cbn; [| exact Hk].
  destruct (decide (key_of (params_id req) = k)) as [<- | Hne].
  - rewrite lookup_insert_eq. eauto.
  - now rewrite lookup_insert_ne.
Qed.

(** C5 (fails on part_000): the paste found expired is answered 404
    and stays in the keyspace, which is left exactly as it was; and so
    does the paste found exhausted. *)
Theorem part_000_keeps_unavailable_paste :
  (let s1 := snd (serve (post_pastes part_000) testing short_lived Redis.empty) in
   let out := serve (get_api_paste part_000) testing
                (GET "3f2504e0" (Some "1793592002000")) s1 in
   fst out = Some {| status := 404; sent := json_error "Expired" |} /\
   snd out = s1 /\
   (map_to_list <$> Redis.hashes (snd out) !! "paste:3f2504e0")
   = Some [("content", "hello"); ("created_at", "1793592000000");
           ("max_views", ""); ("views", "0"); ("ttl_seconds", "2")]) /\
  (let s1 := snd (serve (post_pastes part_000) production
                    (POST (text "x") undefined (numeric (inject_Z 1))) Redis.empty) in
   let s2 := snd (serve (get_api_paste part_000) production (GET "3f2504e0" None) s1) in
   let out := serve (get_api_paste part_000) production (GET "3f2504e0" None) s2 in
   fst out = Some {| status := 404; sent := json_error "View limit exceeded" |} /\
   snd out = s2 /\
   (map_to_list <$> Redis.hashes (snd out) !! "paste:3f2504e0")
   = Some [("content", "x"); ("created_at", "1793592000000");
           ("max_views", "1"); ("views", "1"); ("ttl_seconds", "")]).
Proof. cbn zeta. repeat split; vm_compute; reflexivity. Qed.

(** *** The counter *)

Lemma available_record_exists now s id :
  judge now (record s id) = Available ->
  Redis.hashes s !! key_of id = Some (record s id).
Proof.
  unfold judge, record.
  destruct (Redis.hashes s !! key_of id) as [h |]; [reflexivity |].
  cbn. now rewrite lookup_empty.
Qed.

Lemma counter_bumped h n : counter (<["views" := toString n]> h) = Some n.
Proof. unfold counter. now rewrite lookup_insert_eq, integer_value_toString. Qed.

Lemma thrown_status src ep r : thrown src ep = Some r -> status r = 500.
Proof. destruct src, ep; cbn; intros [= <-]; reflexivity || discriminate. Qed.

Lemma success_status src ep id h n r :
  success src ep id h n = Some r -> status r = 200 \/ status r = 500.
Proof.
  unfold success. destruct ep.
  - destruct (truthy (ttl h)); [| intros [= <-]; now left].
    destruct (JsDate.toISOString (JsDate.Date (expiry h))).
    + intros [= <-]. now left.
    + intros H%thrown_status. now right.
  - intros [= <-]. now left.
Qed.

(** C7 (as stated, fails on server.js): three retrievals of a paste
    with [max_views = 1] are in flight.  The first reads the record;
    the second reads it, counts its view and is answered 200; the third
    finds the paste exhausted and deletes it; and the HINCRBY of the
    first, served on the missing key, makes Redis create a hash that
    holds nothing but [views = 1].  Two retrievals were answered 200
    and the counter reads 1; it went from 1 back to 1 through a
    deletion, and content, created_at, ttl_seconds and max_views of the
    record are gone. *)
Lemma cleanup_between_read_and_count :
  let one_view := POST (text "x") undefined (numeric (inject_Z 1)) in
  let s1 := snd (serve (post_pastes server_js) production one_view Redis.empty) in
  let retrieve := get_api_paste server_js production (GET "3f2504e0" None) in
  let run := fun schedule =>
    Async.interleave schedule (Async.start [retrieve; retrieve; retrieve] s1) in
  (map_to_list <$> Redis.hashes s1 !! "paste:3f2504e0")
  = Some [("content", "x"); ("created_at", "1793592000000");
          ("max_views", "1"); ("views", "0"); ("ttl_seconds", "")] /\
  (map_to_list <$>
     Redis.hashes (Async.store (run [0; 1; 1]%nat)) !! "paste:3f2504e0")
  = Some [("content", "x"); ("created_at", "1793592000000");
          ("max_views", "1"); ("views", "1"); ("ttl_seconds", "")] /\
  Redis.hashes (Async.store (run [0; 1; 1; 2; 2]%nat)) !! "paste:3f2504e0" = None /\
  (map_to_list <$>
     Redis.hashes (Async.store (run [0; 1; 1; 2; 2; 0]%nat)) !! "paste:3f2504e0")
  = Some [("views", "1")] /\
  Async.pool (run [0; 1; 1; 2; 2; 0]%nat)
  = [Async.Ret {| status := 200; sent := json_paste "x" (Some (Num 0)) None |};
     Async.Ret {| status := 200; sent := json_paste "x" (Some (Num 0)) None |};
     Async.Ret {| status := 404; sent := json_error "View limit exceeded" |}].
Proof. cbn zeta. repeat split; vm_compute; reflexivity. Qed.

(** C7 (amended): what a retrieval served with no other request in
    flight (either endpoint, either file, any request, any keyspace)
    does to the paste records.
    - Every record present afterwards was present before, with every
      field other than [views] as it was, and with the same counter or,
      for the requested paste judged Available, the counter plus 1.
    - A retrieval answered 200 judged the paste Available and moved its
      counter from n to n + 1.
    - A retrieval answered 404 did not judge it Available, and every
      record present afterwards is exactly as it was before. *)
Theorem views_counter_moves_only_by_service src ep e req s :
  let id := params_id req in
  let v := judge (now e req) (record s id) in
  let out := serve (get src ep) e req s in
  (forall k h',
      Redis.hashes (snd out) !! k = Some h' ->
      exists h,
        Redis.hashes s !! k = Some h /\ others_kept h h' /\
        (h' = h \/
         (k = key_of id /\ v = Available /\
          exists n, counter h = Some n /\ counter h' = Some (n + 1)))) /\
  (forall r,
      fst out = Some r -> status r = 200 ->
      v = Available /\
      exists h h' n,
        Redis.hashes s !! key_of id = Some h /\
        Redis.hashes (snd out) !! key_of id = Some h' /\
        counter h = Some n /\ counter h' = Some (n + 1)) /\
  (forall r,
      fst out = Some r -> status r = 404 ->
      v <> Available /\
      forall k h', Redis.hashes (snd out) !! k = Some h' -> Redis.hashes s !! k = Some h').
Proof.
  cbn zeta. rewrite serve_get. unfold retrieval.
  assert (Hsame : forall (Q : Redis.hash -> Prop) k h', Redis.hashes s !! k = Some h' ->
            exists h, Redis.hashes s !! k = Some h /\ others_kept h h' /\ (h' = h \/ Q h)).
  { intros Q k h' Hk. exists h'. split; [exact Hk |]. split; [| now left].
    intros f _. reflexivity. }
  assert (Hclean : forall k h',
            Redis.hashes (cleanup src (key_of (params_id req)) s) !! k = Some h' ->
            Redis.hashes s !! k = Some h').
  { intros k h'. destruct src; cbn; [| auto]. now intros [_ H]%lookup_delete_Some. }
  destruct (judge (now e req) (record s (params_id req))) eqn:Hj.
  - cbn [fst snd]. split; [intros k h'; apply (Hsame (fun h => _)) |]. split.
    + intros r [= <-]. discriminate.
    + intros r _ _. split; [discriminate | auto].
  - cbn [fst snd]. split; [| split].
    + intros k h' Hk%Hclean. now apply (Hsame (fun h => _)).
    + intros r [= <-]. discriminate.
    + intros r _ _. split; [discriminate | exact Hclean].
  - cbn [fst snd]. split; [| split].
    + intros k h' Hk%Hclean. now apply (Hsame (fun h => _)).
    + intros r [= <-]. discriminate.
    + intros r _ _. split; [discriminate | exact Hclean].
  - pose proof (available_record_exists _ _ _ Hj) as Hrec.
    cbn [Redis.exec]. fold (key_of (params_id req)). fold (record s (params_id req)).
    fold (counter (record s (params_id req))).
    destruct (counter (record s (params_id req))) as [n |] eqn:Hn; cbn [fst snd].
    + assert (Hnew : Redis.hashes
                {| Redis.hashes :=
                     <[key_of (params_id req) :=
                         <["views" := toString (n + 1)]> (record s (params_id req))]>
                       (Redis.hashes s);
                   Redis.expires := Redis.expires s |} !! key_of (params_id req)
              = Some (<["views" := toString (n + 1)]> (record s (params_id req)))).
      { cbn. apply lookup_insert_eq. }
      split; [| split].
      * intros k h'. cbn [Redis.hashes].
        destruct (decide (key_of (params_id req) = k)) as [<- | Hne].
        -- rewrite lookup_insert_eq. intros [= <-].
           exists (record s (params_id req)). split; [exact Hrec |]. split.
           ++ intros f Hf. now rewrite lookup_insert_ne.
           ++ right. repeat split. exists n. split; [exact Hn |]. apply counter_bumped.
        -- rewrite lookup_insert_ne by exact Hne. apply (Hsame (fun h => _)).
      * intros r Hr Hst. split; [reflexivity |].
        exists (record s (params_id req)),
          (<["views" := toString (n + 1)]> (record s (params_id req))), n.
        repeat split; [exact Hrec | exact Hnew | exact Hn | apply counter_bumped].
      * intros r Hr Hst. apply success_status in Hr. lia.
    + split; [intros k h'; apply (Hsame (fun h => _)) |]. split.
      * intros r Hr%thrown_status. lia.
      * intros r Hr%thrown_status. lia.
Qed.

(** Creating a paste touches no record but the one under the new id. *)
Lemma post_keeps_other_records src e req s k :
  k <> key_of (new_id e) ->
  Redis.hashes (snd (serve (post_pastes src) e req s)) !! k = Redis.hashes s !! k.
Proof.
  intros Hk. unfold serve.
  assert (Hk' : key_of (new_id e) <> k) by congruence.
  destruct src; unfold post_pastes, Server.post_pastes, Part000.post_pastes;
    fold (rejects_content (content req));
    fold (rejects_limit (ttl_seconds req));
    fold (rejects_limit (max_views req));
    fold (new_id e); fold (key_of (new_id e)); unfold await_hSet;
    destruct (rejects_content (content req)); cbn [orb]; try reflexivity;
    destruct (rejects_limit (ttl_seconds req)); try reflexivity;
    destruct (rejects_limit (max_views req)); try reflexivity;
    match goal with
    | |- context [redis_fields ?o] => destruct (redis_fields o)
    end; try reflexivity;
    step_handler; cbn [Redis.exec]; step_handler;
    cbn [snd Redis.hashes Async.run respond];
    try (rewrite lookup_insert_ne by exact Hk'; reflexivity).
  destruct (negb (falsy (ttl_seconds req))); step_handler; cbn;
    rewrite ?lookup_insert_eq; cbn; now rewrite lookup_insert_ne by exact Hk'.
Qed.

(** *** Escaping *)

Lemma escapeHtml_escape_each str : escapeHtml str = escape_each str.
Proof.
  unfold escapeHtml. induction str as [| c rest IH]; [reflexivity |].
  cbn [replace_class escape_each]. rewrite IH. f_equal.
  unfold special, entity, escaped.
  destruct (Ascii.eqb c "&"); [reflexivity |].
  destruct (Ascii.eqb c "<"); [reflexivity |].
  destruct (Ascii.eqb c ">"); [reflexivity |].
  destruct (Ascii.eqb c quot); [reflexivity |].
  destruct (Ascii.eqb c apos); reflexivity.
Qed.

Lemma all_chars_app P a b :
  all_chars P (a ++ b) = all_chars P a && all_chars P b.
Proof.
  unfold all_chars. induction a as [| c a IH]; [reflexivity |].
  change (P c && forallb P (list_ascii_of_string (a ++ b))
          = P c && forallb P (list_ascii_of_string a) && forallb P (list_ascii_of_string b)).
  rewrite IH. apply andb_assoc.
Qed.

Lemma escaped_harmless c : all_chars harmless (escaped c) = true.
Proof.
  unfold escaped, harmless.
  destruct (Ascii.eqb c "&"); [reflexivity |].
  destruct (Ascii.eqb c "<") eqn:H1; [reflexivity |].
  destruct (Ascii.eqb c ">") eqn:H2; [reflexivity |].
  destruct (Ascii.eqb c quot) eqn:H3; [reflexivity |].
  destruct (Ascii.eqb c apos) eqn:H4; [reflexivity |].
  cbn. now rewrite H1, H2, H3, H4.
Qed.

Lemma escapeHtml_harmless str : all_chars harmless (escapeHtml str) = true.
Proof.
  rewrite escapeHtml_escape_each.
  induction str as [| c rest IH]; [reflexivity |].
  cbn [escape_each]. now rewrite all_chars_app, escaped_harmless, IH.
Qed.

(** C9: [escapeHtml] replaces each of the five characters by its
    entity and leaves every other character as it is; its result holds
    none of the characters less-than, greater-than, double quote and
    apostrophe; and the page GET /p/:id sends for a paste shows, between
    its pre tags, [escapeHtml] of the stored content. *)
Theorem escapeHtml_entities :
  (forall str, escapeHtml str = escape_each str) /\
  (forall str, all_chars harmless (escapeHtml str) = true) /\
  (forall src e req s r pg,
      fst (serve (get_p src) e req s) = Some r ->
      sent r = html_page pg ->
      exists stored,
        record s (params_id req) !! "content" = Some stored /\
        pre pg = escapeHtml stored /\
        all_chars harmless (pre pg) = true).
Proof.
  split; [exact escapeHtml_escape_each |]. split; [exact escapeHtml_harmless |].
  intros src e req s r pg. rewrite (serve_get src view). unfold retrieval.
  destruct (judge (now e req) (record s (params_id req))) eqn:Hj; cbn [fst];
    try (intros [= <-]; destruct src; discriminate).
  assert (exists stored, record s (params_id req) !! "content" = Some stored)
    as [stored Hc].
  { unfold judge in Hj. destruct (record s (params_id req) !! "content"); [eauto | discriminate]. }
  destruct (Redis.exec _ s) as [[n |] s']; cbn [fst].
  - unfold success. rewrite Hc. intros [= <-] [= <-]. cbn.
    exists stored. repeat split. apply escapeHtml_harmless.
  - destruct src; cbn; intros [= <-]; discriminate.
Qed.

(** *** The two endpoints *)

(** X24: the JSON and the HTML endpoint leave the same keyspace behind,
    and answer with the same status unless the paste has a time to
    live whose expiry is no valid Date. *)
Lemma endpoints_agree src e req s :
  let h := record s (params_id req) in
  snd (serve (get_api_paste src) e req s) = snd (serve (get_p src) e req s) /\
  (truthy (ttl h) = false \/ JsDate.Date (expiry h) <> JsDate.invalid_date ->
   status <$> fst (serve (get_api_paste src) e req s)
   = status <$> fst (serve (get_p src) e req s)).
Proof.
  cbn zeta. rewrite (serve_get src api), (serve_get src view). unfold retrieval.
  destruct (judge (now e req) (record s (params_id req))); try (split; reflexivity).
  destruct (Redis.exec _ s) as [[n |] s']; cbn [fst snd].
  - split; [reflexivity |]. unfold success. intros [-> | Hd]; [reflexivity |].
    destruct (truthy (ttl (record s (params_id req)))); [| reflexivity].
    destruct (JsDate.Date (expiry (record s (params_id req)))); [reflexivity |].
    now destruct Hd.
  - split; [reflexivity |]. intros _. now destruct src.
Qed.

(** C10 (fails on the code): for the paste stored by [long_lived] the
    two endpoints of server.js take the same decision and count the
    view alike, but GET /api/pastes/:id answers 500 where GET /p/:id
    answers 200 with the page. *)
Theorem endpoints_differ_on_long_lived :
  let s1 := snd (serve (post_pastes server_js) production long_lived Redis.empty) in
  let get := GET "3f2504e0" None in
  status <$> fst (serve (get_api_paste server_js) production get s1) = Some 500 /\
  status <$> fst (serve (get_p server_js) production get s1) = Some 200 /\
  snd (serve (get_api_paste server_js) production get s1)
  = snd (serve (get_p server_js) production get s1) /\
  (map_to_list <$>
     Redis.hashes (snd (serve (get_p server_js) production get s1)) !! "paste:3f2504e0")
  = Some [("content", "hello"); ("created_at", "1793592000000");
          ("max_views", ""); ("views", "1"); ("ttl_seconds", "8640000000000")].
Proof. cbn zeta. repeat split; vm_compute; reflexivity. Qed.

(** *** Create, then read *)

Lemma slice0_matches P n rest str :
  matches (repeat P n ++ rest) str = true ->
  String.length (slice0 n str) = n /\ all_chars P (slice0 n str) = true.
Proof.
  revert str. induction n as [| n IH]; intros str H; [now destruct str |].
  destruct str as [| c str]; [discriminate |].
  cbn in H. apply andb_true_iff in H as [Hc H].
  destruct (IH str H) as [Hlen Hall].
  cbn. rewrite Hlen. split; [reflexivity |].
  unfold all_chars in Hall. now rewrite Hc, Hall.
Qed.

(** X25: the id is the first eight characters of the UUID: eight
    hexadecimal digits. *)
Lemma new_id_shape e :
  uuid_v4_text (uuidv4 e) = true ->
  String.length (new_id e) = 8%nat /\ all_chars hex_digit (new_id e) = true.
Proof. apply slice0_matches. Qed.

(** X21: a valid request within the range of exact numbers creates a
    paste under that id, and as long as the paste is not expired and its expiry is an instant a Date can hold,
    the first retrieval returns the content trimmed. *)
Lemma create_then_read src e req s c T M :
  content req = text c -> trim c <> EmptyString ->
  limit (ttl_seconds req) T -> limit (max_views req) M ->
  modest e T M ->
  (forall Tz, T = Some Tz -> Z.abs (Date_now e + Tz * 1000) <= JsDate.max_time) ->
  exists url s',
    serve (post_pastes src) e req s
    = (Some {| status := 201; sent := json_created (new_id e) url |}, s') /\
    (forall e' req' t,
        params_id req' = new_id e ->
        now e' req' = Num t ->
        (forall Tz, T = Some Tz -> t < Date_now e + Tz * 1000) ->
        fst (serve (get_api_paste src) e' req' s')
        = Some {| status := 200;
                  sent := json_paste (trim c)
                            (Num <$> Policy.remaining (created e c T M) 1)
                            (Policy.expires_at (created e c T M)) |}).
Proof.
  intros Hc Hne HT HM _ Hrange.
  destruct (post_accepted src e req s c T M Hc Hne HT HM)
    as (url & s' & Hpost & Hst & _).
  pose proof (created_well_formed e c T M _ _ Hne HT HM) as Hwf.
  exists url, s'. split; [exact Hpost |].
  intros e' req' t Hid Hnow Ht. rewrite <- Hid in Hst.
  rewrite (serve_get src api), (retrieval_stored src e' req' s' _ _ Hst Hwf _ Hnow).
  rewrite (created_available e c T M _ _ HM Ht).
  cbn [fst outcome]. rewrite (success_api_stored src req' s' _ Hst Hwf).
  destruct T as [Tz |];
    cbn [Policy.expires_at created Policy.ttl_seconds Policy.created_at
           Policy.content Policy.views fmap option_fmap option_map];
    change (0 + 1) with 1; [| reflexivity].
  now rewrite (proj2 (Z.leb_le _ _) (Hrange Tz eq_refl)).
Qed.

(** C6 (fails on the code): the request [long_lived] has valid
    content and is answered 201 with the 8-character id 3f2504e0, but
    the retrieval that follows at once does not return the content:
    server.js answers 500, in part_000 the exception escapes. *)
Theorem long_lived_not_read_back :
  uuid_v4_text (uuidv4 production) = true /\
  (forall src,
      exists url,
        fst (serve (post_pastes src) production long_lived Redis.empty)
        = Some {| status := 201; sent := json_created "3f2504e0" url |}) /\
  fst (serve (get_api_paste server_js) production (GET "3f2504e0" None)
         (snd (serve (post_pastes server_js) production long_lived Redis.empty)))
  = Some {| status := 500; sent := json_error "Internal server error" |} /\
  fst (serve (get_api_paste part_000) production (GET "3f2504e0" None)
         (snd (serve (post_pastes part_000) production long_lived Redis.empty)))
  = None.
Proof.
  split; [reflexivity |]. split.
  - intros []; eexists; vm_compute; reflexivity.
  - split; vm_compute; reflexivity.
Qed.

End Claims.


(* ================================================================== *)
(** ** Concurrent retrievals                                            *)
(* ================================================================== *)

Section Concurrency.
Import JsString JsNumber JsValue Http Helpers Reading.

Lemma since_rewrite_snoc key log entry :
  since_rewrite key (log ++ [entry])%list =
  match entry.2 with
  | Redis.Granted k v =>
      if String.eqb k key then (since_rewrite key log ++ [v])%list
      else since_rewrite key log
  | Redis.Rewritten k =>
      if String.eqb k key then [] else since_rewrite key log
  end.
Proof. unfold since_rewrite. now rewrite foldl_app. Qed.

Lemma StronglySorted_snoc (l : list Z) y :
  StronglySorted Z.lt l -> Forall (fun x => x < y) l -> StronglySorted Z.lt (l ++ [y])%list.
Proof.
  induction 1 as [| x l Hl IH Hx]; intros Hy; cbn.
  - repeat constructor.
  - apply Forall_cons in Hy as [Hxy Hy]. constructor; [now apply IH |].
    apply Forall_app. split; [exact Hx | now constructor].
Qed.

(** What one served command does to the counter of [key]. *)
Lemma exec_counter {A : Type} (c : Redis.command A) s key :
  let '(r, s') := Redis.exec c s in
  match Redis.event_of c r with
  | None => counter_at s' key = counter_at s key
  | Some (Redis.Rewritten k) => k <> key -> counter_at s' key = counter_at s key
  | Some (Redis.Granted k v) =>
      (k <> key -> counter_at s' key = counter_at s key) /\
      (k = key ->
       exists n, counter_at s key = Some n /\ v = n + 1 /\ counter_at s' key = Some v)
  end.
Proof.
  destruct c as [k | k fields | k secs | k | k field n]; cbn -[String.eqb].
  - reflexivity.
  - intros Hk. unfold counter_at. cbn. now rewrite lookup_insert_ne.
  - unfold counter_at. now destruct (Redis.hashes s !! k).
  - intros Hk. unfold counter_at. cbn. now rewrite lookup_delete_ne.
  - destruct (match default ∅ (Redis.hashes s !! k) !! field with
              | Some v => Redis.integer_value v
              | None => Some 0
              end) as [v |] eqn:Hold; cbn -[String.eqb]; [| reflexivity].
    destruct (String.eqb_spec field "views") as [-> | Hf]; cbn -[String.eqb].
    + destruct (Z.eqb_spec n 1) as [-> | Hn].
      * split.
        -- intros Hk. unfold counter_at. cbn. now rewrite lookup_insert_ne.
        -- intros <-. exists v. unfold counter_at at 1. rewrite Hold.
           split; [reflexivity |]. split; [reflexivity |].
           unfold counter_at. cbn. rewrite !lookup_insert_eq. cbn.
           rewrite lookup_insert_eq. apply integer_value_toString.
      * intros Hk. unfold counter_at. cbn. now rewrite lookup_insert_ne.
    + intros Hk. unfold counter_at. cbn. now rewrite lookup_insert_ne.
Qed.

Lemma turn_climbing {R : Type} key i (cf : Async.config R) :
  climbing key cf -> climbing key (Async.turn i cf).
Proof.
  intros [Hsorted Hlast]. unfold Async.turn.
  destruct (Async.pool cf !! i) as [p |]; [| now split].
  destruct p as [r | | A c k]; cbn [Async.step];
    try (unfold climbing; cbn; rewrite app_nil_r; now split).
  pose proof (exec_counter c (Async.store cf) key) as Hexec.
  destruct (Redis.exec c (Async.store cf)) as [r s'].
  destruct (Redis.event_of c r) as [[k' v | k'] |]; unfold climbing; cbn [Async.log Async.store].
  - rewrite since_rewrite_snoc. cbn [snd].
    destruct Hexec as [Hne Heq].
    destruct (String.eqb_spec k' key) as [-> | Hk].
    + destruct (Heq eq_refl) as (n & Hn & -> & Hn').
      assert (Forall (fun x => x < n + 1) (since_rewrite key (Async.log cf))) as Hlt.
      { destruct (since_rewrite key (Async.log cf)) as [| x l] eqn:Hl; [constructor |].
        destruct Hlast as (n' & Hn'' & Hall); [discriminate |].
        rewrite Hn in Hn''. injection Hn'' as <-.
        eapply Forall_impl; [exact Hall |]. cbn. intros; lia. }
      split; [now apply StronglySorted_snoc |].
      intros _. exists (n + 1). split; [exact Hn' |].
      apply Forall_app. split; [| repeat constructor; lia].
      eapply Forall_impl; [exact Hlt |]. cbn. intros; lia.
    + rewrite (Hne Hk). now split.
  - rewrite since_rewrite_snoc. cbn [snd].
    destruct (String.eqb_spec k' key) as [-> | Hk].
    + split; [constructor | now intros []].
    + rewrite (Hexec Hk). now split.
  - rewrite app_nil_r, Hexec. now split.
Qed.

Lemma interleave_invariant {R : Type} (P : Async.config R -> Prop) schedule cf :
  (forall i cf, P cf -> P (Async.turn i cf)) ->
  P cf -> P (Async.interleave schedule cf).
Proof.
  intros Hturn. unfold Async.interleave. revert cf.
  induction schedule as [| i schedule IH]; intros cf Hcf; [exact Hcf |].
  cbn. apply IH, Hturn, Hcf.
Qed.

(** Whatever the handlers in flight and however Redis takes turns, the
    positions granted on a key since its hash was last rewritten are
    strictly increasing. *)
Lemma positions_climb {R : Type} key schedule (threads : list (Async.prog R)) s :
  StronglySorted Z.lt
    (since_rewrite key (Async.log (Async.interleave schedule (Async.start threads s)))).
Proof.
  apply (interleave_invariant (climbing key)).
  - intros i cf. apply turn_climbing.
  - split; [constructor | now intros []].
Qed.

Lemma writes_false_no_event {A : Type} (c : Redis.command A) r :
  writes c = false -> Redis.event_of c r = None.
Proof. now destruct c. Qed.

Lemma sum_list_insert_pred (bs : list nat) i n :
  bs !! i = Some (S n) -> (total (<[i := n]> bs) + 1 = total bs)%nat.
Proof.
  revert i. induction bs as [| b bs IH]; intros [| i]; simpl; try discriminate.
  - intros [= ->]. lia.
  - intros H. specialize (IH i H). lia.
Qed.

Lemma turn_budgeted {R : Type} N i (cf : Async.config R) :
  budgeted N cf -> budgeted N (Async.turn i cf).
Proof.
  intros (bs & Hbs & Hsum). unfold Async.turn.
  destruct (Async.pool cf !! i) as [p |] eqn:Hp; [| now exists bs].
  destruct (Forall2_lookup_r _ _ _ _ _ Hbs Hp) as (n & Hn & Hwithin).
  destruct p as [r | | A c k]; cbn [Async.step].
  - exists bs. cbn. rewrite app_nil_r, list_insert_id by exact Hp. now split.
  - exists bs. cbn. rewrite app_nil_r, list_insert_id by exact Hp. now split.
  - destruct (Redis.exec c (Async.store cf)) as [r s'] eqn:Hexec.
    cbn [within] in Hwithin. destruct (writes c) eqn:Hw.
    + destruct n as [| n']; [now destruct Hwithin |].
      exists (<[i := n']> bs). cbn [Async.pool Async.log]. split.
      * apply Forall2_insert; [exact Hbs | apply Hwithin].
      * pose proof (sum_list_insert_pred bs i n' Hn).
        rewrite length_app. destruct (Redis.event_of c r); cbn [length]; lia.
    + exists bs. cbn [Async.pool Async.log]. split.
      * rewrite <- (list_insert_id bs i n Hn).
        apply Forall2_insert; [exact Hbs | apply Hwithin].
      * rewrite (writes_false_no_event c r Hw), app_nil_r. exact Hsum.
Qed.

Ltac walk_program :=
  repeat first
    [ exact I
    | reflexivity
    | progress cbn [within quiet writes rewrites Async.try_catch Async.await respond
                    String.eqb Ascii.eqb Bool.eqb andb negb Z.eqb Pos.eqb]
    | match goal with
      | |- forall _, _ => intro
      | |- _ /\ _ => split
      | |- context [match ?x with _ => _ end] => destruct x
      end ].

(** A retrieval writes at most once. *)
Lemma retrieval_within src ep e req : within 1 (get src ep e req).
Proof.
  destruct src, ep;
    unfold get, get_api_paste, get_p, Server.get_api_paste, Server.get_p,
      Part000.get_api_paste, Part000.get_p;
    walk_program.
Qed.

(** A retrieval of part_000 never rewrites a hash. *)
Lemma part_000_quiet ep e req : quiet (get part_000 ep e req).
Proof.
  destruct ep;
    unfold get, get_api_paste, get_p, Part000.get_api_paste, Part000.get_p;
    walk_program.
Qed.

Lemma since_rewrite_all_grants key log :
  Forall is_grant log -> since_rewrite key log = granted key log.
Proof.
  unfold since_rewrite.
  enough (forall acc, Forall is_grant log ->
            foldl (fun acc entry =>
                     match entry.2 with
                     | Redis.Granted k v =>
                         if String.eqb k key then (acc ++ [v])%list else acc
                     | Redis.Rewritten k => if String.eqb k key then [] else acc
                     end) acc log
            = (acc ++ granted key log)%list) as H by (intros; now apply (H [])).
  induction log as [| [i [k v | k]] log IH]; intros acc Hall.
  - cbn. now rewrite app_nil_r.
  - apply Forall_cons in Hall as [_ Hall]. cbn -[String.eqb].
    rewrite IH by exact Hall.
    destruct (String.eqb k key); [| reflexivity].
    now rewrite <- app_assoc.
  - apply Forall_cons in Hall as [[] _].
Qed.

Lemma quiet_event {A : Type} (c : Redis.command A) r i :
  rewrites c = false ->
  Forall is_grant match Redis.event_of c r with Some ev => [(i, ev)] | None => [] end.
Proof.
  destruct c as [k | k fields | k secs | k | k field n]; cbn -[String.eqb];
    try discriminate; try constructor.
  intros Hf%negb_false_iff. rewrite Hf.
  destruct r; repeat constructor.
Qed.

Lemma turn_hushed {R : Type} i (cf : Async.config R) :
  hushed cf -> hushed (Async.turn i cf).
Proof.
  intros [Hpool Hlog]. unfold Async.turn.
  destruct (Async.pool cf !! i) as [p |] eqn:Hp; [| now split].
  pose proof (Forall_lookup_1 _ _ _ _ Hpool Hp) as Hq.
  destruct p as [r | | A c k]; cbn [Async.step].
  - split; cbn; [now rewrite list_insert_id | now rewrite app_nil_r].
  - split; cbn; [now rewrite list_insert_id | now rewrite app_nil_r].
  - destruct (Redis.exec c (Async.store cf)) as [r s'].
    destruct Hq as [Hc Hk]. split; cbn [Async.pool Async.log].
    + apply Forall_insert; [exact Hpool | apply Hk].
    + apply Forall_app. split; [exact Hlog | now apply quiet_event].
Qed.

Lemma few_grants_climb key (log : list (nat * Redis.event)) :
  (length log <= 2)%nat ->
  StronglySorted Z.lt (since_rewrite key log) ->
  StronglySorted Z.lt (granted key log).
Proof.
  destruct log as [| [i [k v | k]] [| [j [k' v' | k']] [| ? ?]]];
    cbn -[String.eqb]; intros Hlen Hs; try lia;
    repeat match goal with
           | |- context [String.eqb ?a ?b] => destruct (String.eqb a b)
           | H : context [String.eqb ?a ?b] |- _ => destruct (String.eqb a b)
           end;
    cbn in *; try exact Hs; repeat constructor.
Qed.

(** C8 (as stated, fails on server.js): three retrievals of a paste
    with [max_views = 1] are in flight.  The first two read the record,
    the first is granted position 1, the third finds the paste exhausted
    and deletes it, and HINCRBY, which starts a missing counter from 0,
    grants position 1 to the second as well.  Both are answered 200. *)
Lemma third_retrieval_resets_positions :
  let one_view := POST (text "x") undefined (numeric (inject_Z 1)) in
  let s1 := snd (serve (post_pastes server_js) production one_view Redis.empty) in
  let retrieve := get_api_paste server_js production (GET "3f2504e0" None) in
  let cf := Async.interleave [0; 1; 0; 2; 2; 1]%nat
              (Async.start [retrieve; retrieve; retrieve] s1) in
  Async.log cf = [(0%nat, Redis.Granted "paste:3f2504e0" 1);
                  (2%nat, Redis.Rewritten "paste:3f2504e0");
                  (1%nat, Redis.Granted "paste:3f2504e0" 1)] /\
  Async.pool cf
  = [Async.Ret {| status := 200; sent := json_paste "x" (Some (Num 0)) None |};
     Async.Ret {| status := 200; sent := json_paste "x" (Some (Num 0)) None |};
     Async.Ret {| status := 404; sent := json_error "View limit exceeded" |}] /\
  granted "paste:3f2504e0" (Async.log cf) = [1; 1] /\
  ~ StronglySorted Z.lt (granted "paste:3f2504e0" (Async.log cf)).
Proof.
  cbn zeta.
  assert (Hlog :
    Async.log (Async.interleave [0; 1; 0; 2; 2; 1]%nat
      (Async.start
         [get_api_paste server_js production (GET "3f2504e0" None);
          get_api_paste server_js production (GET "3f2504e0" None);
          get_api_paste server_js production (GET "3f2504e0" None)]
         (snd (serve (post_pastes server_js) production
                 (POST (text "x") undefined (numeric (inject_Z 1))) Redis.empty))))
    = [(0%nat, Redis.Granted "paste:3f2504e0" 1);
       (2%nat, Redis.Rewritten "paste:3f2504e0");
       (1%nat, Redis.Granted "paste:3f2504e0" 1)]) by (vm_compute; reflexivity).
  split; [exact Hlog |]. split; [vm_compute; reflexivity |].
  rewrite Hlog. split; [reflexivity |].
  cbn. intros H. inversion H as [| ? ? _ Hall]. inversion Hall. lia.
Qed.

(** C8 (amended): Redis serves HINCRBY as one step, and the positions it
    grants on a paste are strictly increasing in the order granted, hence
    pairwise distinct,
    - for two retrievals in flight with no other client of Redis,
      whatever their endpoints, clocks and ids, in either file;
    - for any number of retrievals in flight in part_000;
    - in general, for any handlers in flight, among the positions
      granted since the hash of the paste was last deleted or rewritten. *)
Theorem positions_granted_climb :
  (forall src ep1 e1 req1 ep2 e2 req2 schedule s key,
      StronglySorted Z.lt
        (granted key
           (Async.log (Async.interleave schedule
              (Async.start [get src ep1 e1 req1; get src ep2 e2 req2] s))))) /\
  (forall (clients : list (endpoint * env * request)) schedule s key,
      StronglySorted Z.lt
        (granted key
           (Async.log (Async.interleave schedule
              (Async.start
                 (map (fun cl => get part_000 cl.1.1 cl.1.2 cl.2) clients) s))))) /\
  (forall (threads : list (Async.prog response)) schedule s key,
      StronglySorted Z.lt
        (since_rewrite key
           (Async.log (Async.interleave schedule (Async.start threads s))))).
Proof.
  split; [| split].
  - intros src ep1 e1 req1 ep2 e2 req2 schedule s key.
    apply few_grants_climb; [| apply positions_climb].
    assert (budgeted 2 (Async.interleave schedule
              (Async.start [get src ep1 e1 req1; get src ep2 e2 req2] s)))
      as (bs & _ & Hlen); [| lia].
    apply interleave_invariant; [intros i cf; apply turn_budgeted |].
    exists [1; 1]%nat. split; [| cbn; lia].
    repeat constructor; apply retrieval_within.
  - intros clients schedule s key.
    rewrite <- since_rewrite_all_grants; [apply positions_climb |].
    apply (interleave_invariant hushed); [intros i cf; apply turn_hushed |].
    split; [| constructor]. cbn [Async.start Async.pool].
    apply Forall_map, Forall_forall. intros cl _. apply part_000_quiet.
  - intros threads schedule s key. apply positions_climb.
Qed.

End Concurrency.

(* ================================================================== *)
(** ** The theorems at work                                             *)
(* ================================================================== *)

Section Witnesses.
Import JsString JsNumber JsValue Http Helpers Reading.

(** [max_views_countdown] at a paste with two views and an hour to
    live, read once by a client on the wall clock and once by a client
    with a test clock five milliseconds on. *)
Lemma max_views_countdown_witness :
  exists url s1 s2,
    serve (post_pastes server_js) production
      (POST (text "x") (numeric (inject_Z 3600)) (numeric (inject_Z 2))) Redis.empty
    = (Some {| status := 201; sent := json_created (new_id production) url |}, s1) /\
    serve_all (get_api_paste server_js)
      [(production, GET "3f2504e0" None);
       (testing, GET "3f2504e0" (Some "1793592000005"))] s1
    = (map (fun k => counted (trim "x") (2 - k)
                       (Policy.expires_at (created production "x" (Some 3600) (Some 2))))
           (seqZ 1 2), s2) /\
    (forall e' req',
        params_id req' = new_id production ->
        exists r, fst (serve (get_api_paste server_js) e' req' s2) = Some r /\ status r = 404).
Proof.
  apply (max_views_countdown server_js production
           (POST (text "x") (numeric (inject_Z 3600)) (numeric (inject_Z 2)))
           Redis.empty "x" (Some 3600) 2
           [(production, GET "3f2504e0" None);
            (testing, GET "3f2504e0" (Some "1793592000005"))]).
  - reflexivity.
  - discriminate.
  - constructor; [reflexivity | lia].
  - constructor; [reflexivity | lia].
  - repeat split; try (intros ? [= <-]); vm_compute; discriminate.
  - intros Tz [= <-]. vm_compute. discriminate.
  - repeat constructor.
    + exists 1793592000000. split; [reflexivity | reflexivity].
    + exists 1793592000005. split; [vm_compute; reflexivity | reflexivity].
  - reflexivity.
Defined.

(** [invalid_create_rejected] at [ttl_seconds = 1.5]. *)
Lemma invalid_create_rejected_witness :
  bad_limit (numeric (3 # 2)) /\
  exists msg,
    post_pastes server_js production (POST (text "hello") (numeric (3 # 2)) undefined)
    = Async.Ret {| status := 400; sent := json_error msg |} /\
    serve (post_pastes server_js) production
      (POST (text "hello") (numeric (3 # 2)) undefined) Redis.empty
    = (Some {| status := 400; sent := json_error msg |}, Redis.empty).
Proof.
  assert (bad_limit (numeric (3 # 2))) as Hbad.
  { split; [discriminate |]. intros q [= <-] z Hz%Qeq_inject_Z. cbn in Hz. lia. }
  split; [exact Hbad |].
  apply (invalid_create_rejected server_js production
           (POST (text "hello") (numeric (3 # 2)) undefined) Redis.empty).
  right. left. exact Hbad.
Defined.

(** [unavailable_answers_404] at a paste asked for when its two
    seconds are over. *)
Lemma unavailable_answers_404_witness :
  let s1 := snd (serve (post_pastes server_js) testing short_lived Redis.empty) in
  let req := GET "3f2504e0" (Some "1793592002000") in
  judge (now testing req) (record s1 (params_id req)) = Expired /\
  exists r,
    fst (serve (get server_js api) testing req s1) = Some r /\
    status r = 404 /\
    sent r = refusal server_js api (judge (now testing req) (record s1 (params_id req))) /\
    (forall v', v' <> Available -> refusal server_js api v' = sent r ->
                v' = judge (now testing req) (record s1 (params_id req))).
Proof.
  cbn zeta.
  assert (judge (now testing (GET "3f2504e0" (Some "1793592002000")))
            (record (snd (serve (post_pastes server_js) testing short_lived Redis.empty))
               (params_id (GET "3f2504e0" (Some "1793592002000")))) = Expired) as Hj
    by (vm_compute; reflexivity).
  split; [exact Hj |].
  apply (unavailable_answers_404 server_js api testing
           (GET "3f2504e0" (Some "1793592002000"))
           (snd (serve (post_pastes server_js) testing short_lived Redis.empty))).
  rewrite Hj. discriminate.
Defined.

(** The scenario of the specification for the time to live, on the
    clock of the server: a paste created with [ttl_seconds = 2] is read
    1999 ms later, with its expiry 2000 ms after creation, and is gone
    at 2000 ms. *)
Example two_seconds_to_live :
  let s1 := snd (serve (post_pastes server_js) testing short_lived Redis.empty) in
  let early := serve (get_api_paste server_js) testing
                 (GET "3f2504e0" (Some "1793592001999")) s1 in
  let late := serve (get_api_paste server_js) testing
                (GET "3f2504e0" (Some "1793592002000")) (snd early) in
  fst early = Some {| status := 200;
                      sent := json_paste "hello" None (Some 1793592002000) |} /\
  fst late = Some {| status := 404; sent := json_error "Paste expired" |} /\
  Redis.hashes (snd late) !! "paste:3f2504e0" = None.
Proof. repeat split; vm_compute; reflexivity. Qed.

(** The scenario for the view limit: [max_views = 2] gives the
    remaining views 1 and 0, and the third retrieval is refused. *)
Example two_views :
  let s1 := snd (serve (post_pastes server_js) production
                   (POST (text "x") undefined (numeric (inject_Z 2))) Redis.empty) in
  let get := (production, GET "3f2504e0" None) in
  fst (serve_all (get_api_paste server_js) [get; get; get] s1)
  = [ Some {| status := 200; sent := json_paste "x" (Some (Num 1)) None |};
      Some {| status := 200; sent := json_paste "x" (Some (Num 0)) None |};
      Some {| status := 404; sent := json_error "View limit exceeded" |} ].
Proof. vm_compute. reflexivity. Qed.

(** The page of a paste that holds a script tag. *)
Example script_tag_escaped :
  escapeHtml "<script>alert('x')</script>"
  = "&lt;script&gt;alert(&#39;x&#39;)&lt;/script&gt;".
Proof. reflexivity. Qed.

End Witnesses.

(* ================================================================== *)
(** ** Further properties of the code                                   *)
(* ================================================================== *)

Section Reconnecting.
Import ServerSetup.

Lemma waited_early (n : nat) :
  (n <= 31)%nat -> waited n = 50 * Z.of_nat n * (Z.of_nat n - 1).
Proof.
  induction n as [| n IH]; intros Hn; [reflexivity |].
  cbn [waited]. rewrite IH by lia. unfold reconnectStrategy.
  rewrite Z.min_l by lia. lia.
Qed.

(** X1: the reconnect delay of server.js is 100 ms per retry made so
    far, capped at 3000 ms from the 30th retry on; it never decreases
    and never exceeds 3 s.  A client that has reconnected n times in a
    row has waited 50 n (n - 1) ms when n <= 31 and
    46500 + 3000 (n - 31) ms after that. *)
Theorem reconnect_delay_capped (retries : Z) :
  0 <= retries ->
  0 <= reconnectStrategy retries <= 3000 /\
  (retries <= 30 -> reconnectStrategy retries = retries * 100) /\
  (30 <= retries -> reconnectStrategy retries = 3000) /\
  (forall later, retries <= later -> reconnectStrategy retries <= reconnectStrategy later) /\
  (forall n : nat,
      waited n = if (n <=? 31)%nat
                 then 50 * Z.of_nat n * (Z.of_nat n - 1)
                 else 46500 + 3000 * (Z.of_nat n - 31)).
Proof.
  intros Hr. unfold reconnectStrategy. repeat split; try lia.
  intros n. destruct (Nat.leb_spec n 31) as [Hn | Hn]; [now apply waited_early |].
  induction n as [| n IH]; [lia |].
  destruct (Nat.eq_dec n 31%nat) as [-> | Hne].
  - reflexivity.
  - cbn [waited]. rewrite IH by lia. unfold reconnectStrategy.
    rewrite Z.min_r by lia. lia.
Qed.

End Reconnecting.

Section Clock.
Import JsString JsNumber JsValue Http Helpers Reading.

(** X2: the x-test-now-ms header never reaches a creation, whose
    [created_at] is the wall clock in every mode, and outside test mode
    ([TEST_MODE] other than 1) it changes nothing about a retrieval
    either: answer and keyspace are those of the request without it. *)
Theorem test_clock_confined src e req s :
  (forall hdr,
      serve (post_pastes src) e (with_header req hdr) s
      = serve (post_pastes src) e req s) /\
  (TEST_MODE e <> Some "1" ->
   forall hdr ep,
     serve (get src ep) e (with_header req hdr) s = serve (get src ep) e req s).
Proof.
  split.
  - intros hdr. now destruct src.
  - intros Hmode hdr ep. rewrite !serve_get. unfold retrieval.
    assert (forall r, now e r = Num (Date_now e)) as Hnow.
    { intros r. unfold now. now rewrite bool_decide_eq_false_2. }
    rewrite !Hnow. reflexivity.
Qed.

(** X3: in test mode a header that holds the decimal numeral of a
    safe integer [t] sets the clock of the request to [t], and a
    missing or empty header leaves it at [Date.now()]. *)
Theorem test_clock_reads_header e req :
  TEST_MODE e = Some "1" ->
  (forall t,
      Z.abs t <= MAX_SAFE_INTEGER ->
      x_test_now_ms req = Some (toString t) -> now e req = Num t) /\
  (x_test_now_ms req = None \/ x_test_now_ms req = Some EmptyString ->
   now e req = Num (Date_now e)).
Proof.
  intros Hmode. unfold now. rewrite bool_decide_eq_true_2 by exact Hmode. split.
  - intros t _ ->. now rewrite truthy_toString, Number_toString.
  - now intros [-> | ->].
Qed.

Lemma foreign_letter_no_numeral c :
  foreign_letter c = true ->
  is_white_space c = false /\ numeral_char c || Ascii.eqb c "+" = false.
Proof.
  destruct c as [[] [] [] [] [] [] [] []]; vm_compute; intros H;
    first [split; reflexivity | discriminate H].
Qed.

Lemma existsb_trimStart (P : ascii -> bool) str :
  (forall c, P c = true -> is_white_space c = false) ->
  existsb P (list_ascii_of_string (trimStart str))
  = existsb P (list_ascii_of_string str).
Proof.
  intros HP. induction str as [| c str IH]; [reflexivity |].
  cbn [trimStart]. destruct (is_white_space c) eqn:Hc; [| reflexivity].
  rewrite IH. cbn [list_ascii_of_string existsb].
  destruct (P c) eqn:HPc; [| reflexivity].
  apply HP in HPc. congruence.
Qed.

Lemma existsb_trimEnd (P : ascii -> bool) str :
  (forall c, P c = true -> is_white_space c = false) ->
  existsb P (list_ascii_of_string (trimEnd str))
  = existsb P (list_ascii_of_string str).
Proof.
  intros HP. induction str as [| c str IH]; [reflexivity |].
  cbn [trimEnd list_ascii_of_string existsb]. rewrite <- IH.
  destruct (trimEnd str) as [| c' t]; [| reflexivity].
  cbn [list_ascii_of_string existsb]. rewrite orb_false_r.
  destruct (is_white_space c) eqn:Hc; [| cbn; apply orb_false_r].
  destruct (P c) eqn:HPc; [| reflexivity].
  apply HP in HPc. congruence.
Qed.

Lemma string_of_int_chars d : all_chars numeral_char (NilZero.string_of_int d) = true.
Proof.
  assert (forall u, all_chars numeral_char (NilZero.string_of_uint u) = true) as H.
  { intros u. destruct u; try apply (string_of_uint_chars (_ _)). reflexivity. }
  destruct d as [u | u]; [apply H |].
  change (numeral_char "-" && all_chars numeral_char (NilZero.string_of_uint u) = true).
  now rewrite H.
Qed.

(** A numeral the embedding reads holds nothing but a sign and digits. *)
Lemma parse_integer_chars t z :
  parse_integer t = Some z ->
  all_chars (fun c => numeral_char c || Ascii.eqb c "+") t = true.
Proof.
  assert (forall u, all_chars numeral_char u = true ->
                    all_chars (fun c => numeral_char c || Ascii.eqb c "+") u = true)
    as Hweak.
  { intros u. apply all_chars_impl. intros c ->. reflexivity. }
  destruct t as [| c t]; [reflexivity |].
  assert (parse_integer (String c t)
          = if Ascii.eqb c "+" then Z.of_uint <$> NilZero.uint_of_string t
            else Z.of_int <$> NilZero.int_of_string (String c t)) as ->
    by (destruct c as [[] [] [] [] [] [] [] []]; reflexivity).
  destruct (Ascii.eqb_spec c "+") as [-> | _].
  - destruct (NilZero.uint_of_string t) as [u |] eqn:Hu; [| discriminate].
    intros _. apply NilZero.sus in Hu. subst t.
    change (true && all_chars (fun c => numeral_char c || Ascii.eqb c "+")
                      (NilZero.string_of_uint u) = true).
    apply Hweak. destruct u; try apply (string_of_uint_chars (_ _)). reflexivity.
  - destruct (NilZero.int_of_string (String c t)) as [d |] eqn:Hd; [| discriminate].
    intros _. apply NilZero.sis in Hd. rewrite <- Hd.
    apply Hweak, string_of_int_chars.
Qed.

(** A header that holds a letter of no numeric literal is read as
    [NaN], by the embedding as by [Number]. *)
Lemma not_numeric_NaN str :
  not_numeric str = true ->
  JsString.truthy (Some str) = true /\ Number (Some str) = NaN.
Proof.
  unfold not_numeric. intros H. split; [now destruct str |].
  assert (existsb foreign_letter (list_ascii_of_string (trim str)) = true) as Ht.
  { unfold trim.
    rewrite existsb_trimEnd, existsb_trimStart; try exact H;
      intros c Hc; now apply foreign_letter_no_numeral. }
  unfold Number. destruct (trim str) as [| c t] eqn:Etrim; [discriminate |].
  destruct (parse_integer (String c t)) as [z |] eqn:Hp; [| reflexivity].
  apply parse_integer_chars in Hp. unfold all_chars in Hp.
  apply existsb_exists in Ht as (x & Hin & Hx).
  rewrite forallb_forall in Hp. specialize (Hp x Hin).
  apply foreign_letter_no_numeral in Hx as [_ Hx]. congruence.
Qed.

(** Under a clock that reads NaN the comparison with the expiry is
    false, whatever the record. *)
Lemma NaN_clock_judged e req :
  now e req = NaN ->
  (forall h, judge (now e req) h <> Expired) /\
  (forall src ep s r,
      fst (serve (get src ep) e req s) = Some r ->
      sent r <> refusal src ep Expired).
Proof.
  intros Hnow.
  assert (forall h, judge (now e req) h <> Expired) as Hj.
  { intros h. rewrite Hnow. unfold judge, expired.
    destruct (h !! "content") as [[| c0 c] |]; try discriminate.
    cbn [ge]. rewrite andb_false_r. now destruct (exhausted h). }
  split; [exact Hj |].
  intros src ep s r. rewrite serve_get. unfold retrieval.
  specialize (Hj (record s (params_id req))).
  destruct (judge (now e req) (record s (params_id req))) eqn:Hv;
    try (now destruct Hj); cbn [fst].
  - intros [= <-]. destruct src, ep; discriminate.
  - intros [= <-]. destruct src, ep; discriminate.
  - destruct (Redis.exec _ s) as [[n |] s']; cbn [fst].
    + unfold success. destruct ep.
      * destruct (truthy (ttl (record s (params_id req)))).
        -- destruct (JsDate.toISOString _).
           ++ intros [= <-]. destruct src; discriminate.
           ++ destruct src; cbn; intros [= <-]; discriminate.
        -- intros [= <-]. destruct src; discriminate.
      * intros [= <-]. destruct src; discriminate.
    + destruct src, ep; cbn; intros [= <-]; discriminate.
Qed.

(** X4: in test mode a header that holds a letter of no numeric
    literal (any letter but the hexadecimal digits, the x, o, b of a
    radix prefix, the e of an exponent and the letters of Infinity)
    makes the clock of the request NaN, and under that clock no paste
    is ever found expired: whatever the record, the verdict is not
    Expired and no retrieval is answered with the refusal for expiry,
    however long ago the time to live ran out. *)
Theorem NaN_clock_never_expires e req hdr :
  TEST_MODE e = Some "1" ->
  x_test_now_ms req = Some hdr ->
  not_numeric hdr = true ->
  now e req = NaN /\
  (forall h, judge (now e req) h <> Expired) /\
  (forall src ep s r,
      fst (serve (get src ep) e req s) = Some r ->
      sent r <> refusal src ep Expired).
Proof.
  intros Hmode Hhdr Hforeign.
  destruct (not_numeric_NaN hdr Hforeign) as [Htruthy HNaN].
  assert (now e req = NaN) as Hnow.
  { unfold now. rewrite bool_decide_eq_true_2 by exact Hmode.
    now rewrite Hhdr, Htruthy. }
  split; [exact Hnow |]. now apply NaN_clock_judged.
Qed.

End Clock.

Section Escaping.
Import JsString JsNumber JsValue Http Helpers Reading.

Lemma escape_each_app a b : escape_each (a ++ b) = escape_each a ++ escape_each b.
Proof.
  induction a as [| c a IH]; [reflexivity |].
  change (escape_each (String c (a ++ b)) = (escaped c ++ escape_each a) ++ escape_each b).
  change (escape_each (String c (a ++ b))) with (escaped c ++ escape_each (a ++ b)).
  rewrite IH.
  generalize (escaped c) as x. intros x.
  induction x as [| d x IHx]; [reflexivity |].
  change (String d (x ++ escape_each a ++ escape_each b)
          = String d ((x ++ escape_each a) ++ escape_each b)).
  now f_equal.
Qed.

Lemma length_append (a b : string) :
  String.length (a ++ b) = (String.length a + String.length b)%nat.
Proof. induction a as [| c a IH]; [reflexivity |]. simpl. now f_equal. Qed.

Lemma escaped_length c :
  (1 <= String.length (escaped c) <= 6)%nat /\
  (special c = true -> (4 <= String.length (escaped c))%nat) /\
  (special c = false -> escaped c = String c EmptyString).
Proof.
  unfold escaped, special.
  destruct (Ascii.eqb c "&"); [cbn; repeat split; try lia; discriminate |].
  destruct (Ascii.eqb c "<"); [cbn; repeat split; try lia; discriminate |].
  destruct (Ascii.eqb c ">"); [cbn; repeat split; try lia; discriminate |].
  destruct (Ascii.eqb c quot); [cbn; repeat split; try lia; discriminate |].
  destruct (Ascii.eqb c apos); cbn; repeat split; try lia; discriminate.
Qed.

Lemma escape_each_length str :
  (String.length str <= String.length (escape_each str) <= 6 * String.length str)%nat.
Proof.
  induction str as [| c str IH]; [cbn; lia |].
  cbn [escape_each String.length]. rewrite length_append.
  pose proof (escaped_length c) as (Hc & _). lia.
Qed.

(** X5: [escapeHtml] works piece by piece: escaping a concatenation
    is concatenating the escaped parts, so text assembled from escaped
    pieces is escaped text; and the result is at least as long as the
    input and at most six times as long. *)
Theorem escapeHtml_piecewise :
  (forall a b, escapeHtml (a ++ b) = escapeHtml a ++ escapeHtml b) /\
  (forall str,
      (String.length str <= String.length (escapeHtml str) <= 6 * String.length str)%nat).
Proof.
  split.
  - intros a b. rewrite !escapeHtml_escape_each. apply escape_each_app.
  - intros str. rewrite escapeHtml_escape_each. apply escape_each_length.
Qed.

Lemma unescape_escaped c rest :
  unescape_from O (escaped c ++ rest) = String c (unescape_from O rest).
Proof.
  unfold escaped.
  destruct (Ascii.eqb_spec c "&") as [-> | H1]; [now destruct rest |].
  destruct (Ascii.eqb_spec c "<") as [-> | H2]; [now destruct rest |].
  destruct (Ascii.eqb_spec c ">") as [-> | H3]; [now destruct rest |].
  destruct (Ascii.eqb_spec c quot) as [-> | H4]; [now destruct rest |].
  destruct (Ascii.eqb_spec c apos) as [-> | H5]; [now destruct rest |].
  change (unescape_from O (String c rest) = String c (unescape_from O rest)).
  cbn [unescape_from].
  destruct (Ascii.eqb_spec c "&"); [contradiction | reflexivity].
Qed.

Lemma unescapeHtml_escapeHtml str : unescapeHtml (escapeHtml str) = str.
Proof.
  rewrite escapeHtml_escape_each. unfold unescapeHtml.
  induction str as [| c str IH]; [reflexivity |].
  cbn [escape_each]. now rewrite unescape_escaped, IH.
Qed.

(** X6: nothing is lost by escaping: reading the entities back gives
    the original text, so two different contents never render alike. *)
Theorem escapeHtml_read_back :
  (forall str, unescapeHtml (escapeHtml str) = str) /\
  (forall a b, escapeHtml a = escapeHtml b -> a = b).
Proof.
  split; [exact unescapeHtml_escapeHtml |].
  intros a b H.
  now rewrite <- (unescapeHtml_escapeHtml a), <- (unescapeHtml_escapeHtml b), H.
Qed.

Lemma plain_fixed str : plain str = true -> escape_each str = str.
Proof.
  unfold plain, all_chars. induction str as [| c str IH]; [reflexivity |].
  cbn. intros H. apply andb_true_iff in H as [Hc Hs].
  apply negb_true_iff in Hc. pose proof (escaped_length c) as (_ & _ & He).
  now rewrite (He Hc), (IH Hs).
Qed.

Lemma not_plain_longer str :
  plain str = false -> (String.length str < String.length (escape_each str))%nat.
Proof.
  unfold plain, all_chars. induction str as [| c str IH]; [discriminate |].
  cbn [list_ascii_of_string forallb escape_each String.length].
  rewrite length_append. intros H.
  pose proof (escaped_length c) as (Hc & Hsp & _).
  pose proof (escape_each_length str) as [Hlen _].
  destruct (special c) eqn:Hs; [specialize (Hsp eq_refl); lia |].
  cbn in H. specialize (IH H). lia.
Qed.

Lemma not_plain_escaped str : plain str = false -> plain (escape_each str) = false.
Proof.
  unfold plain. induction str as [| c str IH]; [discriminate |].
  cbn [escape_each]. rewrite all_chars_app.
  unfold all_chars at 1. cbn [list_ascii_of_string forallb].
  destruct (special c) eqn:Hs.
  - intros _. apply andb_false_iff. left.
    unfold escaped, special in *.
    destruct (Ascii.eqb c "&"); [reflexivity |].
    destruct (Ascii.eqb c "<"); [reflexivity |].
    destruct (Ascii.eqb c ">"); [reflexivity |].
    destruct (Ascii.eqb c quot); [reflexivity |].
    destruct (Ascii.eqb c apos); [reflexivity | discriminate].
  - cbn. intros H. rewrite (IH H). apply andb_false_r.
Qed.

(** X7: [escapeHtml] leaves a text as it is exactly when the text
    holds none of the five characters; and since every entity starts
    with an ampersand, escaping an escaped text changes it again, unless
    there was nothing to escape: escaping twice is not escaping once. *)
Theorem escapeHtml_fixed_points str :
  (escapeHtml str = str <-> plain str = true) /\
  (escapeHtml (escapeHtml str) = escapeHtml str <-> plain str = true).
Proof.
  rewrite !escapeHtml_escape_each.
  assert (forall t, escape_each t = t <-> plain t = true) as Hfix.
  { intros t. split; [| apply plain_fixed].
    intros H. destruct (plain t) eqn:Hp; [reflexivity |].
    apply not_plain_longer in Hp. rewrite H in Hp. lia. }
  split; [apply Hfix |].
  rewrite Hfix. split.
  - intros H. destruct (plain str) eqn:Hp; [reflexivity |].
    apply not_plain_escaped in Hp. congruence.
  - intros H. now rewrite (plain_fixed str H).
Qed.

End Escaping.

Section Creating.
Import JsString JsNumber JsValue Http Helpers Reading.

Lemma rejects_content_inv v :
  rejects_content v = false -> exists c, v = text c /\ trim c <> EmptyString.
Proof.
  unfold rejects_content.
  destruct v as [| | b | q | | c |]; cbn [falsy is_string negb orb];
    rewrite ?orb_true_r; try discriminate.
  intros H. exists c. split; [reflexivity |]. intros Hc.
  cbn [string_of] in H. rewrite Hc in H. cbn in H.
  now rewrite orb_true_r in H.
Qed.

Lemma rejects_limit_inv v :
  rejects_limit v = false -> exists o, limit v o.
Proof.
  unfold rejects_limit.
  destruct v as [| | b | q | | c |]; cbn [defined isInteger andb negb orb];
    try discriminate.
  - intros _. exists None. constructor.
  - intros H. apply orb_false_iff in H as [Hi Hlt]. apply negb_false_iff in Hi.
    apply (isInteger_spec q) in Hi as [z Hz].
    rewrite (lt_1_integer q z Hz) in Hlt. apply Z.ltb_ge in Hlt.
    exists (Some z). now constructor.
Qed.

Lemma rejects_content_true v : rejects_content v = true -> bad_content v.
Proof.
  intros H c ->. destruct (string_dec (trim c) EmptyString) as [| Hne]; [assumption |].
  now rewrite (rejects_content_good c Hne) in H.
Qed.

Lemma rejects_limit_true v : rejects_limit v = true -> bad_limit v.
Proof.
  intros H. split.
  - intros ->. discriminate.
  - intros q -> z Hz. destruct (Z.ltb_spec z 1) as [| Hge]; [assumption |].
    now rewrite (rejects_limit_good (numeric q) (Some z) (limit_integer q z Hz Hge)) in H.
Qed.

(** X8: every creation request is either invalid, and then answered
    400 with the keyspace untouched, or valid: its content is a string
    with something besides white space and each limit is absent or an
    integer at least 1; and a valid request within the range of exact
    numbers is answered 201 with the new id.  Within that range the
    [catch] block of the handler of server.js is not entered as long as
    Redis replies, and the handler of part_000, which has none, always
    answers. *)
Theorem creation_decided src e req s :
  (exists c T M,
      content req = text c /\ trim c <> EmptyString /\
      limit (ttl_seconds req) T /\ limit (max_views req) M /\
      (modest e T M ->
       exists url s',
         serve (post_pastes src) e req s
         = (Some {| status := 201; sent := json_created (new_id e) url |}, s'))) \/
  ((bad_content (content req) \/ bad_limit (ttl_seconds req)
    \/ bad_limit (max_views req)) /\
   exists msg,
     serve (post_pastes src) e req s
     = (Some {| status := 400; sent := json_error msg |}, s)).
Proof.
  destruct (rejects_content (content req)) eqn:Hc;
    [| destruct (rejects_limit (ttl_seconds req)) eqn:HT;
       [| destruct (rejects_limit (max_views req)) eqn:HM]].
  4: { left. apply rejects_content_inv in Hc as (c & Hc & Hne).
       apply rejects_limit_inv in HT as [T HT].
       apply rejects_limit_inv in HM as [M HM].
       destruct (post_accepted src e req s c T M Hc Hne HT HM) as (url & s' & Hpost & _).
       exists c, T, M. repeat split; try assumption. intros _. eauto. }
  all: right; split;
    [ auto using rejects_content_true, rejects_limit_true
    | destruct (post_rejected src e req) as [msg Hmsg];
      [ rewrite Hc, ?HT, ?HM; cbn; rewrite ?orb_true_r; reflexivity
      | exists msg; unfold serve; now rewrite Hmsg ] ].
Qed.

Lemma prefix_append n b : String.prefix n (n ++ b) = true.
Proof.
  induction n as [| c n IH]; [now destruct b |].
  simpl. now destruct (ascii_dec c c).
Qed.

Lemma prefix_inv n s : String.prefix n s = true -> exists b, s = n ++ b.
Proof.
  revert s. induction n as [| c n IH]; intros s H; [now exists s |].
  destruct s as [| c' s]; [discriminate |]. simpl in H.
  destruct (ascii_dec c c') as [<- |]; [| discriminate].
  destruct (IH s H) as [b ->]. now exists b.
Qed.

(** [includes] finds the needle wherever it stands, and only then. *)
Lemma includes_spec needle s :
  includes needle s = true <-> exists a b, s = a ++ needle ++ b.
Proof.
  split.
  - induction s as [| c s IH]; cbn [includes]; intros H.
    + rewrite orb_false_r in H. apply prefix_inv in H as [b Hb]. now exists EmptyString, b.
    + apply orb_true_iff in H as [H | H].
      * apply prefix_inv in H as [b Hb]. now exists EmptyString, b.
      * destruct (IH H) as (a & b & ->). now exists (String c a), b.
  - intros (a & b & ->). induction a as [| c a IH].
    + change (EmptyString ++ needle ++ b) with (needle ++ b).
      destruct (needle ++ b) eqn:E; cbn [includes]; rewrite <- E, prefix_append;
        reflexivity.
    + change (String c a ++ needle ++ b) with (String c (a ++ needle ++ b)).
      cbn [includes]. rewrite IH. apply orb_true_r.
Qed.

(** What an accepted creation answers and registers, as the handlers
    compute it. *)
Lemma post_answer src e req s c T M :
  content req = text c -> trim c <> EmptyString ->
  limit (ttl_seconds req) T -> limit (max_views req) M ->
  fst (serve (post_pastes src) e req s)
  = Some {| status := 201;
            sent := json_created (new_id e)
              (match src with
               | server_js =>
                   (if match host req with
                       | Some h => includes "localhost" h
                       | None => false
                       end
                    then "http://localhost:3000"
                    else "https://" ++ default "undefined" (host req))
                   ++ "/p/" ++ new_id e
               | part_000 => "http://localhost:3000/p/" ++ new_id e
               end) |} /\
  Redis.expires (snd (serve (post_pastes src) e req s))
  = match src, T with
    | server_js, Some Tz => <[key_of (new_id e) := Tz]> (Redis.expires s)
    | _, _ => Redis.expires s
    end.
Proof.
  intros Hc Hne HT HM. unfold serve.
  assert (Hfields :
    redis_fields
      [("content", text (trim (string_of (content req))));
       ("created_at", numeric (inject_Z (Date_now e)));
       ("ttl_seconds", nullish_or (ttl_seconds req) (text ""));
       ("max_views", nullish_or (max_views req) (text ""));
       ("views", numeric (inject_Z 0))]
    = Some [("content", trim c);
            ("created_at", toString (Date_now e));
            ("ttl_seconds", Policy.limit_field T);
            ("max_views", Policy.limit_field M);
            ("views", toString 0)]).
  { unfold redis_fields. cbn [mapM].
    rewrite (redis_arg_limit _ _ HT), (redis_arg_limit _ _ HM), Hc.
    cbn [redis_arg string_of].
    now rewrite !(to_Z_integer _ _ (Qeq_refl _)). }
  assert (HTz : forall Tz, T = Some Tz -> integer (ttl_seconds req) = Tz).
  { intros Tz ->. inversion HT as [| q z Hz Hge]; subst. cbn.
    now apply to_Z_integer. }
  destruct src; unfold post_pastes, Server.post_pastes, Part000.post_pastes;
    fold (rejects_content (content req));
    fold (rejects_limit (ttl_seconds req));
    fold (rejects_limit (max_views req));
    rewrite (rejects_limit_good _ _ HT), (rejects_limit_good _ _ HM), Hc,
      (rejects_content_good c Hne);
    cbn [orb]; rewrite <- Hc; fold (new_id e); fold (key_of (new_id e));
    unfold await_hSet; rewrite Hfields; step_handler.
  - rewrite (falsy_limit _ _ HT).
    destruct T as [T |]; cbn [bool_decide decide_rel is_Some_dec]; cbn.
    + rewrite lookup_insert_eq. cbn. rewrite (HTz T eq_refl). split; reflexivity.
    + split; reflexivity.
  - cbn. split; [reflexivity | now destruct T].
Qed.

(** X9: the link handed out for a paste created within the range of
    exact numbers always ends in [/p/] and the new id.  server.js answers with the local address whenever the
    Host header mentions [localhost] anywhere, with [https://] and the
    Host header as sent when it does not, and with the host
    [undefined] when the header is missing; part_000 answers with the
    local address whoever asks. *)
Theorem created_url src e req s c T M :
  content req = text c -> trim c <> EmptyString ->
  limit (ttl_seconds req) T -> limit (max_views req) M ->
  modest e T M ->
  (forall a b,
      fst (serve (post_pastes src) e (from_host req (Some (a ++ "localhost" ++ b))) s)
      = Some {| status := 201;
                sent := json_created (new_id e)
                          ("http://localhost:3000/p/" ++ new_id e) |}) /\
  (forall h,
      (forall a b, h <> a ++ "localhost" ++ b) ->
      fst (serve (post_pastes src) e (from_host req (Some h)) s)
      = Some {| status := 201;
                sent := json_created (new_id e)
                          (match src with
                           | server_js => "https://" ++ h ++ "/p/" ++ new_id e
                           | part_000 => "http://localhost:3000/p/" ++ new_id e
                           end) |}) /\
  fst (serve (post_pastes src) e (from_host req None) s)
  = Some {| status := 201;
            sent := json_created (new_id e)
                      (match src with
                       | server_js => "https://undefined/p/" ++ new_id e
                       | part_000 => "http://localhost:3000/p/" ++ new_id e
                       end) |}.
Proof.
  intros Hc Hne HT HM _.
  assert (forall h,
    fst (serve (post_pastes src) e (from_host req h) s)
    = Some {| status := 201;
              sent := json_created (new_id e)
                (match src with
                 | server_js =>
                     (if match h with
                         | Some h => includes "localhost" h
                         | None => false
                         end
                      then "http://localhost:3000"
                      else "https://" ++ default "undefined" h)
                     ++ "/p/" ++ new_id e
                 | part_000 => "http://localhost:3000/p/" ++ new_id e
                 end) |}) as Hurl.
  { intros h. apply (post_answer src e (from_host req h) s c T M); assumption. }
  repeat split.
  - intros a b. rewrite Hurl.
    rewrite (proj2 (includes_spec "localhost" (a ++ "localhost" ++ b))) by eauto.
    now destruct src.
  - intros h Hh. rewrite Hurl.
    destruct (includes "localhost" h) eqn:Hi.
    + apply includes_spec in Hi as (a & b & ->). now destruct (Hh a b).
    + now destruct src.
  - rewrite Hurl. now destruct src.
Qed.

(** X10: the time to live is handed to Redis by server.js only: a
    creation within the range of exact numbers that is accepted with
    [ttl_seconds = T] registers EXPIRE of T seconds on the new key, a creation without time to live registers
    nothing, and part_000 never registers any.  No creation touches
    the time to live of another key. *)
Theorem expire_registered src e req s c T M :
  content req = text c -> trim c <> EmptyString ->
  limit (ttl_seconds req) T -> limit (max_views req) M ->
  modest e T M ->
  let s' := snd (serve (post_pastes src) e req s) in
  Redis.expires s' !! key_of (new_id e)
  = match src, T with
    | server_js, Some Tz => Some Tz
    | _, _ => Redis.expires s !! key_of (new_id e)
    end /\
  (forall k, k <> key_of (new_id e) -> Redis.expires s' !! k = Redis.expires s !! k).
Proof.
  intros Hc Hne HT HM _ s'. subst s'.
  destruct (post_answer src e req s c T M Hc Hne HT HM) as [_ ->].
  destruct src, T as [Tz |]; split; try reflexivity.
  - apply lookup_insert_eq.
  - intros k Hk. now apply lookup_insert_ne.
Qed.

End Creating.

Section Viewing.
Import JsString JsNumber JsValue Http Helpers Reading.

(** The page of an available paste. *)
Lemma success_view_stored src id h p n :
  Policy.stores h p -> Policy.well_formed p ->
  success src view id h n
  = Some {| status := 200;
            sent := html_page
              {| title_id := match src with server_js => Some id | part_000 => None end;
                 pre := escapeHtml (Policy.content p);
                 views_shown := Num n;
                 of_max_views := Num <$> Policy.max_views p;
                 expires_shown :=
                   match src with
                   | server_js =>
                       Some ((fun x => JsDate.toLocaleString (JsDate.Date (Num x)))
                               <$> Policy.expires_at p)
                   | part_000 => None
                   end |} |}.
Proof.
  intros Hst Hwf. unfold success, Policy.expires_at.
  rewrite (stored_maxViews _ _ Hst), (stored_ttl _ _ Hst).
  pose proof Hst as (Hc & _). pose proof Hwf as (_ & HT & HM). rewrite Hc. cbn [default].
  rewrite !truthy_limit by assumption.
  do 3 f_equal. unfold Datatypes.id.
  destruct (Policy.ttl_seconds p) as [T |] eqn:HTp, (Policy.max_views p);
    cbn; rewrite ?(stored_expiry _ _ Hst T HTp); reflexivity.
Qed.

(** X11: the page under the link of a paste created within the range
    of exact numbers shows, until the time to live is over, the trimmed content escaped, from which the
    content reads back character by character, with the view counted
    as the first and the limit as given.  This holds for every valid
    time to live, also for one beyond the range of a Date, which the
    page of server.js shows as an invalid date. *)
Theorem create_then_view src e req s c T M :
  content req = text c -> trim c <> EmptyString ->
  limit (ttl_seconds req) T -> limit (max_views req) M ->
  modest e T M ->
  forall e' req' t,
    params_id req' = new_id e ->
    now e' req' = Num t ->
    (forall Tz, T = Some Tz -> t < Date_now e + Tz * 1000) ->
    exists pg,
      fst (serve (get_p src) e' req' (snd (serve (post_pastes src) e req s)))
      = Some {| status := 200; sent := html_page pg |} /\
      pre pg = escapeHtml (trim c) /\
      unescapeHtml (pre pg) = trim c /\
      views_shown pg = Num 1 /\
      of_max_views pg = Num <$> M /\
      expires_shown pg
      = match src with
        | server_js =>
            Some (match T with
                  | Some Tz =>
                      Some (if Z.abs (Date_now e + Tz * 1000) <=? JsDate.max_time
                            then JsDate.text_of_instant (Date_now e + Tz * 1000)
                            else JsDate.text_Invalid_Date)
                  | None => None
                  end)
        | part_000 => None
        end.
Proof.
  intros Hc Hne HT HM _ e' req' t Hid Hnow Ht.
  destruct (post_accepted src e req s c T M Hc Hne HT HM)
    as (url & s' & Hpost & Hst & _).
  pose proof (created_well_formed e c T M _ _ Hne HT HM) as Hwf.
  rewrite Hpost. cbn [snd]. rewrite <- Hid in Hst.
  rewrite (serve_get src view), (retrieval_stored src e' req' s' _ _ Hst Hwf _ Hnow).
  rewrite (created_available e c T M _ _ HM Ht).
  cbn [fst outcome]. rewrite (success_view_stored src _ _ _ _ Hst Hwf).
  eexists. split; [reflexivity |].
  cbn [pre views_shown of_max_views expires_shown created Policy.content
         Policy.views Policy.max_views].
  split; [reflexivity |]. split; [apply unescapeHtml_escapeHtml |].
  split; [reflexivity |]. split; [reflexivity |].
  destruct src; [| reflexivity]. unfold Policy.expires_at.
  destruct T as [Tz |]; cbn; [| reflexivity].
  now destruct (Z.abs (Date_now e + Tz * 1000) <=? JsDate.max_time).
Qed.

End Viewing.

Section Histories.
Import JsString JsNumber JsValue Http Helpers Reading.

Lemma key_of_inj a b : key_of a = key_of b -> a = b.
Proof. unfold key_of. intros H. now injection H. Qed.

(** A retrieval touches no record but the one it asks for. *)
Lemma retrieval_frame src ep e req s k :
  k <> key_of (params_id req) ->
  Redis.hashes (snd (retrieval src ep e req s)) !! k = Redis.hashes s !! k.
Proof.
  intros Hk. unfold retrieval.
  destruct (judge (now e req) (record s (params_id req))); cbn [snd]; try reflexivity.
  - destruct src; cbn; [now apply lookup_delete_ne | reflexivity].
  - destruct src; cbn; [now apply lookup_delete_ne | reflexivity].
  - unfold Redis.exec.
    destruct (match default ∅ (Redis.hashes s !! key_of (params_id req)) !! "views" with
              | Some v => Redis.integer_value v
              | None => Some 0
              end); cbn; [now apply lookup_insert_ne | reflexivity].
Qed.

(** A paste judged available has a view left. *)
Lemma judge_available_room h p now :
  Policy.stores h p -> Policy.well_formed p ->
  judge now h = Available ->
  forall M, Policy.max_views p = Some M -> Policy.views p < M.
Proof.
  intros Hst Hwf Hj M HM. unfold judge in Hj.
  destruct (h !! "content") as [[| c0 c] |]; try discriminate.
  destruct (expired now h); [discriminate |].
  destruct (exhausted h) eqn:He; [discriminate |].
  rewrite (stored_exhausted _ _ Hst Hwf) in He.
  unfold Policy.exhausted in He. rewrite HM in He. apply Z.leb_gt in He. lia.
Qed.

Lemma retrieval_sound src ep e req s :
  sound s -> sound (snd (retrieval src ep e req s)).
Proof.
  intros Hs k h' Hk.
  destruct (decide (k = key_of (params_id req))) as [-> | Hne];
    [| rewrite retrieval_frame in Hk by exact Hne; eauto].
  unfold retrieval in Hk.
  destruct (judge (now e req) (record s (params_id req))) eqn:Hj; cbn [snd] in Hk.
  - eauto.
  - destruct src; cbn in Hk; [rewrite lookup_delete_eq in Hk; discriminate | eauto].
  - destruct src; cbn in Hk; [rewrite lookup_delete_eq in Hk; discriminate | eauto].
  - pose proof (available_record_exists _ _ _ Hj) as Hrec.
    destruct (Hs _ _ Hrec) as (p & Hst & Hwf & H0 & HM).
    rewrite (exec_hIncrBy_stored _ _ _ Hst) in Hk. cbn [snd bump Redis.hashes] in Hk.
    rewrite lookup_insert_eq in Hk. injection Hk as <-.
    exists (Policy.viewed p). split; [now apply stores_viewed |].
    split; [exact Hwf |]. split; [cbn; lia |].
    intros M HMv. cbn in HMv |- *.
    pose proof (judge_available_room _ _ _ Hst Hwf Hj M HMv). lia.
Qed.

Lemma creation_sound src e req s :
  sound s -> sound (snd (serve (post_pastes src) e req s)).
Proof.
  intros Hs k h' Hk.
  destruct (decide (k = key_of (new_id e))) as [-> | Hne];
    [| rewrite post_keeps_other_records in Hk by exact Hne; eauto].
  destruct (rejects_content (content req) || rejects_limit (ttl_seconds req)
            || rejects_limit (max_views req)) eqn:Hr.
  - destruct (post_rejected src e req Hr) as [msg Hmsg].
    unfold serve in Hk. rewrite Hmsg in Hk. cbn in Hk. eauto.
  - apply orb_false_iff in Hr as [Hr HM]. apply orb_false_iff in Hr as [Hc HT].
    apply rejects_content_inv in Hc as (c & Hc & Hne).
    apply rejects_limit_inv in HT as [T HT].
    apply rejects_limit_inv in HM as [M HM].
    destruct (post_accepted src e req s c T M Hc Hne HT HM) as (url & s' & Hpost & Hst & _).
    rewrite Hpost in Hk. cbn [snd] in Hk. unfold record in Hst. rewrite Hk in Hst.
    cbn [default] in Hst.
    exists (created e c T M). split; [exact Hst |].
    split; [eapply created_well_formed; eauto |]. split; [cbn; lia |].
    intros M0 HM0. cbn in HM0 |- *. subst M. inversion HM. lia.
Qed.

(** X12: served one request after the other, the server keeps its
    keyspace in order.  Starting from an empty Redis, after any
    retrievals, by either endpoint and with any headers and clocks, and
    any creations, invalid or within the range of exact numbers, every
    hash of the keyspace is a complete paste record: non-empty content,
    limits absent or at least 1, and a view counter that is a number
    between 0 and the view limit.  The property holds at the start and
    is kept by every single request. *)
Theorem history_sound :
  sound Redis.empty /\
  (forall src c s, modest_call c -> sound s -> sound (snd (perform src c s))) /\
  (forall src calls, Forall modest_call calls -> sound (history src calls Redis.empty)).
Proof.
  assert (sound Redis.empty) as Hempty.
  { intros k h Hk. cbn in Hk. now rewrite lookup_empty in Hk. }
  assert (forall src c s, modest_call c -> sound s -> sound (snd (perform src c s)))
    as Hstep.
  { intros src [e req | ep e req] s _ Hs; cbn [perform].
    - now apply creation_sound.
    - rewrite serve_get. now apply retrieval_sound. }
  split; [exact Hempty |]. split; [exact Hstep |].
  intros src calls. unfold history. generalize Redis.empty, Hempty.
  induction calls as [| c calls IH]; intros s Hs Hcalls; [exact Hs |].
  apply Forall_cons in Hcalls as [Hc Hcalls].
  cbn [foldl]. apply IH; [now apply Hstep | exact Hcalls].
Qed.

(** Once the record is gone, no retrieval of the id is served. *)
Lemma served_gone src id calls :
  forall s,
    Redis.hashes s !! key_of id = None ->
    Forall (spares id) calls ->
    served src id calls s = 0.
Proof.
  induction calls as [| c calls IH]; intros s Hgone Hsp; [reflexivity |].
  apply Forall_cons in Hsp as [Hc Hsp]. cbn [served].
  destruct c as [e req | ep e req]; cbn [perform].
  - rewrite IH; [reflexivity | | exact Hsp].
    rewrite post_keeps_other_records; [exact Hgone |].
    intros Hk%key_of_inj. now destruct Hc.
  - rewrite serve_get.
    destruct (String.eqb_spec (params_id req) id) as [Hid | Hid].
    + unfold retrieval, judge, record. rewrite Hid, Hgone. cbn [default].
      rewrite lookup_empty. cbn [fst snd status]. now rewrite (IH s Hgone Hsp).
    + rewrite IH; [now destruct (fst (retrieval src ep e req s)) | | exact Hsp].
      rewrite retrieval_frame; [exact Hgone |].
      intros Hk%key_of_inj. congruence.
Qed.

(** X13: the two endpoints draw on one budget.  For a stored paste
    with the view limit M of which v views are used, whatever is asked
    of the server afterwards, in any mix of the JSON and the HTML
    endpoint and with any clocks and headers, at most M - v of the
    retrievals of its id are answered 200, as long as no creation
    draws the same id again. *)
Theorem views_budget src id calls :
  forall s p M,
    Policy.stores (record s id) p -> Policy.well_formed p ->
    Policy.max_views p = Some M -> Policy.views p <= M ->
    Forall (spares id) calls ->
    served src id calls s <= M - Policy.views p.
Proof.
  induction calls as [| c calls IH]; intros s p M Hst Hwf HM Hv Hsp; [cbn; lia |].
  apply Forall_cons in Hsp as [Hc Hsp]. cbn [served].
  assert (Hrec : forall s',
    Redis.hashes s' !! key_of id = Redis.hashes s !! key_of id ->
    Policy.stores (record s' id) p).
  { intros s' Hs'. unfold record. rewrite Hs'. exact Hst. }
  destruct c as [e req | ep e req]; cbn [perform].
  - rewrite Z.add_0_l. apply (IH _ p M); try assumption.
    apply Hrec, post_keeps_other_records.
    intros Hk%key_of_inj. now destruct Hc.
  - rewrite serve_get.
    destruct (String.eqb_spec (params_id req) id) as [Hid | Hid].
    2: { assert (match fst (retrieval src ep e req s) with
                 | Some r => if false && (status r =? 200) then 1 else 0
                 | None => 0
                 end = 0) as -> by now destruct (fst (retrieval src ep e req s)).
         rewrite Z.add_0_l. apply (IH _ p M); try assumption.
         apply Hrec, retrieval_frame. intros Hk%key_of_inj. congruence. }
    subst id. unfold retrieval.
    destruct (judge (now e req) (record s (params_id req))) eqn:Hj; cbn [fst snd status].
    + change (404 =? 200) with false. cbn [andb]. rewrite Z.add_0_l. now apply (IH _ p M).
    + change (404 =? 200) with false. cbn [andb]. rewrite Z.add_0_l.
      destruct src; cbn [cleanup]; [| now apply (IH _ p M)].
      rewrite served_gone; [lia | cbn; apply lookup_delete_eq | exact Hsp].
    + change (404 =? 200) with false. cbn [andb]. rewrite Z.add_0_l.
      destruct src; cbn [cleanup]; [| now apply (IH _ p M)].
      rewrite served_gone; [lia | cbn; apply lookup_delete_eq | exact Hsp].
    + rewrite (exec_hIncrBy_stored _ _ _ Hst). cbn [fst snd].
      pose proof (judge_available_room _ _ _ Hst Hwf Hj M HM) as Hroom.
      assert (served src (params_id req) calls
                (bump s (params_id req) (Policy.views p + 1))
              <= M - (Policy.views p + 1)) as Hrest.
      { apply (IH _ (Policy.viewed p) M); try assumption.
        - rewrite record_bump. now apply stores_viewed.
        - cbn. lia. }
      destruct (success src ep (params_id req) (record s (params_id req))
                  (Policy.views p + 1)) as [r |]; [| lia].
      destruct (true && (status r =? 200)); lia.
Qed.

End Histories.

Section Racing.
Import JsString JsNumber JsValue Http Helpers Reading.

(** The first command of a retrieval is its HGETALL, which changes
    nothing and is no event for an onlooker. *)
Lemma step_get src ep e req s :
  Async.step (get src ep e req) s = (residual (get src ep e req) s, s, None).
Proof. now destruct src, ep. Qed.

(** What is left of a retrieval once HGETALL has replied with an
    available paste: the increment, and the answer made of the reply
    and of the record as it was read. *)
Lemma residual_available src ep e req s :
  judge (now e req) (record s (params_id req)) = Available ->
  exists k,
    residual (get src ep e req) s
    = Async.Await (Redis.hIncrBy (key_of (params_id req)) "views" 1) k /\
    forall r,
      k r = finished match r with
                     | Some n => success src ep (params_id req)
                                   (record s (params_id req)) n
                     | None => thrown src ep
                     end.
Proof.
  intros Hj. unfold judge in Hj. unfold residual, key_of.
  change (record s (params_id req))
    with (default ∅ (Redis.hashes s !! ("paste:" ++ params_id req))) in *.
  destruct src, ep;
    unfold get, get_api_paste, get_p, Server.get_api_paste, Server.get_p,
      Part000.get_api_paste, Part000.get_p;
    cbn [Async.await Async.try_catch Async.step Redis.exec fst snd];
    set (h := default ∅ (Redis.hashes s !! ("paste:" ++ params_id req))) in *;
    (destruct (h !! "content") as [[| c0 c] |] eqn:Hc; try discriminate);
    fold (ttl h) in *; fold (maxViews h) in *; fold (createdAt h) in *;
    fold (views h) in *; fold (expiry h) in *;
    fold (expired (now e req) h) in *; fold (exhausted h) in *;
    (destruct (expired (now e req) h); [discriminate |]);
    (destruct (exhausted h); [discriminate |]);
    cbn [Async.await Async.try_catch];
    (eexists; split; [reflexivity |]);
    intros [n |]; try reflexivity;
    unfold success, remaining; rewrite Hc; cbn [default];
    destruct (truthy (ttl h)); try reflexivity;
    destruct (JsDate.toISOString (JsDate.Date (expiry h))); reflexivity.
Qed.

(** X14: a retrieval acts on what it read.  Once its HGETALL has
    replied with a paste it judges available, the handler increments
    the counter and answers from the record as read, whatever has
    become of the paste by the time the increment is served; when
    another request has deleted the paste in between, the increment
    makes Redis create a hash that holds nothing but a counter, under
    the key of the deleted paste. *)
Theorem retrieval_acts_on_what_it_read src ep e req s :
  judge (now e req) (record s (params_id req)) = Available ->
  forall s',
    Async.run (residual (get src ep e req) s) s'
    = match Redis.exec (Redis.hIncrBy (key_of (params_id req)) "views" 1) s' with
      | (Some n, s'') => (success src ep (params_id req) (record s (params_id req)) n, s'')
      | (None, s'') => (thrown src ep, s'')
      end /\
    (Redis.hashes s' !! key_of (params_id req) = None ->
     Async.run (residual (get src ep e req) s) s'
     = (success src ep (params_id req) (record s (params_id req)) 1,
        {| Redis.hashes :=
             <[key_of (params_id req) := {["views" := "1"]}]> (Redis.hashes s');
           Redis.expires := Redis.expires s' |})).
Proof.
  intros Hj s'.
  destruct (residual_available src ep e req s Hj) as (k & -> & Hk).
  assert (Async.run
            (Async.Await (Redis.hIncrBy (key_of (params_id req)) "views" 1) k) s'
          = match Redis.exec (Redis.hIncrBy (key_of (params_id req)) "views" 1) s' with
            | (Some n, s'') =>
                (success src ep (params_id req) (record s (params_id req)) n, s'')
            | (None, s'') => (thrown src ep, s'')
            end) as Hrun.
  { cbn [Async.run].
    destruct (Redis.exec (Redis.hIncrBy (key_of (params_id req)) "views" 1) s')
      as [[n |] s'']; rewrite Hk;
      [destruct (success src ep (params_id req) (record s (params_id req)) n)
      | destruct (thrown src ep)]; reflexivity. }
  split; [exact Hrun |].
  intros Hgone. rewrite Hrun. unfold Redis.exec. rewrite Hgone. cbn [default].
  rewrite lookup_empty. reflexivity.
Qed.

Lemma turn_first {R : Type} (p : Async.prog R) rest s lg p' s' ev :
  Async.step p s = (p', s', ev) ->
  Async.turn 0 {| Async.pool := p :: rest; Async.store := s; Async.log := lg |}
  = {| Async.pool := p' :: rest;
       Async.store := s';
       Async.log := lg ++ match ev with
                          | Some ev => [(0%nat, ev)]
                          | None => []
                          end |}.
Proof. intros H. unfold Async.turn. cbn [Async.pool Async.store Async.log]. simpl. now rewrite H. Qed.

Lemma turn_second {R : Type} (p0 p : Async.prog R) rest s lg p' s' ev :
  Async.step p s = (p', s', ev) ->
  Async.turn 1 {| Async.pool := p0 :: p :: rest; Async.store := s; Async.log := lg |}
  = {| Async.pool := p0 :: p' :: rest;
       Async.store := s';
       Async.log := lg ++ match ev with
                          | Some ev => [(1%nat, ev)]
                          | None => []
                          end |}.
Proof. intros H. unfold Async.turn. cbn [Async.pool Async.store Async.log]. simpl. now rewrite H. Qed.

(** X15: two retrievals in flight can both be served the last view.
    For a paste without time to live that has one view left of its
    limit M, when the HGETALL of both retrievals is served before the
    HINCRBY of either, both are answered 200; the counter ends at
    M + 1, one above the limit; the positions granted are M and M + 1;
    the JSON answer of the second reports 0 remaining views, and its
    page shows M + 1 views of M. *)
Theorem last_view_served_twice src ep1 ep2 e1 e2 req1 req2 s p M :
  params_id req2 = params_id req1 ->
  Policy.stores (record s (params_id req1)) p -> Policy.well_formed p ->
  Policy.ttl_seconds p = None ->
  Policy.max_views p = Some M -> Policy.views p = M - 1 ->
  let cf := Async.interleave [0; 1; 0; 1]%nat
              (Async.start [get src ep1 e1 req1; get src ep2 e2 req2] s) in
  exists r1 r2,
    Async.pool cf = [Async.Ret r1; Async.Ret r2] /\
    status r1 = 200 /\ status r2 = 200 /\
    counter (record (Async.store cf) (params_id req1)) = Some (M + 1) /\
    map snd (Async.log cf)
    = [Redis.Granted (key_of (params_id req1)) M;
       Redis.Granted (key_of (params_id req1)) (M + 1)] /\
    match sent r2 with
    | json_paste _ remaining_views _ => remaining_views = Some (Num 0)
    | html_page pg => views_shown pg = Num (M + 1) /\ of_max_views pg = Some (Num M)
    | _ => False
    end.
Proof.
  intros Hid Hst Hwf HT HM Hv cf. subst cf.
  set (id := params_id req1) in *.
  assert (Policy.state p 0 = Policy.Available) as Hstate.
  { unfold Policy.state, Policy.expired, Policy.exhausted. rewrite HT, HM.
    destruct (Z.leb_spec M (Policy.views p)); [lia | reflexivity]. }
  assert (judge (now e1 req1) (record s (params_id req1)) = Available) as Hj1.
  { now rewrite (judge_no_ttl _ _ Hst Hwf _ HT), Hstate. }
  assert (judge (now e2 req2) (record s (params_id req2)) = Available) as Hj2.
  { rewrite Hid. now rewrite (judge_no_ttl _ _ Hst Hwf _ HT), Hstate. }
  destruct (residual_available src ep1 e1 req1 s Hj1) as (k1 & Hr1 & Hk1).
  destruct (residual_available src ep2 e2 req2 s Hj2) as (k2 & Hr2 & Hk2).
  rewrite Hid in Hr2, Hk2. fold id in Hr1, Hk1, Hr2, Hk2.
  assert (Hst1 : Policy.stores (record (bump s id M) id) (Policy.viewed p)).
  { rewrite record_bump. replace M with (Policy.views p + 1) by lia.
    now apply stores_viewed. }
  unfold Async.interleave, Async.start. cbn [foldl].
  rewrite (turn_first _ _ _ _ _ _ _ (step_get src ep1 e1 req1 s)), Hr1.
  rewrite (turn_second _ _ _ _ _ _ _ _ (step_get src ep2 e2 req2 s)), Hr2.
  erewrite turn_first.
  2: { cbn [Async.step]. rewrite (exec_hIncrBy_stored _ _ _ Hst).
       rewrite Hv. replace (M - 1 + 1) with M by lia. reflexivity. }
  erewrite turn_second.
  2: { cbn [Async.step]. rewrite (exec_hIncrBy_stored _ _ _ Hst1).
       cbn [Policy.viewed Policy.views]. rewrite Hv.
       replace (M - 1 + 1 + 1) with (M + 1) by lia. reflexivity. }
  cbn [Async.pool Async.store Async.log].
  rewrite Hk1, Hk2.
  assert (forall ep n, exists r,
    success src ep id (record s id) n = Some r /\ status r = 200 /\
    match sent r with
    | json_paste _ remaining_views _ => remaining_views = Num <$> Policy.remaining p n
    | html_page pg => views_shown pg = Num n /\ of_max_views pg = Some (Num M)
    | _ => False
    end) as Hok.
  { intros [|] n.
    - pose proof (success_api_stored src req1 s p Hst Hwf n) as Hs. fold id in Hs.
      rewrite Hs. unfold Policy.expires_at. rewrite HT. cbn.
      eexists. split; [reflexivity |]. split; reflexivity.
    - rewrite (success_view_stored src id _ p n Hst Hwf). rewrite HM.
      eexists. split; [reflexivity |]. cbn. auto. }
  destruct (Hok ep1 M) as (r1 & -> & Hs1 & _).
  destruct (Hok ep2 (M + 1)) as (r2 & -> & Hs2 & Hb2).
  exists r1, r2. cbn [finished]. split; [reflexivity |].
  split; [exact Hs1 |]. split; [exact Hs2 |]. split.
  - rewrite record_bump. apply counter_bumped.
  - split.
    + cbn [Redis.event_of]. cbn. reflexivity.
    + destruct (sent r2); try exact Hb2.
      rewrite Hb2. unfold Policy.remaining. rewrite HM. cbn. do 2 f_equal. lia.
Qed.

End Racing.

Section Counting.
Import JsString JsNumber JsValue Http Helpers Reading.

Lemma granted_snoc key log i k v :
  granted key (log ++ [(i, Redis.Granted k v)])
  = if String.eqb k key then (granted key log ++ [v])%list else granted key log.
Proof.
  unfold granted. rewrite omap_app. cbn [omap list_omap snd].
  destruct (String.eqb k key); [reflexivity | apply app_nil_r].
Qed.

Lemma turn_kept_and_counted {R : Type} key h i (cf : Async.config R) :
  hushed cf -> kept_and_counted key h cf -> kept_and_counted key h (Async.turn i cf).
Proof.
  intros [Hpool _] (h' & Hh' & Hkept & Hcount). unfold Async.turn.
  destruct (Async.pool cf !! i) as [p |] eqn:Hp; [| now exists h'].
  pose proof (Forall_lookup_1 _ _ _ _ Hpool Hp) as Hq.
  destruct p as [r | | A c k]; cbn [Async.step];
    try (exists h'; cbn [Async.store Async.log]; now rewrite app_nil_r).
  destruct Hq as [Hc _].
  destruct c as [k0 | k0 fields | k0 secs | k0 | k0 field n]; try discriminate Hc.
  - exists h'. cbn [Redis.exec Redis.event_of Async.store Async.log].
    now rewrite app_nil_r.
  - exists h'. cbn [Redis.exec Redis.event_of Async.store Async.log].
    rewrite app_nil_r. split; [| now split].
    now destruct (Redis.hashes (Async.store cf) !! k0).
  - cbn [rewrites] in Hc. apply negb_false_iff, andb_true_iff in Hc as [Hf Hn].
    apply String.eqb_eq in Hf. apply Z.eqb_eq in Hn. subst field n.
    unfold Redis.exec.
    destruct (match default ∅ (Redis.hashes (Async.store cf) !! k0) !! "views" with
              | Some v => Redis.integer_value v
              | None => Some 0
              end) as [v |] eqn:Hold;
      cbn [Redis.event_of Async.store Async.log Redis.hashes];
      [| exists h'; now rewrite app_nil_r].
    change (String.eqb "views" "views" && (1 =? 1)) with true. cbn iota.
    unfold kept_and_counted. cbn [Async.store Async.log Redis.hashes].
    rewrite granted_snoc.
    destruct (String.eqb_spec k0 key) as [-> | Hk].
    + rewrite Hh' in Hold. change (counter h' = Some v) in Hold.
      rewrite Hh'. cbn [default].
      exists (<["views" := toString (v + 1)]> h'). rewrite lookup_insert_eq.
      split; [reflexivity |]. split.
      * intros f Hf. rewrite lookup_insert_ne; [now apply Hkept |].
        intros Heq. now apply Hf.
      * destruct (counter h) as [n0 |] eqn:Hn0.
        -- rewrite Hcount in Hold. injection Hold as <-.
           rewrite counter_bumped, length_app. cbn [length]. f_equal. lia.
        -- destruct Hcount as [-> _]. congruence.
    + exists h'. rewrite lookup_insert_ne by exact Hk.
      split; [exact Hh' | split; [exact Hkept | exact Hcount]].
Qed.

(** X27: what retrievals in flight do to a record in part_000.  For
    any retrievals of part_000, by either endpoint and for any ids,
    interleaved in any order at their awaits, a record of the keyspace
    is still there in the end with content, created_at, ttl_seconds
    and max_views as they were, and its view counter has gone up by
    exactly one for each position HINCRBY granted on its key; a record
    whose counter is no number is left as it was.  The counter is
    taken to stay a safe integer over the commands of the schedule. *)
Theorem part_000_keeps_and_counts
    (clients : list (endpoint * env * request)) schedule s key h :
  Redis.hashes s !! key = Some h ->
  (forall n, counter h = Some n ->
             0 <= n /\ n + Z.of_nat (length schedule) <= MAX_SAFE_INTEGER) ->
  kept_and_counted key h
    (Async.interleave schedule
       (Async.start (map (fun cl => get part_000 cl.1.1 cl.1.2 cl.2) clients) s)).
Proof.
  intros Hh _.
  enough (hushed (Async.interleave schedule
            (Async.start (map (fun cl => get part_000 cl.1.1 cl.1.2 cl.2) clients) s)) /\
          kept_and_counted key h (Async.interleave schedule
            (Async.start (map (fun cl => get part_000 cl.1.1 cl.1.2 cl.2) clients) s)))
    as [_ H] by exact H.
  apply (interleave_invariant (fun cf => hushed cf /\ kept_and_counted key h cf)).
  - intros i cf [Hhushed Hkept].
    split; [now apply turn_hushed | now apply turn_kept_and_counted].
  - split.
    + split; [| constructor]. cbn [Async.start Async.pool].
      apply Forall_map, Forall_forall. intros cl _. apply part_000_quiet.
    + exists h. cbn [Async.start Async.store Async.log]. split; [exact Hh |].
      split; [now intros f _ |].
      destruct (counter h) as [n |]; [| now split].
      cbn. f_equal. lia.
Qed.

End Counting.

Section Edges.
Import JsString JsNumber JsValue Http Helpers Reading.

(** X16: expiry is final in server.js only.  A retrieval that comes
    after the time to live of a paste stored within the range of exact
    numbers is answered 404 with the
    expiry message by both files; a later request for the page whose
    clock reads a time before the expiry (a client of a test
    deployment may send any clock) is answered 404 by server.js, which
    has deleted the paste, and 200 by part_000, which has kept it. *)
Theorem expiry_final_only_in_server_js src ep e req e' req' s p T t t' :
  Policy.stores (record s (params_id req)) p -> Policy.well_formed p ->
  modest_paste p ->
  Policy.ttl_seconds p = Some T -> Policy.exhausted p = false ->
  params_id req' = params_id req ->
  now e req = Num t -> Policy.created_at p + T * 1000 <= t ->
  now e' req' = Num t' -> t' < Policy.created_at p + T * 1000 ->
  fst (serve (get src ep) e req s)
  = Some {| status := 404; sent := refusal src ep Expired |} /\
  status <$> fst (serve (get src view) e' req' (snd (serve (get src ep) e req s)))
  = Some match src with
         | server_js => 404
         | part_000 => 200
         end.
Proof.
  intros Hst Hwf _ HT Hex Hid Hnow Ht Hnow' Ht'.
  rewrite (serve_get src ep), (retrieval_stored src e req s p t Hst Hwf ep Hnow).
  assert (Policy.state p t = Policy.Expired) as ->.
  { unfold Policy.state, Policy.expired. rewrite HT.
    now rewrite (proj2 (Z.leb_le _ _) Ht). }
  cbn [outcome fst snd]. split; [reflexivity |].
  rewrite (serve_get src view). destruct src; cbn [cleanup].
  - unfold retrieval, judge, record. cbn [Redis.exec snd Redis.hashes].
    rewrite Hid, lookup_delete_eq. cbn [default]. now rewrite lookup_empty.
  - rewrite <- Hid in Hst.
    rewrite (retrieval_stored part_000 e' req' s p t' Hst Hwf view Hnow').
    assert (Policy.state p t' = Policy.Available) as ->.
    { unfold Policy.state, Policy.expired. rewrite HT, Hex.
      destruct (Z.leb_spec (Policy.created_at p + T * 1000) t'); [lia | reflexivity]. }
    cbn [outcome fst]. now rewrite (success_view_stored part_000 _ _ p _ Hst Hwf).
Qed.

(** X17: a view counter that is no number breaks the retrieval and
    nothing else.  When the record read is judged available but its
    [views] field does not hold an integer, HINCRBY is refused by
    Redis: server.js answers 500 from its catch block, the request to
    part_000 is left without an answer, and the keyspace stays as it
    was.  A record with no [views] field at all is counted from 0. *)
Theorem broken_counter_breaks_retrieval src ep e req s :
  judge (now e req) (record s (params_id req)) = Available ->
  (counter (record s (params_id req)) = None ->
   serve (get src ep) e req s = (thrown src ep, s)) /\
  (record s (params_id req) !! "views" = None ->
   serve (get src ep) e req s
   = (success src ep (params_id req) (record s (params_id req)) 1,
      bump s (params_id req) 1)).
Proof.
  intros Hj. rewrite serve_get. unfold retrieval. rewrite Hj.
  unfold counter, Redis.exec. fold (key_of (params_id req)).
  fold (record s (params_id req)).
  split.
  - intros Hc. now rewrite Hc.
  - intros Hc. now rewrite Hc.
Qed.

(** X18: the round trips to Redis.  A creation that is rejected
    issues no command; one that is accepted issues one, and in
    server.js a second one when a time to live was given.  A retrieval
    issues one command when there is no paste, two when the paste is
    available, and for an expired or exhausted paste two in server.js
    and one in part_000: never more than two. *)
Theorem round_trips src e req s :
  commands (post_pastes src e req) s
  = (if rejects_content (content req) || rejects_limit (ttl_seconds req)
        || rejects_limit (max_views req)
     then 0
     else match src with
          | server_js => if falsy (ttl_seconds req) then 1 else 2
          | part_000 => 1
          end)%nat /\
  forall ep,
    commands (get src ep e req) s
    = match judge (now e req) (record s (params_id req)) with
      | Absent => 1
      | Available => 2
      | _ => match src with
             | server_js => 2
             | part_000 => 1
             end
      end%nat.
Proof.
  split.
  - destruct (rejects_content (content req) || rejects_limit (ttl_seconds req)
              || rejects_limit (max_views req)) eqn:Hr.
    + destruct (post_rejected src e req Hr) as [msg ->]. reflexivity.
    + apply orb_false_iff in Hr as [Hr HM]. apply orb_false_iff in Hr as [Hc HT].
      apply rejects_content_inv in Hc as (c & Hc & Hne).
      apply rejects_limit_inv in HT as [T HT].
      apply rejects_limit_inv in HM as [M HM].
      assert (Hfields :
        redis_fields
          [("content", text (trim (string_of (content req))));
           ("created_at", numeric (inject_Z (Date_now e)));
           ("ttl_seconds", nullish_or (ttl_seconds req) (text ""));
           ("max_views", nullish_or (max_views req) (text ""));
           ("views", numeric (inject_Z 0))]
        = Some [("content", trim c);
                ("created_at", toString (Date_now e));
                ("ttl_seconds", Policy.limit_field T);
                ("max_views", Policy.limit_field M);
                ("views", toString 0)]).
      { unfold redis_fields. cbn [mapM].
        rewrite (redis_arg_limit _ _ HT), (redis_arg_limit _ _ HM), Hc.
        cbn [redis_arg string_of].
        now rewrite !(to_Z_integer _ _ (Qeq_refl _)). }
      destruct src; unfold post_pastes, Server.post_pastes, Part000.post_pastes;
        fold (rejects_content (content req));
        fold (rejects_limit (ttl_seconds req));
        fold (rejects_limit (max_views req));
        rewrite (rejects_limit_good _ _ HT), (rejects_limit_good _ _ HM), Hc,
          (rejects_content_good c Hne);
        cbn [orb]; rewrite <- Hc; unfold await_hSet; rewrite Hfields;
        [| reflexivity].
      destruct (falsy (ttl_seconds req)); reflexivity.
  - intros ep. unfold judge.
    change (record s (params_id req))
      with (default ∅ (Redis.hashes s !! ("paste:" ++ params_id req))).
    destruct src, ep;
      unfold get, get_api_paste, get_p, Server.get_api_paste, Server.get_p,
        Part000.get_api_paste, Part000.get_p;
      cbn [Async.await Async.try_catch commands Redis.exec];
      set (h := default ∅ (Redis.hashes s !! ("paste:" ++ params_id req)));
      (destruct (h !! "content") as [[| c0 c] |] eqn:Hc; [reflexivity | | reflexivity]);
      fold (ttl h); fold (maxViews h); fold (createdAt h); fold (views h);
      fold (expiry h); fold (expired (now e req) h); fold (exhausted h);
      (destruct (expired (now e req) h); [reflexivity |]);
      (destruct (exhausted h); [reflexivity |]);
      cbn [Async.await Async.try_catch commands];
      destruct (Redis.exec _ s) as [[n |] s']; try reflexivity;
      destruct (truthy (ttl h)); try reflexivity;
      destruct (JsDate.toISOString _); reflexivity.
Qed.

End Edges.

(** ** The further properties at sample requests *)

Section MoreWitnesses.
Import JsString JsNumber JsValue Http Helpers Reading.

(** [reconnect_delay_capped] at the eighth attempt. *)
Lemma reconnect_delay_capped_witness :
  0 <= 7 /\ ServerSetup.reconnectStrategy 7 = 700.
Proof.
  split; [lia |].
  destruct (reconnect_delay_capped 7 ltac:(lia)) as (_ & Hearly & _).
  apply Hearly. lia.
Defined.

(** [test_clock_reads_header] at a request two seconds ahead. *)
Lemma test_clock_reads_header_witness :
  TEST_MODE testing = Some "1" /\
  now testing (GET "3f2504e0" (Some "1793592002000")) = Num 1793592002000.
Proof.
  split; [reflexivity |].
  destruct (test_clock_reads_header testing (GET "3f2504e0" (Some "1793592002000"))
              eq_refl) as [Hhdr _].
  apply Hhdr; [vm_compute; discriminate | reflexivity].
Defined.

(** [NaN_clock_never_expires] at a header that is no number. *)
Lemma NaN_clock_never_expires_witness :
  not_numeric "soon" = true /\
  now testing (GET "3f2504e0" (Some "soon")) = NaN /\
  forall h, judge (now testing (GET "3f2504e0" (Some "soon"))) h <> Expired.
Proof.
  split; [reflexivity |].
  destruct (NaN_clock_never_expires testing (GET "3f2504e0" (Some "soon")) "soon")
    as (Hnow & Hjudge & _); [reflexivity | reflexivity | reflexivity |].
  split; [exact Hnow | exact Hjudge].
Defined.

(** [created_url] at a request sent to the local server. *)
Lemma created_url_witness :
  fst (serve (post_pastes server_js) production
         (from_host (POST (text "hello") undefined undefined) (Some "localhost:3000"))
         Redis.empty)
  = Some {| status := 201;
            sent := json_created "3f2504e0" "http://localhost:3000/p/3f2504e0" |}.
Proof.
  destruct (created_url server_js production (POST (text "hello") undefined undefined)
              Redis.empty "hello" None None) as (Hlocal & _).
  - reflexivity.
  - discriminate.
  - constructor.
  - constructor.
  - repeat split; try (intros ? [= <-]); try (intros ? [=]); vm_compute; discriminate.
  - exact (Hlocal "" ":3000").
Defined.

(** [expire_registered] at the paste with two seconds to live. *)
Lemma expire_registered_witness :
  Redis.expires (snd (serve (post_pastes server_js) testing short_lived Redis.empty))
    !! "paste:3f2504e0" = Some 2.
Proof.
  destruct (expire_registered server_js testing short_lived Redis.empty
              "hello" (Some 2) None) as (Hkey & _).
  - reflexivity.
  - discriminate.
  - constructor; [reflexivity | lia].
  - constructor.
  - repeat split; try (intros ? [= <-]); try (intros ? [=]); vm_compute; discriminate.
  - exact Hkey.
Defined.

(** [create_then_view] at a paste that holds a tag. *)
Lemma create_then_view_witness :
  exists pg,
    fst (serve (get_p server_js) production (GET "3f2504e0" None)
           (snd (serve (post_pastes server_js) production
                   (POST (text " <b> ") undefined (numeric (inject_Z 2))) Redis.empty)))
    = Some {| status := 200; sent := html_page pg |} /\
    pre pg = "&lt;b&gt;" /\ views_shown pg = Num 1 /\ of_max_views pg = Some (Num 2).
Proof.
  destruct (create_then_view server_js production
              (POST (text " <b> ") undefined (numeric (inject_Z 2))) Redis.empty
              " <b> " None (Some 2))
    with (e' := production) (req' := GET "3f2504e0" None) (t := 1793592000000)
    as (pg & Hpage & Hpre & _ & Hviews & Hmax & _).
  - reflexivity.
  - discriminate.
  - constructor.
  - constructor; [reflexivity | lia].
  - repeat split; try (intros ? [= <-]); try (intros ? [=]); vm_compute; discriminate.
  - reflexivity.
  - reflexivity.
  - discriminate.
  - exists pg. repeat split; assumption.
Defined.

(** [views_budget] at a paste with two views, asked for three times. *)
Lemma views_budget_witness :
  served server_js "3f2504e0"
    [Retrieve api production (GET "3f2504e0" None);
     Retrieve view production (GET "3f2504e0" None);
     Retrieve api production (GET "3f2504e0" None)]
    (snd (serve (post_pastes server_js) production
            (POST (text "x") undefined (numeric (inject_Z 2))) Redis.empty))
  <= 2 - 0.
Proof.
  apply (views_budget server_js "3f2504e0" _ _ (created production "x" None (Some 2)) 2).
  - repeat split; vm_compute; reflexivity.
  - repeat split; cbn; [discriminate | discriminate | intros M [= <-]; lia].
  - reflexivity.
  - cbn. lia.
  - repeat constructor.
Defined.

(** [retrieval_acts_on_what_it_read] at a retrieval whose paste was
    deleted and the keyspace emptied after it had read. *)
Lemma retrieval_acts_on_what_it_read_witness :
  let s1 := snd (serve (post_pastes server_js) production
                   (POST (text "x") undefined undefined) Redis.empty) in
  Async.run (residual (get server_js api production (GET "3f2504e0" None)) s1) Redis.empty
  = (Some {| status := 200; sent := json_paste "x" None None |},
     {| Redis.hashes := {["paste:3f2504e0" := {["views" := "1"]}]};
        Redis.expires := ∅ |}).
Proof.
  cbn zeta.
  destruct (retrieval_acts_on_what_it_read server_js api production
              (GET "3f2504e0" None)
              (snd (serve (post_pastes server_js) production
                      (POST (text "x") undefined undefined) Redis.empty)))
    with (s' := Redis.empty) as (_ & Hgone).
  - vm_compute. reflexivity.
  - rewrite Hgone by reflexivity. vm_compute. reflexivity.
Defined.

(** [last_view_served_twice] at a paste with a single view. *)
Lemma last_view_served_twice_witness :
  let s1 := snd (serve (post_pastes server_js) production
                   (POST (text "x") undefined (numeric (inject_Z 1))) Redis.empty) in
  let cf := Async.interleave [0; 1; 0; 1]%nat
              (Async.start [get server_js api production (GET "3f2504e0" None);
                            get server_js view production (GET "3f2504e0" None)] s1) in
  exists r1 r2,
    Async.pool cf = [Async.Ret r1; Async.Ret r2] /\ status r1 = 200 /\ status r2 = 200 /\
    counter (record (Async.store cf) "3f2504e0") = Some 2.
Proof.
  cbn zeta.
  destruct (last_view_served_twice server_js api view production production
              (GET "3f2504e0" None) (GET "3f2504e0" None)
              (snd (serve (post_pastes server_js) production
                      (POST (text "x") undefined (numeric (inject_Z 1))) Redis.empty))
              (created production "x" None (Some 1)) 1)
    as (r1 & r2 & Hpool & H1 & H2 & Hcount & _).
  - reflexivity.
  - repeat split; vm_compute; reflexivity.
  - repeat split; cbn; [discriminate | discriminate | intros M [= <-]; lia].
  - reflexivity.
  - reflexivity.
  - reflexivity.
  - exists r1, r2. repeat split; assumption.
Defined.

(** [expiry_final_only_in_server_js] at the paste with two seconds to
    live, kept by part_000. *)
Lemma expiry_final_only_in_server_js_witness :
  let s1 := snd (serve (post_pastes part_000) testing short_lived Redis.empty) in
  let late := GET "3f2504e0" (Some "1793592002000") in
  let early := GET "3f2504e0" (Some "1793592001999") in
  fst (serve (get part_000 api) testing late s1)
  = Some {| status := 404; sent := json_error "Expired" |} /\
  status <$> fst (serve (get part_000 view) testing early
                    (snd (serve (get part_000 api) testing late s1)))
  = Some 200.
Proof.
  cbn zeta.
  apply (expiry_final_only_in_server_js part_000 api testing
           (GET "3f2504e0" (Some "1793592002000")) testing
           (GET "3f2504e0" (Some "1793592001999"))
           (snd (serve (post_pastes part_000) testing short_lived Redis.empty))
           (created testing "hello" (Some 2) None) 2 1793592002000 1793592001999).
  - repeat split; vm_compute; reflexivity.
  - repeat split; cbn; [discriminate | intros T [= <-]; lia | discriminate].
  - repeat split; try (intros ? [= <-]); try (intros ? [=]); vm_compute; discriminate.
  - reflexivity.
  - reflexivity.
  - reflexivity.
  - vm_compute. reflexivity.
  - vm_compute. discriminate.
  - vm_compute. reflexivity.
  - vm_compute. reflexivity.
Defined.

(** [broken_counter_breaks_retrieval] at a record whose counter was
    overwritten with a word. *)
Lemma broken_counter_breaks_retrieval_witness :
  let s := {| Redis.hashes :=
                {["paste:abc" := list_to_map [("content", "x"); ("views", "many")]]};
              Redis.expires := ∅ |} in
  serve (get server_js api) production (GET "abc" None) s
  = (Some {| status := 500; sent := json_error "Internal server error" |}, s).
Proof.
  cbn zeta.
  destruct (broken_counter_breaks_retrieval server_js api production (GET "abc" None)
              {| Redis.hashes :=
                   {["paste:abc" := list_to_map [("content", "x"); ("views", "many")]]};
                 Redis.expires := ∅ |}) as (Hbroken & _).
  - vm_compute. reflexivity.
  - apply Hbroken. vm_compute. reflexivity.
Defined.

(** [part_000_keeps_and_counts] at two retrievals of one paste, their
    commands taking turns. *)
Lemma part_000_keeps_and_counts_witness :
  let s1 := snd (serve (post_pastes part_000) production
                   (POST (text "x") undefined undefined) Redis.empty) in
  kept_and_counted "paste:3f2504e0" (record s1 "3f2504e0")
    (Async.interleave [0; 1; 0; 1]%nat
       (Async.start
          (map (fun cl => get part_000 cl.1.1 cl.1.2 cl.2)
               [(api, production, GET "3f2504e0" None);
                (view, production, GET "3f2504e0" None)]) s1)).
Proof.
  cbn zeta.
  apply (part_000_keeps_and_counts
           [(api, production, GET "3f2504e0" None);
            (view, production, GET "3f2504e0" None)]
           [0; 1; 0; 1]%nat).
  - vm_compute. reflexivity.
  - intros n Hn. assert (n = 0) as -> by (vm_compute in Hn; congruence).
    split; vm_compute; discriminate.
Defined.

(** [ttl_boundary_in_date_range] at the paste with two seconds to
    live. *)
Lemma ttl_boundary_in_date_range_witness :
  exists url s',
    serve (post_pastes server_js) testing short_lived Redis.empty
    = (Some {| status := 201; sent := json_created "3f2504e0" url |}, s') /\
    fst (serve (get_api_paste server_js) testing
           (GET "3f2504e0" (Some "1793592001999")) s')
    = Some {| status := 200; sent := json_paste "hello" None (Some 1793592002000) |} /\
    exists r,
      fst (serve (get_api_paste server_js) testing
             (GET "3f2504e0" (Some "1793592002000")) s') = Some r /\
      status r = 404.
Proof.
  destruct (ttl_boundary_in_date_range server_js testing short_lived Redis.empty
              "hello" 2 None) as (url & s' & Hpost & Hbefore & Hafter).
  - reflexivity.
  - discriminate.
  - constructor; [reflexivity | lia].
  - constructor.
  - repeat split; try (intros ? [= <-]); try (intros ? [=]); vm_compute; discriminate.
  - vm_compute. discriminate.
  - exists url, s'. split; [exact Hpost |]. split.
    + apply Hbefore; reflexivity.
    + apply (Hafter testing (GET "3f2504e0" (Some "1793592002000")) 1793592002000);
        [reflexivity | reflexivity | vm_compute; discriminate].
Defined.

(** [ttl_beyond_date_range] at the paste with a hundred million days
    to live. *)
Lemma ttl_beyond_date_range_witness :
  exists url s',
    serve (post_pastes server_js) testing long_lived Redis.empty
    = (Some {| status := 201; sent := json_created "3f2504e0" url |}, s') /\
    fst (serve (get_api_paste server_js) testing (GET "3f2504e0" None) s')
    = Some {| status := 500; sent := json_error "Internal server error" |}.
Proof.
  destruct (ttl_beyond_date_range server_js testing long_lived Redis.empty
              "hello" 8640000000000 None) as (url & s' & Hpost & Hget).
  - reflexivity.
  - discriminate.
  - constructor; [reflexivity | lia].
  - constructor.
  - repeat split; try (intros ? [= <-]); try (intros ? [=]); vm_compute; discriminate.
  - vm_compute. reflexivity.
  - exists url, s'. split; [exact Hpost |].
    apply (Hget testing (GET "3f2504e0" None) 1793592000000);
      [reflexivity | reflexivity | vm_compute; reflexivity].
Defined.

(** [create_then_read] at a paste without limits. *)
Lemma create_then_read_witness :
  exists url s',
    serve (post_pastes part_000) production
      (POST (text "  hello ") undefined undefined) Redis.empty
    = (Some {| status := 201; sent := json_created "3f2504e0" url |}, s') /\
    fst (serve (get_api_paste part_000) production (GET "3f2504e0" None) s')
    = Some {| status := 200; sent := json_paste "hello" None None |}.
Proof.
  destruct (create_then_read part_000 production
              (POST (text "  hello ") undefined undefined) Redis.empty
              "  hello " None None) as (url & s' & Hpost & Hget).
  - reflexivity.
  - discriminate.
  - constructor.
  - constructor.
  - repeat split; try (intros ? [= <-]); try (intros ? [=]); vm_compute; discriminate.
  - discriminate.
  - exists url, s'. split; [exact Hpost |].
    apply (Hget production (GET "3f2504e0" None) 1793592000000);
      [reflexivity | reflexivity | discriminate].
Defined.

(** [server_js_deletes_unavailable] at the paste with two seconds to
    live, asked for when they are over. *)
Lemma server_js_deletes_unavailable_witness :
  let s1 := snd (serve (post_pastes server_js) testing short_lived Redis.empty) in
  let late := GET "3f2504e0" (Some "1793592002000") in
  Redis.hashes s1 !! "paste:3f2504e0" <> None /\
  Redis.hashes (snd (serve (get server_js view) testing late s1)) !! "paste:3f2504e0"
  = None.
Proof.
  cbn zeta. split; [vm_compute; discriminate |].
  destruct (server_js_deletes_unavailable view testing
              (GET "3f2504e0" (Some "1793592002000"))
              (snd (serve (post_pastes server_js) testing short_lived Redis.empty)))
    as (Hgone & _).
  - left. vm_compute. reflexivity.
  - exact Hgone.
Defined.

(** [part_000_never_deletes] at the same paste and request. *)
Lemma part_000_never_deletes_witness :
  let s1 := snd (serve (post_pastes part_000) testing short_lived Redis.empty) in
  let late := GET "3f2504e0" (Some "1793592002000") in
  is_Some (Redis.hashes (snd (serve (get part_000 view) testing late s1))
             !! "paste:3f2504e0").
Proof.
  cbn zeta.
  apply (part_000_never_deletes view testing (GET "3f2504e0" (Some "1793592002000"))
           (snd (serve (post_pastes part_000) testing short_lived Redis.empty))
           "paste:3f2504e0").
  eexists. vm_compute. reflexivity.
Defined.

(** [new_id_shape] at the sample UUID. *)
Lemma new_id_shape_witness :
  uuid_v4_text (uuidv4 production) = true /\
  String.length (new_id production) = 8%nat /\
  all_chars hex_digit (new_id production) = true.
Proof.
  split; [reflexivity |]. apply (new_id_shape production). reflexivity.
Defined.

End MoreWitnesses.
